(** * Host / guest iframe messaging and context synchronisation

    A shallow embedding of the TypeScript sources

    - [iframe-messaging-lib]  (class [IframeMessenger]),
    - [iframe-context-manager] (classes [ContextManager], [NavigationHelper]),
    - [host-iframe-manager]   (class [HostIframeManager]),
    - the guest application wrapper (class [IframeApp]),

    followed by the properties of the design document that concern them
    and by further properties that the code itself shows.

    JavaScript objects are finite maps from property names to values;
    the code only ever rebuilds them with spread syntax, so they are
    modelled by value.  Arrays are mutated in place ([push], [splice]) and
    are therefore kept in a store and referred to by reference.  The class
    instances are records; every method is a function that takes the
    instance and returns the updated instance together with its result.
    What the code obtains from its surroundings (the clock, the random
    generator, timers, promises, the window's event listeners, the messages
    handed to [postMessage], the console) is gathered in the record
    [Runtime].

    The program is single-threaded and event-driven.  An [async] function
    is modelled up to its first [await] that has to wait; what it does once
    the awaited promise is settled is a function of its own
    ([handlerReturns], [syncContextSettled], [createIframeLoaded]).  A
    promise is a number; every call of its [resolve] or [reject] is
    recorded, the first one being the one that settles it.  A timer is
    armed by [setTimeout], disarmed by [clearTimeout], and fires when the
    environment says so.  What happens to a messenger (calls of its
    methods, message events, timers firing, handlers returning) is a list
    of events, and the properties that speak of "always" and "never" are
    stated over all such lists. *)

From stdpp Require Import base option list gmap strings pretty.
From Stdlib Require Import ZArith Lia.

#[local] Set Warnings "-register-all".

(* ===================================================================== *)
(** ** JavaScript values *)
(* ===================================================================== *)

Inductive JsVal :=
| JUndefined
| JNull
| JBool (b : bool)
| JNum (z : Z)
| JStr (s : string)
| JObj (fields : gmap string JsVal)
| JArr (ref : nat).

(** [if (v)], [v && ...], [v || ...] *)
Definition truthy (v : JsVal) : bool :=
  match v with
  | JUndefined | JNull => false
  | JBool b => b
  | JNum z => negb (z =? 0)%Z
  | JStr s => negb (String.eqb s "")
  | JObj _ | JArr _ => true
  end.

(** [v.k] for the property names the sources read ([id], [type], [data],
    [navigation], [path], ...), none of which is a built-in property of a
    primitive or of an array.  [None] is the [TypeError] raised on
    [undefined] and [null]. *)
Definition get (v : JsVal) (k : string) : option JsVal :=
  match v with
  | JUndefined | JNull => None
  | JObj fields => Some (default JUndefined (fields !! k))
  | JBool _ | JNum _ | JStr _ | JArr _ => Some JUndefined
  end.

Definition typeof_string (v : JsVal) : bool :=
  match v with JStr _ => true | _ => false end.

Definition typeof_number (v : JsVal) : bool :=
  match v with JNum _ => true | _ => false end.

(** [v === s] for a string [s] *)
Definition strict_eq_string (v : JsVal) (s : string) : bool :=
  match v with JStr s' => String.eqb s' s | _ => false end.

Definition chars (s : string) : list JsVal :=
  (λ c, JStr (String c EmptyString)) <$> String.list_ascii_of_string s.

Definition index_props (l : list JsVal) : gmap string JsVal :=
  list_to_map (imap (λ i x, (pretty i, x)) l).

(** The own enumerable properties copied by [{...v}]. *)
Definition spread (arrays : gmap nat (list JsVal)) (v : JsVal)
  : gmap string JsVal :=
  match v with
  | JObj fields => fields
  | JStr s => index_props (chars s)
  | JArr r => index_props (default [] (arrays !! r))
  | JUndefined | JNull | JBool _ | JNum _ => ∅
  end.

(* ===================================================================== *)
(** ** The messaging library: types *)
(* ===================================================================== *)

Inductive Source := host | iframe.

Definition Source_to_string (s : Source) : string :=
  match s with host => "host" | iframe => "iframe" end.

(** [interface MessagePayload], as built by [send] and [respond]. *)
Record MessagePayload := {
  id : string;
  type : string;
  action : string;
  data : JsVal;
  timestamp : Z;
  requiresResponse : option bool;
  responseId : option string;
  source : Source;
  targetOrigin : string
}.

(** The object a peer receives for a payload (structured clone). *)
Definition payload_to_js (p : MessagePayload) : JsVal :=
  let o : gmap string JsVal :=
    <["id" := JStr (id p)]>
    (<["type" := JStr (type p)]>
    (<["action" := JStr (action p)]>
    (<["data" := data p]>
    (<["timestamp" := JNum (timestamp p)]>
    (<["source" := JStr (Source_to_string (source p))]>
    (<["targetOrigin" := JStr (targetOrigin p)]> ∅)))))) in
  let o := match requiresResponse p with
           | Some b => <["requiresResponse" := JBool b]> o
           | None => o
           end in
  let o := match responseId p with
           | Some r => <["responseId" := JStr r]> o
           | None => o
           end in
  JObj o.

(** [interface PendingMessage]: [resolve] and [reject] are the two
    capabilities of one promise, [timeout] is a timer handle. *)
Record PendingMessage := {
  pm_promise : nat;
  pm_timeout : nat
}.

(** [interface MessagingConfig] as passed in, and [Required<...>] once the
    constructor has filled in the defaults. *)
Record MessagingConfig := {
  mc_targetOrigin : string;
  mc_timeout : option Z;
  mc_debug : option bool;
  mc_maxRetries : option Z
}.

Record RequiredMessagingConfig := {
  cfg_targetOrigin : string;
  cfg_timeout : Z;
  cfg_debug : bool;
  cfg_maxRetries : Z
}.

Inductive Window :=
| ParentWindow
| ContentWindow (frame : nat).

(** The functions registered with [on] / [onAction]: the closures created
    by this repository, and any others, named by the caller. *)
Inductive Handler :=
| ctx_state_request        (* ContextManager: () => this.context *)
| ctx_state_update         (* ContextManager: updateContext(payload.data) *)
| ctx_state_sync           (* ContextManager: syncContext(payload.data) *)
| host_navigate_to         (* HostIframeManager.setupIframeHandlers *)
| host_go_back
| host_modal_open
| host_modal_close
| host_state_update
| host_error
| app_focus                (* IframeApp.setupDefaultHandlers *)
| app_blur
| app_resize
| user_handler (name : string).

(** Function objects handed to [window.addEventListener]. [f.bind(o)]
    creates a new function object each time it is evaluated. *)
Inductive EventListener :=
| handleMessage_method                 (* IframeMessenger.prototype.handleMessage *)
| bound (fn : nat) (f : EventListener). (* the [fn]-th result of f.bind(this) *)

#[global] Instance EventListener_eq_dec : EqDecision EventListener.
Proof. solve_decision. Defined.

Record MessageEvent := {
  ev_origin : string;
  ev_data : JsVal
}.

(** What settled (or tried to settle) a promise created by
    [sendWithResponse]. *)
Inductive SettledBy :=
| ByReply            (* handleResponse: pendingMessage.resolve(payload.data) *)
| ByTimeout          (* the setTimeout callback: reject(...) *)
| ByDestroy          (* destroy: pending.reject(...) *)
| ByExecutorThrow.   (* an exception inside the promise executor *)

Inductive Outcome :=
| Resolved (v : JsVal)
| Rejected (message : string).

Record SettleCall := {
  sc_promise : nat;
  sc_by : SettledBy;
  sc_outcome : Outcome
}.

(** The closure passed to [setTimeout] by [sendWithResponse] captures
    [payload.id] and [reject]. *)
Record TimerClosure := {
  tc_id : string;
  tc_promise : nat
}.

Record Posted := {
  po_window : Window;
  po_payload : MessagePayload;
  po_targetOrigin : string
}.

Record HandlerCall := {
  hc_handler : Handler;
  hc_payload : JsVal
}.

(* ===================================================================== *)
(** ** The runtime a messenger lives in *)
(* ===================================================================== *)

Record Runtime := {
  dateNow : nat → Z;            (* the k-th call of Date.now() *)
  nowCalls : nat;
  mathRandom : nat → string;    (* the k-th Math.random().toString(36).substr(2, 9) *)
  randomCalls : nat;
  arrays : gmap nat (list JsVal);
  nextArray : nat;
  timers : gmap nat TimerClosure;   (* armed timers *)
  nextTimer : nat;
  nextPromise : nat;
  settleCalls : list SettleCall;    (* every call of a resolve / reject *)
  listeners : list EventListener;   (* 'message' listeners of window *)
  nextFn : nat;
  posted : list Posted;             (* calls of targetWindow.postMessage *)
  handlerCalls : list HandlerCall;  (* every invocation of a handler *)
  awaiting : gset nat;              (* invocations whose result is awaited *)
  console : list string
}.

Definition newRuntime (clock : nat → Z) (random : nat → string) : Runtime :=
  {| dateNow := clock; nowCalls := 0; mathRandom := random; randomCalls := 0;
     arrays := ∅; nextArray := 0; timers := ∅; nextTimer := 0;
     nextPromise := 0; settleCalls := []; listeners := []; nextFn := 0;
     posted := []; handlerCalls := []; awaiting := ∅; console := [] |}.

Module Rt.

Definition Date_now (rt : Runtime) : Z * Runtime :=
  (dateNow rt (nowCalls rt),
   {| dateNow := dateNow rt; nowCalls := S (nowCalls rt);
      mathRandom := mathRandom rt; randomCalls := randomCalls rt;
      arrays := arrays rt; nextArray := nextArray rt;
      timers := timers rt; nextTimer := nextTimer rt;
      nextPromise := nextPromise rt; settleCalls := settleCalls rt;
      listeners := listeners rt; nextFn := nextFn rt;
      posted := posted rt; handlerCalls := handlerCalls rt;
      awaiting := awaiting rt; console := console rt |}).

Definition Math_random (rt : Runtime) : string * Runtime :=
  (mathRandom rt (randomCalls rt),
   {| dateNow := dateNow rt; nowCalls := nowCalls rt;
      mathRandom := mathRandom rt; randomCalls := S (randomCalls rt);
      arrays := arrays rt; nextArray := nextArray rt;
      timers := timers rt; nextTimer := nextTimer rt;
      nextPromise := nextPromise rt; settleCalls := settleCalls rt;
      listeners := listeners rt; nextFn := nextFn rt;
      posted := posted rt; handlerCalls := handlerCalls rt;
      awaiting := awaiting rt; console := console rt |}).

Definition with_arrays (a : gmap nat (list JsVal)) (n : nat) (rt : Runtime)
  : Runtime :=
  {| dateNow := dateNow rt; nowCalls := nowCalls rt;
     mathRandom := mathRandom rt; randomCalls := randomCalls rt;
     arrays := a; nextArray := n;
     timers := timers rt; nextTimer := nextTimer rt;
     nextPromise := nextPromise rt; settleCalls := settleCalls rt;
     listeners := listeners rt; nextFn := nextFn rt;
     posted := posted rt; handlerCalls := handlerCalls rt;
     awaiting := awaiting rt; console := console rt |}.

Definition with_timers (t : gmap nat TimerClosure) (n : nat) (rt : Runtime)
  : Runtime :=
  {| dateNow := dateNow rt; nowCalls := nowCalls rt;
     mathRandom := mathRandom rt; randomCalls := randomCalls rt;
     arrays := arrays rt; nextArray := nextArray rt;
     timers := t; nextTimer := n;
     nextPromise := nextPromise rt; settleCalls := settleCalls rt;
     listeners := listeners rt; nextFn := nextFn rt;
     posted := posted rt; handlerCalls := handlerCalls rt;
     awaiting := awaiting rt; console := console rt |}.

Definition with_promises (n : nat) (calls : list SettleCall) (rt : Runtime)
  : Runtime :=
  {| dateNow := dateNow rt; nowCalls := nowCalls rt;
     mathRandom := mathRandom rt; randomCalls := randomCalls rt;
     arrays := arrays rt; nextArray := nextArray rt;
     timers := timers rt; nextTimer := nextTimer rt;
     nextPromise := n; settleCalls := calls;
     listeners := listeners rt; nextFn := nextFn rt;
     posted := posted rt; handlerCalls := handlerCalls rt;
     awaiting := awaiting rt; console := console rt |}.

Definition with_listeners (l : list EventListener) (n : nat) (rt : Runtime)
  : Runtime :=
  {| dateNow := dateNow rt; nowCalls := nowCalls rt;
     mathRandom := mathRandom rt; randomCalls := randomCalls rt;
     arrays := arrays rt; nextArray := nextArray rt;
     timers := timers rt; nextTimer := nextTimer rt;
     nextPromise := nextPromise rt; settleCalls := settleCalls rt;
     listeners := l; nextFn := n;
     posted := posted rt; handlerCalls := handlerCalls rt;
     awaiting := awaiting rt; console := console rt |}.

Definition with_posted (p : list Posted) (rt : Runtime) : Runtime :=
  {| dateNow := dateNow rt; nowCalls := nowCalls rt;
     mathRandom := mathRandom rt; randomCalls := randomCalls rt;
     arrays := arrays rt; nextArray := nextArray rt;
     timers := timers rt; nextTimer := nextTimer rt;
     nextPromise := nextPromise rt; settleCalls := settleCalls rt;
     listeners := listeners rt; nextFn := nextFn rt;
     posted := p; handlerCalls := handlerCalls rt;
     awaiting := awaiting rt; console := console rt |}.

Definition with_handlerCalls (c : list HandlerCall) (a : gset nat)
    (rt : Runtime) : Runtime :=
  {| dateNow := dateNow rt; nowCalls := nowCalls rt;
     mathRandom := mathRandom rt; randomCalls := randomCalls rt;
     arrays := arrays rt; nextArray := nextArray rt;
     timers := timers rt; nextTimer := nextTimer rt;
     nextPromise := nextPromise rt; settleCalls := settleCalls rt;
     listeners := listeners rt; nextFn := nextFn rt;
     posted := posted rt; handlerCalls := c;
     awaiting := a; console := console rt |}.

Definition with_console (c : list string) (rt : Runtime) : Runtime :=
  {| dateNow := dateNow rt; nowCalls := nowCalls rt;
     mathRandom := mathRandom rt; randomCalls := randomCalls rt;
     arrays := arrays rt; nextArray := nextArray rt;
     timers := timers rt; nextTimer := nextTimer rt;
     nextPromise := nextPromise rt; settleCalls := settleCalls rt;
     listeners := listeners rt; nextFn := nextFn rt;
     posted := posted rt; handlerCalls := handlerCalls rt;
     awaiting := awaiting rt; console := c |}.

(** [setTimeout(closure, delay)]: arms a new timer and returns its handle.
    The delay is not measured: an armed timer fires when the environment
    says so (event [TimerFires] below). *)
Definition setTimeout (c : TimerClosure) (rt : Runtime) : nat * Runtime :=
  (nextTimer rt, with_timers (<[nextTimer rt := c]> (timers rt))
                             (S (nextTimer rt)) rt).

Definition clearTimeout (t : nat) (rt : Runtime) : Runtime :=
  with_timers (delete t (timers rt)) (nextTimer rt) rt.

(** [new Promise(...)]: a fresh promise. *)
Definition newPromise (rt : Runtime) : nat * Runtime :=
  (nextPromise rt, with_promises (S (nextPromise rt)) (settleCalls rt) rt).

(** A call of the [resolve] or [reject] function of promise [p]. *)
Definition settle (p : nat) (by_ : SettledBy) (o : Outcome) (rt : Runtime)
  : Runtime :=
  with_promises (nextPromise rt)
    (settleCalls rt ++ [{| sc_promise := p; sc_by := by_; sc_outcome := o |}])
    rt.

(** [window.addEventListener('message', l)] and its inverse: a listener
    is identified by its function object. *)
Definition addEventListener (l : EventListener) (rt : Runtime) : Runtime :=
  if decide (l ∈ listeners rt) then rt
  else with_listeners (listeners rt ++ [l]) (nextFn rt) rt.

Definition removeEventListener (l : EventListener) (rt : Runtime) : Runtime :=
  with_listeners (filter (λ l', l' ≠ l) (listeners rt)) (nextFn rt) rt.

(** [f.bind(this)] *)
Definition bind (f : EventListener) (rt : Runtime) : EventListener * Runtime :=
  (bound (nextFn rt) f, with_listeners (listeners rt) (S (nextFn rt)) rt).

End Rt.

(** The calls made on promise [p], in order.  A promise is settled by the
    first of them; later calls have no effect on it. *)
Definition callsOf (p : nat) (l : list SettleCall) : list SettleCall :=
  filter (λ c, sc_promise c = p) l.

Definition callsOn (p : nat) (r : Runtime) : list SettleCall :=
  callsOf p (settleCalls r).

Definition settledBy (p : nat) (r : Runtime) : option SettledBy :=
  sc_by <$> head (callsOn p r).

(** The result of a call that may throw. *)
Inductive Result (A : Type) :=
| Returned (a : A)
| Threw (message : string).
Arguments Returned {A} a.
Arguments Threw {A} message.

(* ===================================================================== *)
(** ** class IframeMessenger *)
(* ===================================================================== *)

Record IframeMessenger := {
  pendingMessages : gmap string PendingMessage;
  messageHandlers : gmap string Handler;
  config : RequiredMessagingConfig;
  isHost : bool;
  targetWindow : option Window;
  rt : Runtime
}.

(** What [send] hands back: the promise of an [async] function that has
    already resolved to [undefined], that follows the promise made by
    [sendWithResponse], or that is rejected with the exception thrown. *)
Inductive SendResult :=
| Sent
| Future (p : nat)
| SendThrew (message : string).

Module Messenger.

Definition with_rt (r : Runtime) (m : IframeMessenger) : IframeMessenger :=
  {| pendingMessages := pendingMessages m; messageHandlers := messageHandlers m;
     config := config m; isHost := isHost m; targetWindow := targetWindow m;
     rt := r |}.

Definition with_pendingMessages (p : gmap string PendingMessage)
    (m : IframeMessenger) : IframeMessenger :=
  {| pendingMessages := p; messageHandlers := messageHandlers m;
     config := config m; isHost := isHost m; targetWindow := targetWindow m;
     rt := rt m |}.

Definition with_messageHandlers (h : gmap string Handler)
    (m : IframeMessenger) : IframeMessenger :=
  {| pendingMessages := pendingMessages m; messageHandlers := h;
     config := config m; isHost := isHost m; targetWindow := targetWindow m;
     rt := rt m |}.

Definition with_targetWindow (w : option Window) (m : IframeMessenger)
  : IframeMessenger :=
  {| pendingMessages := pendingMessages m; messageHandlers := messageHandlers m;
     config := config m; isHost := isHost m; targetWindow := w;
     rt := rt m |}.

(** [private log(...args)]: only the label is recorded. *)
Definition log (label : string) (m : IframeMessenger) : IframeMessenger :=
  if cfg_debug (config m)
  then with_rt (Rt.with_console (console (rt m) ++ [label]) (rt m)) m
  else m.

(** [private generateId()] *)
Definition generateId (m : IframeMessenger) : string * IframeMessenger :=
  let '(now, r) := Rt.Date_now (rt m) in
  let '(rnd, r) := Rt.Math_random r in
  (pretty now +:+ "-" +:+ rnd, with_rt r m).

Definition thisSource (m : IframeMessenger) : Source :=
  if isHost m then host else iframe.

(** [private postMessage(payload)] *)
Definition postMessage (payload : MessagePayload) (m : IframeMessenger)
  : IframeMessenger * Result unit :=
  match targetWindow m with
  | None => (m, Threw "Target window not available")
  | Some w =>
      (with_rt (Rt.with_posted
                  (posted (rt m) ++
                     [{| po_window := w; po_payload := payload;
                         po_targetOrigin := cfg_targetOrigin (config m) |}])
                  (rt m)) m,
       Returned ())
  end.

(** [private async sendWithResponse(payload)]: the promise executor runs
    at once; an exception thrown by it rejects the promise. *)
Definition sendWithResponse (payload : MessagePayload) (m : IframeMessenger)
  : IframeMessenger * nat :=
  let '(p, r) := Rt.newPromise (rt m) in
  let '(t, r) := Rt.setTimeout {| tc_id := id payload; tc_promise := p |} r in
  let m := with_rt r m in
  let m := with_pendingMessages
             (<[id payload := {| pm_promise := p; pm_timeout := t |}]>
                (pendingMessages m)) m in
  match postMessage payload m with
  | (m, Returned _) => (m, p)
  | (m, Threw e) =>
      (with_rt (Rt.settle p ByExecutorThrow (Rejected e) (rt m)) m, p)
  end.

(** [async send(type, action, data?, requiresResponse = false)] *)
Definition send (type_ action_ : string) (data_ : JsVal)
    (requiresResponse_ : bool) (m : IframeMessenger)
  : IframeMessenger * SendResult :=
  let '(messageId, m) := generateId m in
  let '(now, r) := Rt.Date_now (rt m) in
  let m := with_rt r m in
  let payload :=
    {| id := messageId; type := type_; action := action_; data := data_;
       timestamp := now; requiresResponse := Some requiresResponse_;
       responseId := None; source := thisSource m;
       targetOrigin := cfg_targetOrigin (config m) |} in
  let m := log "Sending message:" m in
  if requiresResponse_ then
    let '(m, p) := sendWithResponse payload m in (m, Future p)
  else
    match postMessage payload m with
    | (m, Returned _) => (m, Sent)
    | (m, Threw e) => (m, SendThrew e)
    end.

(** [respond(originalMessageId, data?)] *)
Definition respond (originalMessageId : string) (data_ : JsVal)
    (m : IframeMessenger) : IframeMessenger * Result unit :=
  let '(messageId, m) := generateId m in
  let '(now, r) := Rt.Date_now (rt m) in
  let m := with_rt r m in
  let responsePayload :=
    {| id := messageId; type := "response"; action := "message_response";
       data := data_; timestamp := now; requiresResponse := None;
       responseId := Some originalMessageId; source := thisSource m;
       targetOrigin := cfg_targetOrigin (config m) |} in
  let m := log "Sending response:" m in
  postMessage responsePayload m.

(** [on(type, handler)] *)
Definition on (type_ : string) (handler : Handler) (m : IframeMessenger)
  : IframeMessenger :=
  with_messageHandlers (<[type_ := handler]> (messageHandlers m)) m.

(** [onAction(type, action, handler)] *)
Definition onAction (type_ action_ : string) (handler : Handler)
    (m : IframeMessenger) : IframeMessenger :=
  with_messageHandlers
    (<[type_ +:+ ":" +:+ action_ := handler]> (messageHandlers m)) m.

(** [off(type, action?)]: the key is [action ? `${type}:${action}` : type],
    and the empty string is falsy. *)
Definition off (type_ : string) (action_ : option string)
    (m : IframeMessenger) : IframeMessenger :=
  let key := match action_ with
             | Some a => if String.eqb a "" then type_ else type_ +:+ ":" +:+ a
             | None => type_
             end in
  with_messageHandlers (delete key (messageHandlers m)) m.

(** [setTargetWindow(iframe)], given [iframe.contentWindow] *)
Definition setTargetWindow (contentWindow : option Window)
    (m : IframeMessenger) : IframeMessenger :=
  match contentWindow with
  | Some w => if isHost m then with_targetWindow (Some w) m else m
  | None => m
  end.

(** [v.k] on a receiver known not to be [undefined] or [null]. *)
Definition prop (v : JsVal) (k : string) : JsVal :=
  default JUndefined (get v k).

(** The string held by a property that [isValidPayload] has checked to be
    a string. *)
Definition string_of (v : JsVal) : string :=
  match v with JStr s => s | _ => "" end.

(** [private isValidPayload(payload)] *)
Definition isValidPayload (payload : JsVal) : bool :=
  truthy payload &&
  typeof_string (prop payload "id") &&
  typeof_string (prop payload "type") &&
  typeof_string (prop payload "action") &&
  typeof_number (prop payload "timestamp") &&
  (strict_eq_string (prop payload "source") "host" ||
   strict_eq_string (prop payload "source") "iframe").

(** [private handleResponse(payload)].  The pending table is keyed by
    strings, so a [responseId] that is not a string finds nothing. *)
Definition handleResponse (payload : JsVal) (m : IframeMessenger)
  : IframeMessenger :=
  match prop payload "responseId" with
  | JStr r =>
      match pendingMessages m !! r with
      | Some pendingMessage =>
          let m := with_rt (Rt.clearTimeout (pm_timeout pendingMessage) (rt m)) m in
          let m := with_pendingMessages (delete r (pendingMessages m)) m in
          with_rt (Rt.settle (pm_promise pendingMessage) ByReply
                     (Resolved (prop payload "data")) (rt m)) m
      | None => m
      end
  | _ => m
  end.

(** [await handler(payload)]: the handler is called, and the rest of
    [handleIncomingMessage] waits for its result ([handlerReturns]). *)
Definition invoke (h : Handler) (payload : JsVal) (m : IframeMessenger)
  : IframeMessenger :=
  let r := rt m in
  with_rt (Rt.with_handlerCalls
             (handlerCalls r ++ [{| hc_handler := h; hc_payload := payload |}])
             ({[ length (handlerCalls r) ]} ∪ awaiting r) r) m.

(** [private async handleIncomingMessage(payload)], up to its first
    [await].  An exception of [respond] rejects the promise of this
    [async] function, which nobody observes. *)
Definition handleIncomingMessage (payload : JsVal) (m : IframeMessenger)
  : IframeMessenger :=
  let type_ := string_of (prop payload "type") in
  let action_ := string_of (prop payload "action") in
  match messageHandlers m !! (type_ +:+ ":" +:+ action_) with
  | Some actionHandler => invoke actionHandler payload m
  | None =>
      match messageHandlers m !! type_ with
      | Some typeHandler => invoke typeHandler payload m
      | None =>
          let m := log "No handler found for message:" m in
          if truthy (prop payload "requiresResponse") then
            fst (respond (string_of (prop payload "id"))
                   (JObj {[ "error" := JStr "No handler found" ]}) m)
          else m
      end
  end.

(** [handleIncomingMessage] after the [await] of invocation [k]:
    [result] is the value the handler (or the promise it returned)
    produced, or the exception it raised. *)
Definition handlerReturns (k : nat) (result : Result JsVal)
    (m : IframeMessenger) : IframeMessenger :=
  if decide (k ∈ awaiting (rt m)) then
    match handlerCalls (rt m) !! k with
    | Some c =>
        let m := with_rt (Rt.with_handlerCalls (handlerCalls (rt m))
                            (awaiting (rt m) ∖ {[k]}) (rt m)) m in
        match result with
        | Returned v =>
            if truthy (prop (hc_payload c) "requiresResponse") then
              fst (respond (string_of (prop (hc_payload c) "id")) v m)
            else m
        | Threw _ => m
        end
    | None => m
    end
  else m.

(** [private handleMessage(event)] *)
Definition handleMessage (event : MessageEvent) (m : IframeMessenger)
  : IframeMessenger :=
  if negb (String.eqb (ev_origin event) (cfg_targetOrigin (config m))) then
    log "Message from unauthorized origin:" m
  else
    let payload := ev_data event in
    if negb (isValidPayload payload) then
      log "Invalid message payload:" m
    else
      let m := log "Received message:" m in
      if strict_eq_string (prop payload "type") "response"
         && truthy (prop payload "responseId")
      then handleResponse payload m
      else handleIncomingMessage payload m.

(** [private init()] *)
Definition init (m : IframeMessenger) : IframeMessenger :=
  let '(f, r) := Rt.bind handleMessage_method (rt m) in
  let m := with_rt (Rt.addEventListener f r) m in
  if negb (isHost m) then with_targetWindow (Some ParentWindow) m else m.

(** [constructor(config, isHost = false)] in runtime [r] *)
Definition new (r : Runtime) (cfg : MessagingConfig) (isHost_ : bool)
  : IframeMessenger :=
  init {| pendingMessages := ∅; messageHandlers := ∅;
          config := {| cfg_targetOrigin := mc_targetOrigin cfg;
                       cfg_timeout := default 5000%Z (mc_timeout cfg);
                       cfg_debug := default false (mc_debug cfg);
                       cfg_maxRetries := default 3%Z (mc_maxRetries cfg) |};
          isHost := isHost_; targetWindow := None; rt := r |}.

(** One iteration of the [forEach] of [destroy]. *)
Definition rejectPending (r : Runtime) (entry : string * PendingMessage)
  : Runtime :=
  Rt.settle (pm_promise entry.2) ByDestroy (Rejected "Messenger destroyed")
    (Rt.clearTimeout (pm_timeout entry.2) r).

(** [destroy()].  The rejections of one call are recorded in the order of
    [map_to_list] rather than in insertion order. *)
Definition destroy (m : IframeMessenger) : IframeMessenger :=
  let m := with_rt (Rt.removeEventListener handleMessage_method (rt m)) m in
  let m := with_rt (foldl rejectPending (rt m)
                      (map_to_list (pendingMessages m))) m in
  let m := with_pendingMessages ∅ m in
  with_messageHandlers ∅ m.

(** The callback given to [setTimeout] by [sendWithResponse], run when
    timer [t] fires. *)
Definition timerFires (t : nat) (m : IframeMessenger) : IframeMessenger :=
  match timers (rt m) !! t with
  | Some c =>
      let m := with_rt (Rt.clearTimeout t (rt m)) m in
      let m := with_pendingMessages (delete (tc_id c) (pendingMessages m)) m in
      with_rt (Rt.settle (tc_promise c) ByTimeout
                 (Rejected ("Message timeout after "
                              +:+ pretty (cfg_timeout (config m)) +:+ "ms"))
                 (rt m)) m
  | None => m
  end.

(** Calling a registered listener with a message event.  A bound function
    runs [handleMessage] on the messenger it was bound to; the unbound
    method would run with [this] undefined and throw before doing
    anything. *)
Fixpoint listenerRuns (l : EventListener) : bool :=
  match l with
  | handleMessage_method => false
  | bound _ handleMessage_method => true
  | bound _ f => listenerRuns f
  end.

Definition callListener (event : MessageEvent) (m : IframeMessenger)
    (l : EventListener) : IframeMessenger :=
  if listenerRuns l then handleMessage event m else m.

(** The window dispatches a message event to the listeners registered at
    that moment. *)
Definition windowMessage (event : MessageEvent) (m : IframeMessenger)
  : IframeMessenger :=
  foldl (callListener event) m (listeners (rt m)).

End Messenger.

(** *** A messenger and its surroundings as a transition system *)

Inductive Event :=
| CallSend (type_ action_ : string) (data_ : JsVal) (requiresResponse_ : bool)
| CallRespond (originalMessageId : string) (data_ : JsVal)
| CallOn (type_ : string) (handler : Handler)
| CallOnAction (type_ action_ : string) (handler : Handler)
| CallOff (type_ : string) (action_ : option string)
| CallSetTargetWindow (contentWindow : option Window)
| CallDestroy
| WindowMessage (event : MessageEvent)
| TimerFires (t : nat)
| HandlerReturns (k : nat) (result : Result JsVal).

Definition step (m : IframeMessenger) (e : Event) : IframeMessenger :=
  match e with
  | CallSend t a d r => fst (Messenger.send t a d r m)
  | CallRespond i d => fst (Messenger.respond i d m)
  | CallOn t h => Messenger.on t h m
  | CallOnAction t a h => Messenger.onAction t a h m
  | CallOff t a => Messenger.off t a m
  | CallSetTargetWindow w => Messenger.setTargetWindow w m
  | CallDestroy => Messenger.destroy m
  | WindowMessage ev => Messenger.windowMessage ev m
  | TimerFires t => Messenger.timerFires t m
  | HandlerReturns k r => Messenger.handlerReturns k r m
  end.

Definition run (m : IframeMessenger) (es : list Event) : IframeMessenger :=
  foldl step m es.

(* ===================================================================== *)
(** ** class ContextManager *)
(* ===================================================================== *)

(** [IframeContext] objects are maps from property names to values; the
    instance reaches its messenger through the field [messenger]. *)
Record ContextManager := {
  context : gmap string JsVal;
  messenger : IframeMessenger;
  contextHistory : list (gmap string JsVal)
}.

(** [private maxHistorySize = 10] *)
Definition maxHistorySize : nat := 10.

(** What [syncContext] is doing when it returns control: finished, or
    waiting for the promise of its [state/request]. *)
Inductive SyncResult :=
| SyncDone
| SyncAwaits (p : nat).

Module Context.

Definition with_context (c : gmap string JsVal) (cm : ContextManager)
  : ContextManager :=
  {| context := c; messenger := messenger cm;
     contextHistory := contextHistory cm |}.

Definition with_messenger (m : IframeMessenger) (cm : ContextManager)
  : ContextManager :=
  {| context := context cm; messenger := m;
     contextHistory := contextHistory cm |}.

Definition with_contextHistory (h : list (gmap string JsVal))
    (cm : ContextManager) : ContextManager :=
  {| context := context cm; messenger := messenger cm;
     contextHistory := h |}.

Definition heap (cm : ContextManager) : gmap nat (list JsVal) :=
  arrays (rt (messenger cm)).

(** [Date.now()] *)
Definition now (cm : ContextManager) : Z * ContextManager :=
  let '(t, r) := Rt.Date_now (rt (messenger cm)) in
  (t, with_messenger (Messenger.with_rt r (messenger cm)) cm).

(** [private addToHistory()]: [{ ...this.context }] is a copy of the
    top level of the context; [shift()] drops the first element. *)
Definition addToHistory (cm : ContextManager) : ContextManager :=
  let h := contextHistory cm ++ [context cm] in
  with_contextHistory
    (if (maxHistorySize <? length h)%nat then drop 1 h else h) cm.

(** [{ ...this.context, ...updates, updatedAt: Date.now() }] *)
Definition merged (updates : JsVal) (t : Z) (cm : ContextManager)
  : gmap string JsVal :=
  <["updatedAt" := JNum t]> (spread (heap cm) updates ∪ context cm).

(** [async updateContext(updates, notify = true)] *)
Definition updateContext (updates : JsVal) (notify : bool)
    (cm : ContextManager) : ContextManager * Result unit :=
  let cm := addToHistory cm in
  let '(t, cm) := now cm in
  let cm := with_context (merged updates t cm) cm in
  if notify then
    match Messenger.send "state" "update" updates false (messenger cm) with
    | (m, SendThrew e) => (with_messenger m cm, Threw e)
    | (m, _) => (with_messenger m cm, Returned ())
    end
  else (cm, Returned ()).

(** [async syncContext(remoteContext?)], up to its [await]. *)
Definition syncContext (remoteContext : JsVal) (cm : ContextManager)
  : ContextManager * SyncResult :=
  if truthy remoteContext then
    let '(t, cm) := now cm in
    (with_context (merged remoteContext t cm) cm, SyncDone)
  else
    match Messenger.send "state" "request" JUndefined true (messenger cm) with
    | (m, Future p) => (with_messenger m cm, SyncAwaits p)
    | (m, _) => (with_messenger m cm, SyncDone)
    end.

(** [syncContext] after its [await]: the promise was resolved with a
    value, or rejected and the exception caught. *)
Definition syncContextSettled (o : Outcome) (cm : ContextManager)
  : ContextManager :=
  match o with
  | Resolved remoteContext =>
      if truthy remoteContext then
        let '(t, cm) := now cm in
        with_context (merged remoteContext t cm) cm
      else cm
  | Rejected _ =>
      let m := messenger cm in
      with_messenger
        (Messenger.with_rt
           (Rt.with_console (console (rt m) ++ ["Failed to sync context:"])
              (rt m)) m) cm
  end.

(** [this.context.navigation] *)
Definition navigation (cm : ContextManager) : JsVal :=
  default JUndefined (context cm !! "navigation").

(** [async updateNavigation(navigation)] *)
Definition updateNavigation (navigation_ : JsVal) (cm : ContextManager)
  : ContextManager * Result unit :=
  let updatedNavigation :=
    JObj (spread (heap cm) navigation_ ∪ spread (heap cm) (navigation cm)) in
  updateContext (JObj {[ "navigation" := updatedNavigation ]}) true cm.

Definition TypeError : string := "TypeError".

(** [async navigate(route, params?, state?)] *)
Definition navigate (route params state : JsVal) (cm : ContextManager)
  : ContextManager * Result unit :=
  match get (navigation cm) "currentRoute" with
  | None => (cm, Threw TypeError)
  | Some previousRoute =>
      match updateNavigation
              (JObj (<["previousRoute" := previousRoute]>
                    (<["currentRoute" := route]>
                    (<["params" := params]>
                    (<["state" := state]> ∅))))) cm with
      | (cm, Threw e) => (cm, Threw e)
      | (cm, Returned _) =>
          match Messenger.send "navigation" "navigate_to"
                  (JObj (<["route" := route]>
                        (<["params" := params]>
                        (<["state" := state]>
                        (<["previousRoute" := previousRoute]> ∅)))))
                  false (messenger cm) with
          | (m, SendThrew e) => (with_messenger m cm, Threw e)
          | (m, _) => (with_messenger m cm, Returned ())
          end
      end
  end.

(** [async goBack()] *)
Definition goBack (cm : ContextManager) : ContextManager * Result unit :=
  match get (navigation cm) "previousRoute" with
  | None => (cm, Threw TypeError)
  | Some v =>
      let previousRoute := if truthy v then v else JStr "/" in
      match navigate previousRoute JUndefined JUndefined cm with
      | (cm, Threw e) => (cm, Threw e)
      | (cm, Returned _) =>
          match Messenger.send "navigation" "go_back"
                  (JObj {[ "route" := previousRoute ]}) false
                  (messenger cm) with
          | (m, SendThrew e) => (with_messenger m cm, Threw e)
          | (m, _) => (with_messenger m cm, Returned ())
          end
      end
  end.

(** [breadcrumbs.findIndex(b => b.path === path)]: [Returned None] is
    [-1]; reading [path] off [undefined] or [null] throws. *)
Fixpoint findIndex_path (path : string) (l : list JsVal)
  : Result (option nat) :=
  match l with
  | [] => Returned None
  | b :: l' =>
      match get b "path" with
      | None => Threw TypeError
      | Some v =>
          if strict_eq_string v path then Returned (Some 0)
          else match findIndex_path path l' with
               | Returned (Some i) => Returned (Some (S i))
               | r => r
               end
      end
  end.

Definition with_heap (a : gmap nat (list JsVal)) (n : nat)
    (cm : ContextManager) : ContextManager :=
  let m := messenger cm in
  with_messenger (Messenger.with_rt (Rt.with_arrays a n (rt m)) m) cm.

(** [async addBreadcrumb(label, path, params?)].  The array held by the
    context is changed in place, before [updateNavigation] runs. *)
Definition addBreadcrumb (label path : string) (params : JsVal)
    (cm : ContextManager) : ContextManager * Result unit :=
  match get (navigation cm) "breadcrumbs" with
  | None => (cm, Threw TypeError)
  | Some b =>
      let '(breadcrumbs, cm) :=
        if truthy b then (b, cm)
        else let r := nextArray (rt (messenger cm)) in
             (JArr r, with_heap (<[r := []]> (heap cm)) (S r) cm) in
      match breadcrumbs with
      | JArr r =>
          let elements := default [] (heap cm !! r) in
          match findIndex_path path elements with
          | Threw e => (cm, Threw e)
          | Returned existingIndex =>
              let elements' :=
                match existingIndex with
                | Some i => take (i + 1) elements
                | None =>
                    elements ++
                      [JObj (<["label" := JStr label]>
                            (<["path" := JStr path]>
                            (<["params" := params]> ∅)))]
                end in
              let cm := with_heap (<[r := elements']> (heap cm))
                          (nextArray (rt (messenger cm))) cm in
              updateNavigation (JObj {[ "breadcrumbs" := JArr r ]}) cm
          end
      | _ => (cm, Threw TypeError)
      end
  end.

(** [getContext()] and [getHistory()] *)
Definition getContext (cm : ContextManager) : gmap string JsVal := context cm.
Definition getHistory (cm : ContextManager) : list (gmap string JsVal) :=
  contextHistory cm.

(** [async restoreFromHistory(index)] *)
Definition restoreFromHistory (index : Z) (cm : ContextManager)
  : ContextManager * Result bool :=
  if ((0 <=? index)%Z && (index <? Z.of_nat (length (contextHistory cm)))%Z)
  then
    match contextHistory cm !! Z.to_nat index with
    | Some historicContext =>
        match updateContext (JObj historicContext) true cm with
        | (cm, Threw e) => (cm, Threw e)
        | (cm, Returned _) => (cm, Returned true)
        end
    | None => (cm, Returned false)
    end
  else (cm, Returned false).

(** [private generateContextId()] *)
Definition generateContextId (m : IframeMessenger) : string * IframeMessenger :=
  let '(t, r) := Rt.Date_now (rt m) in
  let '(rnd, r) := Rt.Math_random r in
  ("ctx_" +:+ pretty t +:+ "_" +:+ rnd, Messenger.with_rt r m).

(** [private setupMessageHandlers()] *)
Definition setupMessageHandlers (cm : ContextManager) : ContextManager :=
  let m := messenger cm in
  let m := Messenger.onAction "state" "request" ctx_state_request m in
  let m := Messenger.onAction "state" "update" ctx_state_update m in
  let m := Messenger.onAction "state" "sync" ctx_state_sync m in
  with_messenger m cm.

(** [constructor(messenger, initialContext?)] *)
Definition new (m : IframeMessenger) (initialContext : JsVal)
  : ContextManager :=
  let '(cid, m) := generateContextId m in
  let '(createdAt, r) := Rt.Date_now (rt m) in
  let '(updatedAt, r) := Rt.Date_now r in
  let m := Messenger.with_rt r m in
  let defaults : gmap string JsVal :=
    <["id" := JStr cid]>
    (<["route" := JStr "/"]>
    (<["navigation" := JObj {[ "currentRoute" := JStr "/" ]}]>
    (<["app" := JObj {[ "environment" := JStr "development" ]}]>
    (<["createdAt" := JNum createdAt]>
    (<["updatedAt" := JNum updatedAt]> ∅))))) in
  setupMessageHandlers
    {| context := spread (arrays (rt m)) initialContext ∪ defaults;
       messenger := m; contextHistory := [] |}.

(** The bodies of the handlers registered by [setupMessageHandlers], run
    on the payload of an invocation.  The result is what the handler
    returns; [None] for a handler that is not one of these. *)
Definition runHandler (c : HandlerCall) (cm : ContextManager)
  : ContextManager * option (Result JsVal) :=
  match hc_handler c with
  | ctx_state_request => (cm, Some (Returned (JObj (context cm))))
  | ctx_state_update =>
      (fst (updateContext (Messenger.prop (hc_payload c) "data") true cm),
       Some (Returned JUndefined))
  | ctx_state_sync =>
      (fst (syncContext (Messenger.prop (hc_payload c) "data") cm),
       Some (Returned JUndefined))
  | _ => (cm, None)
  end.

(** A message event reaches the messenger of this context manager: each
    listener runs, a handler it invokes runs its body at once, and the
    suspended [handleIncomingMessage] calls resume afterwards. *)
Definition deliver (event : MessageEvent)
    (acc : ContextManager * list (nat * Result JsVal)) (l : EventListener)
  : ContextManager * list (nat * Result JsVal) :=
  let '(cm, results) := acc in
  let k := length (handlerCalls (rt (messenger cm))) in
  let cm := with_messenger (Messenger.callListener event (messenger cm) l) cm in
  match handlerCalls (rt (messenger cm)) !! k with
  | Some c =>
      match runHandler c cm with
      | (cm, Some result) => (cm, results ++ [(k, result)])
      | (cm, None) => (cm, results)
      end
  | None => (cm, results)
  end.

Definition resume (cm : ContextManager) (kr : nat * Result JsVal)
  : ContextManager :=
  with_messenger (Messenger.handlerReturns kr.1 kr.2 (messenger cm)) cm.

Definition windowMessage (event : MessageEvent) (cm : ContextManager)
  : ContextManager :=
  let '(cm, results) :=
    foldl (deliver event) (cm, []) (listeners (rt (messenger cm))) in
  foldl resume cm results.

End Context.

(* ===================================================================== *)
(** ** class NavigationHelper and class IframeApp (guest side) *)
(* ===================================================================== *)

(** A [NavigationHelper] holds the context manager and, through it, the
    messenger it was built with. *)
Module NavigationHelper.

(** [async navigateExternal(url, target = '_self')] *)
Definition navigateExternal (url target : JsVal) (cm : ContextManager)
  : ContextManager * SendResult :=
  let '(m, r) :=
    Messenger.send "navigation" "navigate_to"
      (JObj (<["url" := url]> (<["target" := target]>
            (<["external" := JBool true]> ∅))))
      false (messenger cm) in
  (Context.with_messenger m cm, r).

(** [async openModal(route, data?)] *)
Definition openModal (route data_ : JsVal) (cm : ContextManager)
  : ContextManager * SendResult :=
  let '(m, r) :=
    Messenger.send "ui" "modal_open"
      (JObj (<["route" := route]> (<["data" := data_]> ∅)))
      true (messenger cm) in
  (Context.with_messenger m cm, r).

(** [async closeModal(result?)] *)
Definition closeModal (result : JsVal) (cm : ContextManager)
  : ContextManager * SendResult :=
  let '(m, r) := Messenger.send "ui" "modal_close" result false (messenger cm) in
  (Context.with_messenger m cm, r).

(** [async navigateWithContext(route, preserveContext = true)] *)
Definition navigateWithContext (route : JsVal) (preserveContext : bool)
    (cm : ContextManager) : ContextManager * Result unit :=
  if preserveContext then
    let currentContext := Context.getContext cm in
    Context.navigate route (JObj ∅)
      (JObj {[ "preservedContext" := JObj currentContext ]}) cm
  else Context.navigate route JUndefined JUndefined cm.

End NavigationHelper.

Record IframeAppConfig := {
  hostOrigin : string;
  app_debug : option bool;
  autoSync : option bool;
  syncInterval : option Z
}.

Record IframeApp := {
  app_contextManager : ContextManager;
  app_config : IframeAppConfig;
  isInitialized : bool
}.

Module App.

(** [private setupDefaultHandlers()] *)
Definition setupDefaultHandlers (m : IframeMessenger) : IframeMessenger :=
  let m := Messenger.onAction "ui" "focus" app_focus m in
  let m := Messenger.onAction "ui" "blur" app_blur m in
  Messenger.onAction "ui" "resize" app_resize m.

(** [constructor(config)] in runtime [r] *)
Definition new (r : Runtime) (cfg : IframeAppConfig) : IframeApp :=
  let m := Messenger.new r
             {| mc_targetOrigin := hostOrigin cfg; mc_timeout := None;
                mc_debug := Some (default false (app_debug cfg));
                mc_maxRetries := None |} false in
  let cm := Context.new m JUndefined in
  {| app_contextManager :=
       Context.with_messenger (setupDefaultHandlers (messenger cm)) cm;
     app_config := cfg; isInitialized := false |}.

Definition with_contextManager (cm : ContextManager) (a : IframeApp)
  : IframeApp :=
  {| app_contextManager := cm; app_config := app_config a;
     isInitialized := isInitialized a |}.

(** A message event reaches the guest's window. *)
Definition windowMessage (event : MessageEvent) (a : IframeApp) : IframeApp :=
  with_contextManager (Context.windowMessage event (app_contextManager a)) a.

(** [destroy()] *)
Definition destroy (a : IframeApp) : IframeApp :=
  let cm := app_contextManager a in
  with_contextManager
    (Context.with_messenger (Messenger.destroy (messenger cm)) cm) a.

End App.

(* ===================================================================== *)
(** ** class HostIframeManager *)
(* ===================================================================== *)

(** [interface ManagedIframe].  The fields [messenger], [contextManager]
    and [navigationHelper] share one messenger, reached here through
    [contextManager]; [modalResolve] is the property the modal handlers
    attach to the object. *)
Record ManagedIframe := {
  mi_id : string;
  contextManager : ContextManager;
  isLoaded : bool;
  modalResolve : option nat
}.

(** [interface IframeConfig], with [new URL(config.src)] already taken
    apart. *)
Record IframeConfig := {
  ic_id : string;
  ic_src_origin : string;
  ic_src_pathname : string
}.

Inductive ModalAction := modal_open | modal_close.

(** What the host's handlers do to the page and to the callbacks set with
    [onNavigation] and [onModal]. *)
Inductive HostEffect :=
| NavigationCallback (frame : nat) (route data_ : JsVal)
| ModalCallback (frame : nat) (a : ModalAction) (data_ : JsVal)
| WindowOpen (url : JsVal)
| LocationHref (url : JsVal)
| ConsoleError (frame : nat) (data_ : JsVal).

Record HostIframeManager := {
  iframes : gmap string nat;          (* Map<string, ManagedIframe> *)
  modalStack : list string;
  onNavigationCallback : bool;        (* is a callback set? *)
  onModalCallback : bool;
  frames : list ManagedIframe;        (* the ManagedIframe objects *)
  nextModalPromise : nat;
  modalResolved : list (nat * JsVal); (* calls of a stored resolve *)
  modalAwaited : gmap nat (nat * nat);(* promise awaited by invocation k
                                         of frame f *)
  effects : list HostEffect
}.

Module Host.

Definition new : HostIframeManager :=
  {| iframes := ∅; modalStack := []; onNavigationCallback := false;
     onModalCallback := false; frames := []; nextModalPromise := 0;
     modalResolved := []; modalAwaited := ∅; effects := [] |}.

Definition with_iframes (i : gmap string nat) (h : HostIframeManager)
  : HostIframeManager :=
  {| iframes := i; modalStack := modalStack h;
     onNavigationCallback := onNavigationCallback h;
     onModalCallback := onModalCallback h; frames := frames h;
     nextModalPromise := nextModalPromise h;
     modalResolved := modalResolved h; modalAwaited := modalAwaited h;
     effects := effects h |}.

Definition with_modalStack (s : list string) (h : HostIframeManager)
  : HostIframeManager :=
  {| iframes := iframes h; modalStack := s;
     onNavigationCallback := onNavigationCallback h;
     onModalCallback := onModalCallback h; frames := frames h;
     nextModalPromise := nextModalPromise h;
     modalResolved := modalResolved h; modalAwaited := modalAwaited h;
     effects := effects h |}.

Definition with_callbacks (n m : bool) (h : HostIframeManager)
  : HostIframeManager :=
  {| iframes := iframes h; modalStack := modalStack h;
     onNavigationCallback := n; onModalCallback := m; frames := frames h;
     nextModalPromise := nextModalPromise h;
     modalResolved := modalResolved h; modalAwaited := modalAwaited h;
     effects := effects h |}.

Definition with_frames (f : list ManagedIframe) (h : HostIframeManager)
  : HostIframeManager :=
  {| iframes := iframes h; modalStack := modalStack h;
     onNavigationCallback := onNavigationCallback h;
     onModalCallback := onModalCallback h; frames := f;
     nextModalPromise := nextModalPromise h;
     modalResolved := modalResolved h; modalAwaited := modalAwaited h;
     effects := effects h |}.

Definition with_modalPromises (n : nat) (r : list (nat * JsVal))
    (h : HostIframeManager) : HostIframeManager :=
  {| iframes := iframes h; modalStack := modalStack h;
     onNavigationCallback := onNavigationCallback h;
     onModalCallback := onModalCallback h; frames := frames h;
     nextModalPromise := n; modalResolved := r;
     modalAwaited := modalAwaited h; effects := effects h |}.

Definition with_modalAwaited (a : gmap nat (nat * nat))
    (h : HostIframeManager) : HostIframeManager :=
  {| iframes := iframes h; modalStack := modalStack h;
     onNavigationCallback := onNavigationCallback h;
     onModalCallback := onModalCallback h; frames := frames h;
     nextModalPromise := nextModalPromise h;
     modalResolved := modalResolved h; modalAwaited := a;
     effects := effects h |}.

Definition effect (e : HostEffect) (h : HostIframeManager)
  : HostIframeManager :=
  {| iframes := iframes h; modalStack := modalStack h;
     onNavigationCallback := onNavigationCallback h;
     onModalCallback := onModalCallback h; frames := frames h;
     nextModalPromise := nextModalPromise h;
     modalResolved := modalResolved h; modalAwaited := modalAwaited h;
     effects := effects h ++ [e] |}.

Definition with_contextManager (cm : ContextManager) (fr : ManagedIframe)
  : ManagedIframe :=
  {| mi_id := mi_id fr; contextManager := cm; isLoaded := isLoaded fr;
     modalResolve := modalResolve fr |}.

Definition with_isLoaded (b : bool) (fr : ManagedIframe) : ManagedIframe :=
  {| mi_id := mi_id fr; contextManager := contextManager fr; isLoaded := b;
     modalResolve := modalResolve fr |}.

Definition with_modalResolve (r : option nat) (fr : ManagedIframe)
  : ManagedIframe :=
  {| mi_id := mi_id fr; contextManager := contextManager fr;
     isLoaded := isLoaded fr; modalResolve := r |}.

(** Assignment to a property of the ManagedIframe object [f]. *)
Definition setFrame (f : nat) (fr : ManagedIframe) (h : HostIframeManager)
  : HostIframeManager :=
  with_frames (<[f := fr]> (frames h)) h.

(** [onNavigation(callback)] and [onModal(callback)] *)
Definition onNavigation (h : HostIframeManager) : HostIframeManager :=
  with_callbacks true (onModalCallback h) h.
Definition onModal (h : HostIframeManager) : HostIframeManager :=
  with_callbacks (onNavigationCallback h) true h.

(** [private setupIframeHandlers(iframe)] *)
Definition setupIframeHandlers (m : IframeMessenger) : IframeMessenger :=
  let m := Messenger.onAction "navigation" "navigate_to" host_navigate_to m in
  let m := Messenger.onAction "navigation" "go_back" host_go_back m in
  let m := Messenger.onAction "ui" "modal_open" host_modal_open m in
  let m := Messenger.onAction "ui" "modal_close" host_modal_close m in
  let m := Messenger.onAction "state" "update" host_state_update m in
  Messenger.on "error" host_error m.

(** [async createIframe(config, container)] up to the [await] of the
    frame's [load] event; [r] is the runtime of the new messenger and
    [development] is [process.env.NODE_ENV === 'development'].  The
    result is the new ManagedIframe object. *)
Definition createIframe (r : Runtime) (development : bool)
    (cfg : IframeConfig) (h : HostIframeManager) : HostIframeManager * nat :=
  let m := Messenger.new r
             {| mc_targetOrigin := ic_src_origin cfg; mc_timeout := None;
                mc_debug := Some development; mc_maxRetries := None |} true in
  let cm := Context.new m
              (JObj (<["id" := JStr (ic_id cfg)]>
                    (<["route" := JStr (ic_src_pathname cfg)]> ∅))) in
  let cm := Context.with_messenger (setupIframeHandlers (messenger cm)) cm in
  let managedIframe :=
    {| mi_id := ic_id cfg; contextManager := cm; isLoaded := false;
       modalResolve := None |} in
  (with_frames (frames h ++ [managedIframe]) h, length (frames h)).

(** [createIframe] from the [load] event on: [iframe.onload], the
    registration, and the initial [syncContext()] up to its [await]. *)
Definition createIframeLoaded (f : nat) (contentWindow : option Window)
    (h : HostIframeManager) : HostIframeManager * SyncResult :=
  match frames h !! f with
  | None => (h, SyncDone)
  | Some fr =>
      let cm := contextManager fr in
      let cm := Context.with_messenger
                  (Messenger.setTargetWindow contentWindow (messenger cm)) cm in
      let h := with_iframes (<[mi_id fr := f]> (iframes h)) h in
      let '(cm, s) := Context.syncContext JUndefined cm in
      (setFrame f (with_contextManager cm (with_isLoaded true fr)) h, s)
  end.

(** [removeIframe(id)] *)
Definition removeIframe (id_ : string) (h : HostIframeManager)
  : HostIframeManager :=
  match iframes h !! id_ with
  | None => h
  | Some f =>
      match frames h !! f with
      | None => h
      | Some fr =>
          let cm := contextManager fr in
          let cm := Context.with_messenger
                      (Messenger.destroy (messenger cm)) cm in
          with_iframes (delete id_ (iframes h))
            (setFrame f (with_contextManager cm fr) h)
      end
  end.

(** [private handleNavigation(iframe, data)] *)
Definition handleNavigation (f : nat) (data_ : JsVal) (h : HostIframeManager)
  : HostIframeManager * Result unit :=
  match frames h !! f, get data_ "external" with
  | Some fr, Some external =>
      if truthy external then
        if strict_eq_string (Messenger.prop data_ "target") "_blank"
        then (effect (WindowOpen (Messenger.prop data_ "url")) h, Returned ())
        else (effect (LocationHref (Messenger.prop data_ "url")) h, Returned ())
      else
        let '(cm, _) :=
          Context.updateNavigation
            (JObj (<["currentRoute" := Messenger.prop data_ "route"]>
                  (<["previousRoute" := Messenger.prop data_ "previousRoute"]>
                  (<["params" := Messenger.prop data_ "params"]>
                  (<["state" := Messenger.prop data_ "state"]> ∅)))))
            (contextManager fr) in
        let h := setFrame f (with_contextManager cm fr) h in
        (if onNavigationCallback h
         then effect (NavigationCallback f (Messenger.prop data_ "route") data_) h
         else h, Returned ())
  | _, _ => (h, Threw Context.TypeError)
  end.

(** [private handleGoBack(iframe, data)] *)
Definition handleGoBack (f : nat) (data_ : JsVal) (h : HostIframeManager)
  : HostIframeManager * Result unit :=
  if onNavigationCallback h then
    match frames h !! f, get data_ "route" with
    | Some fr, Some route =>
        (effect (NavigationCallback f route
                   (JObj (<["isBack" := JBool true]>
                            (spread (Context.heap (contextManager fr)) data_))))
           h,
         Returned ())
    | _, _ => (h, Threw Context.TypeError)
    end
  else (h, Returned ()).

(** [private handleModalOpen(iframe, data)]: the promise it returns. *)
Definition handleModalOpen (f : nat) (data_ : JsVal) (h : HostIframeManager)
  : HostIframeManager * option nat :=
  match frames h !! f with
  | None => (h, None)
  | Some fr =>
      let p := nextModalPromise h in
      let h := with_modalPromises (S p) (modalResolved h) h in
      let h := with_modalStack (modalStack h ++ [mi_id fr]) h in
      let h := setFrame f (with_modalResolve (Some p) fr) h in
      let h := if onModalCallback h
               then effect (ModalCallback f modal_open data_) h else h in
      (h, Some p)
  end.

(** [this.modalStack.splice(index, 1)] at the first index of [x], if any *)
Fixpoint spliceFirst (x : string) (l : list string) : list string :=
  match l with
  | [] => []
  | y :: l' => if String.eqb y x then l' else y :: spliceFirst x l'
  end.

(** [private handleModalClose(iframe, data)] *)
Definition handleModalClose (f : nat) (data_ : JsVal) (h : HostIframeManager)
  : HostIframeManager :=
  match frames h !! f with
  | None => h
  | Some fr =>
      let h := with_modalStack (spliceFirst (mi_id fr) (modalStack h)) h in
      let h :=
        match modalResolve fr with
        | Some p =>
            let h := with_modalPromises (nextModalPromise h)
                       (modalResolved h ++ [(p, data_)]) h in
            setFrame f (with_modalResolve None fr) h
        | None => h
        end in
      if onModalCallback h
      then effect (ModalCallback f modal_close data_) h else h
  end.

(** [v] as the value of a handler whose body is a statement block. *)
Definition returnsUndefined (r : Result unit) : Result JsVal :=
  match r with
  | Returned _ => Returned JUndefined
  | Threw e => Threw e
  end.

(** The bodies of the handlers registered on the messenger of frame [f]
    (by [setupIframeHandlers] and by the frame's [ContextManager]), run
    for invocation [k].  The result lists the suspended
    [handleIncomingMessage] calls that can resume, with the value they
    were waiting for: this invocation once its handler has returned a
    value, and the invocation waiting for a modal promise once that
    promise is resolved. *)
Definition runHandler (f k : nat) (c : HandlerCall) (h : HostIframeManager)
  : HostIframeManager * list (nat * nat * Result JsVal) :=
  let data_ := Messenger.prop (hc_payload c) "data" in
  match hc_handler c with
  | host_navigate_to =>
      let '(h, r) := handleNavigation f data_ h in
      (h, [(f, k, returnsUndefined r)])
  | host_go_back =>
      let '(h, r) := handleGoBack f data_ h in
      (h, [(f, k, returnsUndefined r)])
  | host_modal_open =>
      match handleModalOpen f data_ h with
      | (h, Some p) => (with_modalAwaited (<[p := (f, k)]> (modalAwaited h)) h, [])
      | (h, None) => (h, [])
      end
  | host_modal_close =>
      let woken :=
        match modalResolve <$> frames h !! f with
        | Some (Some p) =>
            match modalAwaited h !! p with
            | Some (f', k') => [(f', k', Returned data_)]
            | None => []
            end
        | _ => []
        end in
      (handleModalClose f data_ h, woken ++ [(f, k, Returned JUndefined)])
  | host_state_update =>
      match frames h !! f with
      | Some fr =>
          let '(cm, _) := Context.updateContext data_ false (contextManager fr) in
          (setFrame f (with_contextManager cm fr) h, [(f, k, Returned JUndefined)])
      | None => (h, [])
      end
  | host_error =>
      (effect (ConsoleError f data_) h, [(f, k, Returned JUndefined)])
  | _ =>
      match frames h !! f with
      | Some fr =>
          match Context.runHandler c (contextManager fr) with
          | (cm, Some r) => (setFrame f (with_contextManager cm fr) h, [(f, k, r)])
          | (cm, None) => (setFrame f (with_contextManager cm fr) h, [])
          end
      | None => (h, [])
      end
  end.

(** One listener of frame [f]'s messenger receives the event. *)
Definition deliver (f : nat) (event : MessageEvent)
    (acc : HostIframeManager * list (nat * nat * Result JsVal))
    (l : EventListener)
  : HostIframeManager * list (nat * nat * Result JsVal) :=
  let '(h, results) := acc in
  match frames h !! f with
  | None => (h, results)
  | Some fr =>
      let cm := contextManager fr in
      let k := length (handlerCalls (rt (messenger cm))) in
      let m := Messenger.callListener event (messenger cm) l in
      let h := setFrame f (with_contextManager (Context.with_messenger m cm) fr) h in
      match handlerCalls (rt m) !! k with
      | Some c => let '(h, woken) := runHandler f k c h in (h, results ++ woken)
      | None => (h, results)
      end
  end.

Definition frameMessage (event : MessageEvent)
    (acc : HostIframeManager * list (nat * nat * Result JsVal)) (f : nat)
  : HostIframeManager * list (nat * nat * Result JsVal) :=
  match frames acc.1 !! f with
  | None => acc
  | Some fr =>
      foldl (deliver f event) acc
        (listeners (rt (messenger (contextManager fr))))
  end.

Definition resume (h : HostIframeManager) (w : nat * nat * Result JsVal)
  : HostIframeManager :=
  let '(f, k, r) := w in
  match frames h !! f with
  | None => h
  | Some fr =>
      let cm := contextManager fr in
      setFrame f
        (with_contextManager
           (Context.with_messenger
              (Messenger.handlerReturns k r (messenger cm)) cm) fr) h
  end.

(** A message event reaches the host's window: the listener of every
    messenger created so far receives it. *)
Definition windowMessage (event : MessageEvent) (h : HostIframeManager)
  : HostIframeManager :=
  let '(h, results) :=
    foldl (frameMessage event) (h, []) (seq 0 (length (frames h))) in
  foldl resume h results.

(** [getIframe(id)] *)
Definition getIframe (id_ : string) (h : HostIframeManager)
  : option ManagedIframe :=
  iframes h !! id_ ≫= λ f, frames h !! f.

(** [async sendToIframe(iframeId, type, action, data?, requiresResponse =
    false)]: the promise it returns follows that of [send], or is rejected
    with the error for an unknown id. *)
Definition sendToIframe (iframeId type_ action_ : string) (data_ : JsVal)
    (requiresResponse_ : bool) (h : HostIframeManager)
  : HostIframeManager * SendResult :=
  match iframes h !! iframeId with
  | Some f =>
      match frames h !! f with
      | Some fr =>
          let cm := contextManager fr in
          let '(m, r) := Messenger.send type_ action_ data_ requiresResponse_
                           (messenger cm) in
          (setFrame f (with_contextManager (Context.with_messenger m cm) fr) h,
           r)
      | None => (h, SendThrew ("Iframe " +:+ iframeId +:+ " not found"))
      end
  | None => (h, SendThrew ("Iframe " +:+ iframeId +:+ " not found"))
  end.

(** One element of the [map] of [broadcastToIframes]: the [send] on the
    frame's messenger, and the [catch] that turns a failure into a
    warning. *)
Definition sendAndCatch (type_ action_ : string) (data_ : JsVal)
    (fr : ManagedIframe) : ManagedIframe :=
  let cm := contextManager fr in
  let '(m, r) := Messenger.send type_ action_ data_ false (messenger cm) in
  let m := match r with
           | SendThrew _ =>
               Messenger.with_rt
                 (Rt.with_console
                    (console (rt m) ++ ["Failed to send message to iframe"])
                    (rt m)) m
           | _ => m
           end in
  with_contextManager (Context.with_messenger m cm) fr.

Definition broadcastTo (type_ action_ : string) (data_ : JsVal)
    (h : HostIframeManager) (f : nat) : HostIframeManager :=
  match frames h !! f with
  | Some fr => setFrame f (sendAndCatch type_ action_ data_ fr) h
  | None => h
  end.

(** [async broadcastToIframes(type, action, data?)].  The registered
    frames are visited in the order of [map_to_list] rather than in
    insertion order; they are distinct objects, each with a messenger of
    its own. *)
Definition broadcastToIframes (type_ action_ : string) (data_ : JsVal)
    (h : HostIframeManager) : HostIframeManager :=
  foldl (broadcastTo type_ action_ data_) h (map_to_list (iframes h)).*2.

End Host.

(* ===================================================================== *)
(** ** Vocabulary of the properties *)
(* ===================================================================== *)

(** *** Requests and their settlement *)

(** The three ways the protocol settles a request. *)
Definition three (b : SettledBy) : Prop :=
  b = ByReply ∨ b = ByTimeout ∨ b = ByDestroy.

(** The executor of promise [p] threw. *)
Definition thrown (p : nat) (l : list SettleCall) : Prop :=
  ∃ c, c ∈ callsOf p l ∧ sc_by c = ByExecutorThrow.

(** A timer that rejects promise [p] is armed. *)
Definition armed (p : nat) (tm : gmap nat TimerClosure) : Prop :=
  ∃ t c, tm !! t = Some c ∧ tc_promise c = p.

(** The invariant that relates the armed timers [tm], the next timer
    handle [nt], the next promise [np] and the calls [sc] made so far:
    timers and promises in use have been created; no two armed timers
    reject the same promise; and a promise whose executor did not throw
    either has had no call and its timer is armed, or has had exactly one
    call, by a reply, a timeout or [destroy], and no timer is armed for
    it. *)
Record RtInv (tm : gmap nat TimerClosure) (nt np : nat)
    (sc : list SettleCall) : Prop := {
  inv_fresh : ∀ t c, tm !! t = Some c → t < nt ∧ tc_promise c < np;
  inv_unique : ∀ t t' c c', tm !! t = Some c → tm !! t' = Some c' →
                 tc_promise c = tc_promise c' → t = t';
  inv_calls_fresh : ∀ c, c ∈ sc → sc_promise c < np;
  inv_once : ∀ p, p < np → ¬ thrown p sc →
      (callsOf p sc = [] ∧ armed p tm) ∨
      (∃ c, callsOf p sc = [c] ∧ three (sc_by c) ∧ ¬ armed p tm)
}.

(** The invariant of a messenger: that of its runtime, and every entry
    of the pending table holds the handle of an armed timer whose closure
    was made for that entry. *)
Definition Inv (m : IframeMessenger) : Prop :=
  RtInv (timers (rt m)) (nextTimer (rt m)) (nextPromise (rt m))
        (settleCalls (rt m)) ∧
  ∀ i pm, pendingMessages m !! i = Some pm →
    timers (rt m) !! pm_timeout pm
    = Some {| tc_id := i; tc_promise := pm_promise pm |}.

(** Promise [p] exists and no exception was thrown in its executor. *)
Definition Live (p : nat) (m : IframeMessenger) : Prop :=
  p < nextPromise (rt m) ∧ ¬ thrown p (settleCalls (rt m)).

(** The part of a messenger the invariant speaks about. *)
Definition core (m : IframeMessenger) :=
  (pendingMessages m, timers (rt m), nextTimer (rt m), nextPromise (rt m),
   settleCalls (rt m)).

(** [send], up to the call of [sendWithResponse] or [postMessage] *)
Definition sendPrepared (type_ action_ : string) (data_ : JsVal)
    (requiresResponse_ : bool) (m : IframeMessenger)
  : MessagePayload * IframeMessenger :=
  let '(messageId, m) := Messenger.generateId m in
  let '(now, r) := Rt.Date_now (rt m) in
  let m := Messenger.with_rt r m in
  ({| id := messageId; type := type_; action := action_; data := data_;
      timestamp := now; requiresResponse := Some requiresResponse_;
      responseId := None; source := Messenger.thisSource m;
      targetOrigin := cfg_targetOrigin (config m) |},
   Messenger.log "Sending message:" m).

(** The calls already made on a promise are never forgotten. *)
Definition Grows (m m' : IframeMessenger) : Prop :=
  ∃ l, settleCalls (rt m') = settleCalls (rt m) ++ l.

(** *** Inbound messages *)

(** [m'] is [m] apart from what was written to the console. *)
Definition sameButConsole (m m' : IframeMessenger) : Prop :=
  ∃ c, m' = Messenger.with_rt (Rt.with_console c (rt m)) m.

Definition noHandlerError : JsVal := JObj {[ "error" := JStr "No handler found" ]}.

(** The envelope [respond] builds in messenger [m]. *)
Definition responsePayload (originalMessageId : string) (data_ : JsVal)
    (m : IframeMessenger) : MessagePayload :=
  {| id := pretty (dateNow (rt m) (nowCalls (rt m))) +:+ "-"
             +:+ mathRandom (rt m) (randomCalls (rt m));
     type := "response"; action := "message_response"; data := data_;
     timestamp := dateNow (rt m) (S (nowCalls (rt m)));
     requiresResponse := None; responseId := Some originalMessageId;
     source := Messenger.thisSource m;
     targetOrigin := cfg_targetOrigin (config m) |}.

(** The envelope [send] builds in messenger [m]. *)
Definition requestPayload (type_ action_ : string) (data_ : JsVal)
    (requiresResponse_ : bool) (m : IframeMessenger) : MessagePayload :=
  {| id := pretty (dateNow (rt m) (nowCalls (rt m))) +:+ "-"
             +:+ mathRandom (rt m) (randomCalls (rt m));
     type := type_; action := action_; data := data_;
     timestamp := dateNow (rt m) (S (nowCalls (rt m)));
     requiresResponse := Some requiresResponse_; responseId := None;
     source := Messenger.thisSource m;
     targetOrigin := cfg_targetOrigin (config m) |}.

(** *** Context, history, breadcrumbs *)

(** The clock reading the next [Date.now()] returns. *)
Definition reading (cm : ContextManager) : Z :=
  dateNow (rt (messenger cm)) (nowCalls (rt (messenger cm))).

(** [this.context.updatedAt] *)
Definition updatedAt (cm : ContextManager) : option JsVal :=
  context cm !! "updatedAt".

(** The last [k] elements of [l]. *)
Definition lastN {A} (k : nat) (l : list A) : list A := drop (length l - k) l.

(** A sequence of [updateContext] calls, and the contexts they find. *)
Fixpoint updateAll (us : list (JsVal * bool)) (cm : ContextManager)
  : ContextManager :=
  match us with
  | [] => cm
  | (u, n) :: us' => updateAll us' (Context.updateContext u n cm).1
  end.

Fixpoint contextsBefore (us : list (JsVal * bool)) (cm : ContextManager)
  : list (gmap string JsVal) :=
  match us with
  | [] => []
  | (u, n) :: us' =>
      context cm :: contextsBefore us' (Context.updateContext u n cm).1
  end.

(** The history holds at most [maxHistorySize] snapshots. *)
Definition Bounded (cm : ContextManager) : Prop :=
  length (contextHistory cm) ≤ maxHistorySize.

(** The operations on a context manager, as a transition system. *)
Inductive Op :=
| UpdateContext (updates : JsVal) (notify : bool)
| SyncContext (remoteContext : JsVal)
| SyncContextSettled (o : Outcome)
| UpdateNavigation (navigation_ : JsVal)
| Navigate (route params state : JsVal)
| GoBack
| AddBreadcrumb (label path : string) (params : JsVal)
| RestoreFromHistory (index : Z)
| ReceiveMessage (event : MessageEvent)
| OnMessenger (e : Event).

Definition apply (cm : ContextManager) (op : Op) : ContextManager :=
  match op with
  | UpdateContext u n => (Context.updateContext u n cm).1
  | SyncContext r => (Context.syncContext r cm).1
  | SyncContextSettled o => Context.syncContextSettled o cm
  | UpdateNavigation v => (Context.updateNavigation v cm).1
  | Navigate r p s => (Context.navigate r p s cm).1
  | GoBack => (Context.goBack cm).1
  | AddBreadcrumb l p ps => (Context.addBreadcrumb l p ps cm).1
  | RestoreFromHistory i => (Context.restoreFromHistory i cm).1
  | ReceiveMessage ev => Context.windowMessage ev cm
  | OnMessenger e => Context.with_messenger (step (messenger cm) e) cm
  end.

Definition applyAll (cm : ContextManager) (ops : list Op) : ContextManager :=
  foldl apply cm ops.

(** [{ label, path, params }] *)
Definition crumb (label path : string) (params : JsVal) : JsVal :=
  JObj (<["label" := JStr label]> (<["path" := JStr path]>
       (<["params" := params]> ∅))).

(** The breadcrumb sequence of a context whose [navigation] is an object
    and whose [breadcrumbs] is missing (or otherwise falsy) or an array. *)
Definition breadcrumbs (cm : ContextManager) : option (list JsVal) :=
  match Context.navigation cm with
  | JObj nav =>
      match default JUndefined (nav !! "breadcrumbs") with
      | JArr r => Context.heap cm !! r
      | v => if truthy v then None else Some []
      end
  | _ => None
  end.

(** [b.path === path] is [true], respectively [false] *)
Definition hasPath (path : string) (b : JsVal) : Prop :=
  ∃ v, get b "path" = Some v ∧ strict_eq_string v path = true.
Definition otherPath (path : string) (b : JsVal) : Prop :=
  ∃ v, get b "path" = Some v ∧ strict_eq_string v path = false.

(** What [addBreadcrumb] leaves in the breadcrumb array. *)
Definition trailAfter (label path : string) (params : JsVal) (l : list JsVal)
  : option (list JsVal) :=
  match Context.findIndex_path path l with
  | Returned (Some i) => Some (take (i + 1) l)
  | Returned None => Some (l ++ [crumb label path params])
  | Threw _ => None
  end.

(** The messenger once [updateContext] has read the clock. *)
Definition ticked (m : IframeMessenger) : IframeMessenger :=
  Messenger.with_rt (Rt.Date_now (rt m)).2 m.

(** *** Modal requests on the host *)

(** The modal requests the host handles, as a transition system. *)
Inductive ModalEvent :=
| ModalOpen (f : nat) (data_ : JsVal)
| ModalClose (f : nat) (data_ : JsVal).

Definition modalFrame (e : ModalEvent) : nat :=
  match e with ModalOpen f _ | ModalClose f _ => f end.

Definition modalStep (h : HostIframeManager) (e : ModalEvent)
  : HostIframeManager :=
  match e with
  | ModalOpen f d => (Host.handleModalOpen f d h).1
  | ModalClose f d => Host.handleModalClose f d h
  end.

Definition modalRun (h : HostIframeManager) (es : list ModalEvent)
  : HostIframeManager :=
  foldl modalStep h es.

(** The resolver stored on frame [f], if any. *)
Definition slot (f : nat) (h : HostIframeManager) : option nat :=
  frames h !! f ≫= modalResolve.

(** The promises whose stored resolver has been called. *)
Definition resolvedPromises (h : HostIframeManager) : list nat :=
  (modalResolved h).*1.

(** Every stored resolver belongs to a promise already created. *)
Definition ModalWF (h : HostIframeManager) : Prop :=
  (∀ f p, slot f h = Some p → p < nextModalPromise h) ∧
  (∀ p, p ∈ resolvedPromises h → p < nextModalPromise h).

(** Only frame [f] stores the resolver of [p], which has not been called. *)
Definition HeldOnlyBy (f p : nat) (h : HostIframeManager) : Prop :=
  (∀ f', slot f' h = Some p → f' = f) ∧
  (p ∉ resolvedPromises h) ∧ p < nextModalPromise h.

(** No frame stores the resolver of [p], which has not been called. *)
Definition Orphaned (p : nat) (h : HostIframeManager) : Prop :=
  (∀ f, slot f h ≠ Some p) ∧
  (p ∉ resolvedPromises h) ∧ p < nextModalPromise h.

(** *** Further vocabulary: dispatch and replies *)

(** The message event that delivers envelope [p] to messenger [m] from
    the origin [m] accepts. *)
Definition delivery (p : MessagePayload) (m : IframeMessenger) : MessageEvent :=
  {| ev_origin := cfg_targetOrigin (config m); ev_data := payload_to_js p |}.

(** A reply to the request with id [rid], carrying [d]. *)
Definition replyTo (rid : string) (d : JsVal) (p : MessagePayload) : Prop :=
  type p = "response" ∧ responseId p = Some rid ∧ data p = d.

(** The call of [resolve] a reply makes on the promise of an entry. *)
Definition resolvedWith (pm : PendingMessage) (d : JsVal) : SettleCall :=
  {| sc_promise := pm_promise pm; sc_by := ByReply; sc_outcome := Resolved d |}.

(** The call of [reject] that [destroy] makes on the promise of an entry. *)
Definition rejectedByDestroy (entry : string * PendingMessage) : SettleCall :=
  {| sc_promise := pm_promise entry.2; sc_by := ByDestroy;
     sc_outcome := Rejected "Messenger destroyed" |}.

(** *** Further vocabulary: where envelopes go *)

(** Envelope [po] was posted as messenger [m] addresses its envelopes: to
    the window that is its target, for the origin of its configuration,
    and tagged with its own side. *)
Definition addressedBy (m : IframeMessenger) (po : Posted) : Prop :=
  Some (po_window po) = targetWindow m ∧
  po_targetOrigin po = cfg_targetOrigin (config m) ∧
  targetOrigin (po_payload po) = cfg_targetOrigin (config m) ∧
  source (po_payload po) = Messenger.thisSource m.

(** [m'] is [m] after it has posted some envelopes, all addressed as [m]
    addresses them; configuration, side and target window are the same. *)
Definition Sends (m m' : IframeMessenger) : Prop :=
  config m' = config m ∧ isHost m' = isHost m ∧
  targetWindow m' = targetWindow m ∧
  ∃ l, posted (rt m') = posted (rt m) ++ l ∧ Forall (addressedBy m) l.

(** *** Further vocabulary: the context manager *)

(** The category and action of every envelope posted so far, in order. *)
Definition tags (m : IframeMessenger) : list (string * string) :=
  (λ po, (type (po_payload po), action (po_payload po))) <$> posted (rt m).

(** The index of the most recent snapshot of the history. *)
Definition lastIndex (cm : ContextManager) : Z :=
  (Z.of_nat (length (contextHistory cm)) - 1)%Z.

(** The navigation object [navigate] leaves behind when it found [nav]. *)
Definition navigated (route params state : JsVal) (nav : gmap string JsVal)
  : gmap string JsVal :=
  <["previousRoute" := default JUndefined (nav !! "currentRoute")]>
  (<["currentRoute" := route]>
  (<["params" := params]>
  (<["state" := state]> nav))).

(** The route [goBack] goes to: [previousRoute || '/']. *)
Definition backRoute (nav : gmap string JsVal) : JsVal :=
  let v := default JUndefined (nav !! "previousRoute") in
  if truthy v then v else JStr "/".

(** [this.context.navigation.state.preservedContext] *)
Definition preservedContext (c : gmap string JsVal) : JsVal :=
  Messenger.prop
    (Messenger.prop (default JUndefined (c !! "navigation")) "state")
    "preservedContext".

(** The [path] of a breadcrumb, when it is a string. *)
Definition crumbPath (b : JsVal) : option string :=
  match get b "path" with
  | Some (JStr s) => Some s
  | _ => None
  end.

(** The paths of a breadcrumb sequence, in order. *)
Definition crumbPaths (l : list JsVal) : list string := omap crumbPath l.

(** *** Further vocabulary: the host's registry *)

(** The error of [sendToIframe] for an id that is not registered. *)
Definition notFound (iframeId : string) : string :=
  "Iframe " +:+ iframeId +:+ " not found".

(** Every registered id names an existing ManagedIframe object that
    carries this id. *)
Definition Registry (h : HostIframeManager) : Prop :=
  ∀ i f, iframes h !! i = Some f →
    ∃ fr, frames h !! f = Some fr ∧ mi_id fr = i.

(** The messenger of ManagedIframe object [f]. *)
Definition messengerOf (f : nat) (h : HostIframeManager)
  : option IframeMessenger :=
  (λ fr, messenger (contextManager fr)) <$> frames h !! f.

(** *** Concrete instances *)

(** A clock that advances by a millisecond per reading, and a random
    generator. *)
Definition exampleClock : nat → Z := λ k, (1700000000000 + Z.of_nat k)%Z.
Definition exampleRandom : nat → string := λ k, "k3j9x2q" +:+ pretty k.
Definition exampleRuntime : Runtime := newRuntime exampleClock exampleRandom.

(** A guest's messenger, as [IframeApp] builds it. *)
Definition exampleConfig : MessagingConfig :=
  {| mc_targetOrigin := "https://host.example"; mc_timeout := None;
     mc_debug := None; mc_maxRetries := None |}.

Definition exampleGuestMessenger : IframeMessenger :=
  Messenger.new exampleRuntime exampleConfig false.

(** The host's side: the configuration of its messenger, the messenger
    once the frame has loaded, and a host with that one frame. *)
Definition exampleHostConfig : MessagingConfig :=
  {| mc_targetOrigin := "https://guest.example"; mc_timeout := None;
     mc_debug := None; mc_maxRetries := None |}.

Definition exampleLoadedHostMessenger : IframeMessenger :=
  run (Messenger.new exampleRuntime exampleHostConfig true)
    [CallSetTargetWindow (Some (ContentWindow 0))].

Definition exampleGuestRequest : MessagePayload :=
  {| id := "1700000000500-abc123xyz"; type := "data"; action := "request";
     data := JObj {[ "type" := JStr "user-info" ]}; timestamp := 1700000000500;
     requiresResponse := Some true; responseId := None; source := iframe;
     targetOrigin := "https://host.example" |}.

Definition exampleHost : HostIframeManager :=
  (Host.createIframe exampleRuntime false
     {| ic_id := "g1"; ic_src_origin := "https://guest.example";
        ic_src_pathname := "/app" |} Host.new).1.

(** A request of the host to the guest, and the event that delivers an
    envelope of the host. *)
Definition exampleRequest : MessagePayload :=
  {| id := "1700000000500-abc123xyz"; type := "data"; action := "request";
     data := JObj {[ "type" := JStr "user-info" ]}; timestamp := 1700000000500;
     requiresResponse := Some true; responseId := None; source := host;
     targetOrigin := "https://guest.example" |}.

Definition fromHost (p : MessagePayload) : MessageEvent :=
  {| ev_origin := "https://host.example"; ev_data := payload_to_js p |}.

(** A guest's context manager, just built. *)
Definition exampleContextManager : ContextManager :=
  Context.new exampleGuestMessenger JUndefined.

(** A clock that does not advance between two readings. *)
Definition frozenClock : nat → Z := λ _, 1700000000000%Z.

(** A guest context manager created and used within one millisecond. *)
Definition sameMillisecond : ContextManager :=
  Context.new
    (Messenger.new (newRuntime frozenClock exampleRandom)
       {| mc_targetOrigin := "https://host.example"; mc_timeout := None;
          mc_debug := None; mc_maxRetries := None |} false)
    JUndefined.

(** A guest application, and a [state/update] envelope of its host. *)
Definition exampleGuest : IframeApp :=
  App.new exampleRuntime
    {| hostOrigin := "https://host.example"; app_debug := None;
       autoSync := None; syncInterval := None |}.

Definition exampleUpdate : MessagePayload :=
  {| id := "1700000000500-abc123xyz"; type := "state"; action := "update";
     data := JObj {[ "route" := JStr "/list" ]}; timestamp := 1700000000500;
     requiresResponse := Some false; responseId := None; source := host;
     targetOrigin := "https://guest.example" |}.

#[local] Arguments Messenger.send : simpl never.

(* ===================================================================== *)
(** ** Request settlement (IframeMessenger) *)
(* ===================================================================== *)

Lemma callsOf_app p l1 l2 : callsOf p (l1 ++ l2) = callsOf p l1 ++ callsOf p l2.
Proof. apply filter_app. Qed.

Lemma callsOf_one_eq p b o :
  callsOf p [{| sc_promise := p; sc_by := b; sc_outcome := o |}]
  = [{| sc_promise := p; sc_by := b; sc_outcome := o |}].
Proof. unfold callsOf. rewrite filter_cons_True; done. Qed.

Lemma callsOf_one_ne p q b o :
  q ≠ p → callsOf p [{| sc_promise := q; sc_by := b; sc_outcome := o |}] = [].
Proof. intros. unfold callsOf. rewrite filter_cons_False; done. Qed.

Lemma callsOf_fresh p np sc :
  (∀ c, c ∈ sc → sc_promise c < np) → np ≤ p → callsOf p sc = [].
Proof.
  intros Hf Hp. unfold callsOf. induction sc as [|c sc IH]; [done|].
  rewrite filter_cons_False.
  - apply IH. intros c' Hc'. apply Hf. by right.
  - intros Heq. specialize (Hf c ltac:(left)). lia.
Qed.

Lemma thrown_snoc p sc q b o :
  b ≠ ByExecutorThrow ∨ q ≠ p →
  thrown p (sc ++ [{| sc_promise := q; sc_by := b; sc_outcome := o |}]) ↔ thrown p sc.
Proof.
  intros Hb. unfold thrown. rewrite callsOf_app. split.
  - intros (c & Hc & Hby). apply elem_of_app in Hc as [Hc|Hc]; [eauto|].
    destruct (decide (q = p)) as [->|Hne].
    + rewrite callsOf_one_eq in Hc. apply list_elem_of_singleton in Hc. subst c.
      simpl in Hby. destruct Hb; congruence.
    + rewrite callsOf_one_ne in Hc by done. by apply elem_of_nil in Hc.
  - intros (c & Hc & Hby). exists c. split; [|done]. apply elem_of_app. by left.
Qed.

Lemma armed_delete_ne p t c tm :
  tm !! t = Some c → tc_promise c ≠ p → armed p (delete t tm) ↔ armed p tm.
Proof.
  intros Ht Hne. unfold armed. split.
  - intros (t' & c' & Hl & Hp). apply lookup_delete_Some in Hl as [_ Hl]. eauto.
  - intros (t' & c' & Hl & Hp). exists t', c'. split; [|done].
    apply lookup_delete_Some. split; [|done]. intros ->. congruence.
Qed.

(** Settling a promise whose timer is armed, and disarming the timer. *)
Lemma RtInv_settle tm nt np sc t c b o :
  RtInv tm nt np sc → tm !! t = Some c → three b →
  RtInv (delete t tm) nt np
        (sc ++ [{| sc_promise := tc_promise c; sc_by := b; sc_outcome := o |}]).
Proof.
  intros [Hf Hu Hc Ho] Ht Hb.
  assert (Hnb : b ≠ ByExecutorThrow) by (destruct Hb as [->|[->| ->]]; done).
  split.
  - intros t' c' Hl. apply lookup_delete_Some in Hl as [_ Hl]. eauto.
  - intros t1 t2 c1 c2 H1 H2. apply lookup_delete_Some in H1 as [_ H1].
    apply lookup_delete_Some in H2 as [_ H2]. eauto.
  - intros c' Hc'. apply elem_of_app in Hc' as [Hc'|Hc']; [eauto|].
    apply list_elem_of_singleton in Hc'. subst c'. simpl. by apply (Hf t c).
  - intros p Hp Hnt. rewrite thrown_snoc in Hnt by eauto.
    rewrite callsOf_app.
    destruct (decide (tc_promise c = p)) as [Heq|Hne].
    + subst p. rewrite callsOf_one_eq.
      destruct (Ho _ Hp Hnt) as [[He Ha]|(c0 & He & H3 & Hna)].
      * right. eexists. rewrite He. split; [done|]. split; [done|].
        intros (t' & c' & Hl & Hp'). apply lookup_delete_Some in Hl as [Hne Hl].
        apply Hne. symmetry. by apply (Hu t' t c' c).
      * exfalso. apply Hna. by exists t, c.
    + rewrite callsOf_one_ne by done. rewrite app_nil_r.
      pose proof (armed_delete_ne p t c tm Ht Hne) as Harm.
      destruct (Ho _ Hp Hnt) as [[He Ha]|(c0 & He & H3 & Hna)].
      * left. split; [done|]. by apply Harm.
      * right. exists c0. split; [done|]. split; [done|]. by rewrite Harm.
Qed.

(** Creating a promise and arming its timer. *)
Lemma RtInv_arm tm nt np sc i :
  RtInv tm nt np sc →
  RtInv (<[nt := {| tc_id := i; tc_promise := np |}]> tm) (S nt) (S np) sc.
Proof.
  intros [Hf Hu Hc Ho]. split.
  - intros t c Hl. apply lookup_insert_Some in Hl as [[<- <-]|[_ Hl]]; simpl; [lia|].
    apply Hf in Hl. lia.
  - intros t1 t2 c1 c2 H1 H2 Heq.
    apply lookup_insert_Some in H1 as [[<- <-]|[N1 H1]];
      apply lookup_insert_Some in H2 as [[<- <-]|[N2 H2]]; simpl in *; [done| | |by eauto].
    + apply Hf in H2. lia.
    + apply Hf in H1. lia.
  - intros c Hc'. apply Hc in Hc'. lia.
  - intros p Hp Hnt. destruct (decide (p = np)) as [->|Hne].
    + left. split; [by apply (callsOf_fresh _ np)|].
      eexists nt, _. by rewrite lookup_insert_eq.
    + assert (Hlt : p < np) by lia.
      assert (Harm : armed p (<[nt := {| tc_id := i; tc_promise := np |}]> tm) ↔ armed p tm).
      { unfold armed. split.
        - intros (t & c & Hl & Hpc). apply lookup_insert_Some in Hl as [[<- <-]|[_ Hl]]; [done|eauto].
        - intros (t & c & Hl & Hpc). exists t, c. split; [|done].
          rewrite lookup_insert_ne; [done|]. apply Hf in Hl. lia. }
      destruct (Ho _ Hlt Hnt) as [[He Ha]|(c0 & He & H3 & Hna)].
      * left. split; [done|]. by apply Harm.
      * right. exists c0. split; [done|]. split; [done|]. by rewrite Harm.
Qed.

(** An exception inside the executor of promise [p]. *)
Lemma RtInv_throw tm nt np sc p o :
  RtInv tm nt np sc → p < np →
  RtInv tm nt np (sc ++ [{| sc_promise := p; sc_by := ByExecutorThrow; sc_outcome := o |}]).
Proof.
  intros [Hf Hu Hc Ho] Hp. split; [done|done| |].
  - intros c Hc'. apply elem_of_app in Hc' as [Hc'|Hc']; [eauto|].
    apply list_elem_of_singleton in Hc'. by subst c.
  - intros q Hq Hnt. destruct (decide (p = q)) as [->|Hne].
    + exfalso. apply Hnt.
      exists {| sc_promise := q; sc_by := ByExecutorThrow; sc_outcome := o |}.
      split; [|reflexivity].
      rewrite callsOf_app, callsOf_one_eq. apply elem_of_app. right. by left.
    + rewrite thrown_snoc in Hnt by eauto.
      rewrite callsOf_app, callsOf_one_ne by done. rewrite app_nil_r. by apply Ho.
Qed.

Lemma Inv_core m m' : core m = core m' → Inv m → Inv m'.
Proof. unfold core, Inv. intros [= -> -> -> -> ->]. done. Qed.

Lemma Live_core p m m' : core m = core m' → Live p m → Live p m'.
Proof. unfold core, Live. intros [= _ _ _ -> ->]. done. Qed.

Lemma core_log l m : core (Messenger.log l m) = core m.
Proof. unfold Messenger.log. by destruct (cfg_debug _). Qed.

Lemma core_generateId m : core (Messenger.generateId m).2 = core m.
Proof. done. Qed.

Lemma core_postMessage payload m : core (Messenger.postMessage payload m).1 = core m.
Proof. unfold Messenger.postMessage. by destruct (targetWindow m). Qed.

Lemma core_respond i d m : core (Messenger.respond i d m).1 = core m.
Proof.
  unfold Messenger.respond. simpl.
  rewrite core_postMessage, core_log. done.
Qed.

Lemma core_on t h m : core (Messenger.on t h m) = core m.
Proof. done. Qed.

Lemma core_onAction t a h m : core (Messenger.onAction t a h m) = core m.
Proof. done. Qed.

Lemma core_off t a m : core (Messenger.off t a m) = core m.
Proof. done. Qed.

Lemma core_setTargetWindow w m : core (Messenger.setTargetWindow w m) = core m.
Proof. unfold Messenger.setTargetWindow. destruct w; [|done]. by destruct (isHost m). Qed.

Lemma core_invoke h p m : core (Messenger.invoke h p m) = core m.
Proof. done. Qed.

Lemma core_handleIncomingMessage payload m :
  core (Messenger.handleIncomingMessage payload m) = core m.
Proof.
  unfold Messenger.handleIncomingMessage.
  destruct (messageHandlers m !! _); [done|].
  destruct (messageHandlers m !! _); [done|].
  destruct (truthy _); [|apply core_log].
  rewrite core_respond. apply core_log.
Qed.

Lemma core_handlerReturns k r m : core (Messenger.handlerReturns k r m) = core m.
Proof.
  unfold Messenger.handlerReturns.
  destruct (decide _); [|done]. destruct (handlerCalls (rt m) !! k); [|done].
  destruct r; [|done]. destruct (truthy _); [|done].
  by rewrite core_respond.
Qed.

Lemma Inv_pending_insert m i :
  Inv m →
  ∀ j pm,
    <[i := {| pm_promise := nextPromise (rt m); pm_timeout := nextTimer (rt m) |}]>
      (pendingMessages m) !! j = Some pm →
    <[nextTimer (rt m) := {| tc_id := i; tc_promise := nextPromise (rt m) |}]>
      (timers (rt m)) !! pm_timeout pm
    = Some {| tc_id := j; tc_promise := pm_promise pm |}.
Proof.
  intros [HR HA] j pm Hl.
  apply lookup_insert_Some in Hl as [[<- <-]|[Hne Hl]]; simpl.
  - by rewrite lookup_insert_eq.
  - pose proof (HA _ _ Hl) as Ht. rewrite lookup_insert_ne; [done|].
    apply (inv_fresh _ _ _ _ HR) in Ht. lia.
Qed.

Lemma Inv_sendWithResponse payload m :
  Inv m → Inv (Messenger.sendWithResponse payload m).1.
Proof.
  intros HI. pose proof HI as [HR HA].
  unfold Messenger.sendWithResponse, Messenger.postMessage. simpl.
  destruct (targetWindow m); simpl; (split; [|by apply Inv_pending_insert]); simpl.
  - by apply RtInv_arm.
  - apply RtInv_throw; [by apply RtInv_arm|lia].
Qed.

Lemma Live_sendWithResponse p payload m :
  Live p m → Live p (Messenger.sendWithResponse payload m).1.
Proof.
  intros [Hp Hn].
  unfold Messenger.sendWithResponse, Messenger.postMessage. simpl.
  destruct (targetWindow m); simpl; (split; simpl; [lia|]); [done|].
  rewrite thrown_snoc; [done|]. right. lia.
Qed.

Lemma sendWithResponse_promise payload m :
  (Messenger.sendWithResponse payload m).2 = nextPromise (rt m).
Proof.
  unfold Messenger.sendWithResponse, Messenger.postMessage. simpl.
  by destruct (targetWindow m).
Qed.

Lemma Live_sendWithResponse_new payload m :
  Inv m → is_Some (targetWindow m) →
  Live (nextPromise (rt m)) (Messenger.sendWithResponse payload m).1.
Proof.
  intros [HR _] [w Hw].
  unfold Messenger.sendWithResponse, Messenger.postMessage. simpl.
  rewrite Hw. simpl. split; simpl; [lia|].
  intros (c & Hc & _).
  rewrite (callsOf_fresh _ (nextPromise (rt m))) in Hc;
    [by apply elem_of_nil in Hc|apply (inv_calls_fresh _ _ _ _ HR)|lia].
Qed.

Lemma send_unfold t a d r m :
  Messenger.send t a d r m =
  let '(payload, m') := sendPrepared t a d r m in
  if r then let '(m'', p) := Messenger.sendWithResponse payload m' in (m'', Future p)
  else match Messenger.postMessage payload m' with
       | (m'', Returned _) => (m'', Sent)
       | (m'', Threw e) => (m'', SendThrew e)
       end.
Proof. reflexivity. Qed.

Lemma core_sendPrepared t a d r m : core (sendPrepared t a d r m).2 = core m.
Proof. unfold sendPrepared. simpl. by rewrite core_log. Qed.

Lemma targetWindow_sendPrepared t a d r m :
  targetWindow (sendPrepared t a d r m).2 = targetWindow m.
Proof. unfold sendPrepared, Messenger.log. simpl. by destruct (cfg_debug _). Qed.

Lemma Inv_send t a d r m : Inv m → Inv (Messenger.send t a d r m).1.
Proof.
  intros HI. rewrite send_unfold.
  pose proof (core_sendPrepared t a d r m) as Hc.
  destruct (sendPrepared t a d r m) as [payload m']. simpl in Hc.
  assert (Inv m') as HI' by (by apply (Inv_core m)).
  destruct r.
  - pose proof (Inv_sendWithResponse payload m' HI').
    by destruct (Messenger.sendWithResponse payload m').
  - pose proof (core_postMessage payload m') as Hp.
    destruct (Messenger.postMessage payload m') as [m'' []]; simpl in *;
      by apply (Inv_core m').
Qed.

Lemma Live_send p t a d r m : Live p m → Live p (Messenger.send t a d r m).1.
Proof.
  intros HL. rewrite send_unfold.
  pose proof (core_sendPrepared t a d r m) as Hc.
  destruct (sendPrepared t a d r m) as [payload m']. simpl in Hc.
  assert (Live p m') as HL' by (by apply (Live_core p m)).
  destruct r.
  - pose proof (Live_sendWithResponse p payload m' HL').
    by destruct (Messenger.sendWithResponse payload m').
  - pose proof (core_postMessage payload m') as Hp.
    destruct (Messenger.postMessage payload m') as [m'' []]; simpl in *;
      by apply (Live_core p m').
Qed.

Lemma send_future t a d m :
  (Messenger.send t a d true m).2 = Future (nextPromise (rt m)).
Proof.
  rewrite send_unfold.
  pose proof (core_sendPrepared t a d true m) as Hc.
  destruct (sendPrepared t a d true m) as [payload m']. simpl in Hc.
  pose proof (sendWithResponse_promise payload m') as Hp.
  destruct (Messenger.sendWithResponse payload m') as [m'' p]. simpl in *.
  subst p. unfold core in Hc. by injection Hc as _ _ _ -> _.
Qed.

Lemma Live_send_new t a d m :
  Inv m → is_Some (targetWindow m) →
  Live (nextPromise (rt m)) (Messenger.send t a d true m).1.
Proof.
  intros HI Hw. rewrite send_unfold.
  pose proof (core_sendPrepared t a d true m) as Hc.
  pose proof (targetWindow_sendPrepared t a d true m) as Ht.
  destruct (sendPrepared t a d true m) as [payload m']. simpl in Hc, Ht.
  assert (Inv m') as HI' by (by apply (Inv_core m)).
  rewrite <- Ht in Hw.
  pose proof (Live_sendWithResponse_new payload m' HI' Hw) as HL.
  destruct (Messenger.sendWithResponse payload m') as [m'' p]. simpl in *.
  unfold core in Hc. by injection Hc as _ _ _ <- _.
Qed.

(** Settling the promise of an armed timer, for a messenger. *)
Lemma Inv_settle m m' t c b o :
  Inv m → timers (rt m) !! t = Some c → three b →
  core m' = (delete (tc_id c) (pendingMessages m), delete t (timers (rt m)),
             nextTimer (rt m), nextPromise (rt m),
             settleCalls (rt m) ++
               [{| sc_promise := tc_promise c; sc_by := b; sc_outcome := o |}]) →
  Inv m'.
Proof.
  intros [HR HA] Ht Hb Hc. unfold core in Hc. injection Hc as Hc1 Hc2 Hc3 Hc4 Hc5.
  unfold Inv. rewrite Hc1, Hc2, Hc3, Hc4, Hc5. split.
  - by apply RtInv_settle.
  - intros i pm Hl. apply lookup_delete_Some in Hl as [Hne Hl]. apply HA in Hl.
    rewrite lookup_delete_ne; [done|]. intros Heq. rewrite <- Heq, Ht in Hl.
    injection Hl as ->. done.
Qed.

Lemma Live_settle p m m' q b o :
  b ≠ ByExecutorThrow → Live p m →
  nextPromise (rt m') = nextPromise (rt m) →
  settleCalls (rt m') = settleCalls (rt m) ++
               [{| sc_promise := q; sc_by := b; sc_outcome := o |}] →
  Live p m'.
Proof.
  intros Hb [Hp Hn] H1 H2. unfold Live. rewrite H1, H2. split; [done|].
  rewrite thrown_snoc; eauto.
Qed.

Lemma Inv_timerFires t m : Inv m → Inv (Messenger.timerFires t m).
Proof.
  intros HI. unfold Messenger.timerFires.
  destruct (timers (rt m) !! t) as [c|] eqn:Ht; [|done].
  eapply (Inv_settle m _ t c ByTimeout); [done|done|unfold three; tauto|].
  reflexivity.
Qed.

Lemma Live_timerFires p t m : Live p m → Live p (Messenger.timerFires t m).
Proof.
  intros HL. unfold Messenger.timerFires.
  destruct (timers (rt m) !! t) as [c|] eqn:Ht; [|done].
  eapply (Live_settle p m); [|done|reflexivity|reflexivity]. done.
Qed.

Lemma Inv_handleResponse payload m :
  Inv m → Inv (Messenger.handleResponse payload m).
Proof.
  intros HI. unfold Messenger.handleResponse.
  destruct (Messenger.prop payload "responseId"); try done.
  destruct (pendingMessages m !! s) as [pm|] eqn:Hs; [|done].
  pose proof HI as [_ HA]. pose proof (HA _ _ Hs) as Ht.
  eapply (Inv_settle m _ (pm_timeout pm)
            {| tc_id := s; tc_promise := pm_promise pm |} ByReply);
    [done|done|unfold three; tauto|].
  reflexivity.
Qed.

Lemma Live_handleResponse p payload m :
  Live p m → Live p (Messenger.handleResponse payload m).
Proof.
  intros HL. unfold Messenger.handleResponse.
  destruct (Messenger.prop payload "responseId"); try done.
  destruct (pendingMessages m !! s) as [pm|] eqn:Hs; [|done].
  eapply (Live_settle p m); [|done|reflexivity|reflexivity]. done.
Qed.

Lemma Inv_handleMessage ev m : Inv m → Inv (Messenger.handleMessage ev m).
Proof.
  intros HI. unfold Messenger.handleMessage.
  destruct (negb _); [by apply (Inv_core m); rewrite ?core_log|].
  destruct (negb _); [by apply (Inv_core m); rewrite ?core_log|].
  assert (Inv (Messenger.log "Received message:" m))
    by (by apply (Inv_core m); rewrite ?core_log).
  destruct (_ && _).
  - by apply Inv_handleResponse.
  - eapply Inv_core; [|done]. by rewrite core_handleIncomingMessage.
Qed.

Lemma Live_handleMessage p ev m : Live p m → Live p (Messenger.handleMessage ev m).
Proof.
  intros HI. unfold Messenger.handleMessage.
  destruct (negb _); [by apply (Live_core p m); rewrite ?core_log|].
  destruct (negb _); [by apply (Live_core p m); rewrite ?core_log|].
  assert (Live p (Messenger.log "Received message:" m))
    by (by apply (Live_core p m); rewrite ?core_log).
  destruct (_ && _).
  - by apply Live_handleResponse.
  - eapply Live_core; [|done]. by rewrite core_handleIncomingMessage.
Qed.

Lemma windowMessage_ind (P : IframeMessenger → Prop) ev :
  (∀ m, P m → P (Messenger.handleMessage ev m)) →
  ∀ m, P m → P (Messenger.windowMessage ev m).
Proof.
  intros Hstep m. unfold Messenger.windowMessage.
  generalize (listeners (rt m)). intros ls. revert m.
  induction ls as [|l ls IH]; intros m Hm; [done|]. simpl. apply IH.
  unfold Messenger.callListener. destruct (Messenger.listenerRuns l); eauto.
Qed.

(** The loop of [destroy] *)
Lemma RtInv_rejectPending entries : ∀ r,
  RtInv (timers r) (nextTimer r) (nextPromise r) (settleCalls r) →
  NoDup entries.*1 →
  (∀ i pm, (i, pm) ∈ entries →
     timers r !! pm_timeout pm = Some {| tc_id := i; tc_promise := pm_promise pm |}) →
  RtInv (timers (foldl Messenger.rejectPending r entries))
        (nextTimer (foldl Messenger.rejectPending r entries))
        (nextPromise (foldl Messenger.rejectPending r entries))
        (settleCalls (foldl Messenger.rejectPending r entries)).
Proof.
  induction entries as [|[i pm] entries IH]; intros r HR Hnd HA; [done|].
  simpl. apply NoDup_cons in Hnd as [Hni Hnd].
  pose proof (HA i pm ltac:(left)) as Ht.
  apply IH; [|done|].
  - unfold Messenger.rejectPending. simpl.
    apply (RtInv_settle _ _ _ _ _ {| tc_id := i; tc_promise := pm_promise pm |});
      [done|done|unfold three; tauto].
  - intros j pm' Hin. unfold Messenger.rejectPending. simpl.
    pose proof (HA j pm' ltac:(by right)) as Ht'.
    rewrite lookup_delete_ne; [done|]. intros Heq. rewrite Heq in Ht.
    rewrite Ht in Ht'. injection Ht' as -> _.
    apply Hni. apply list_elem_of_fmap. by exists (j, pm').
Qed.

Lemma Inv_destroy m : Inv m → Inv (Messenger.destroy m).
Proof.
  intros [HR HA]. unfold Messenger.destroy. split; simpl.
  - apply RtInv_rejectPending; simpl; [done|apply NoDup_fst_map_to_list|].
    intros i pm Hin. apply elem_of_map_to_list in Hin. by apply HA.
  - intros i pm Hl. by rewrite lookup_empty in Hl.
Qed.

Lemma rejectPending_np entries : ∀ r,
  nextPromise (foldl Messenger.rejectPending r entries) = nextPromise r.
Proof. induction entries as [|e es IH]; intros r; [done|]. simpl. by rewrite IH. Qed.

Lemma rejectPending_thrown p entries : ∀ r,
  thrown p (settleCalls (foldl Messenger.rejectPending r entries))
  ↔ thrown p (settleCalls r).
Proof.
  induction entries as [|e es IH]; intros r; [done|]. simpl. rewrite IH.
  unfold Messenger.rejectPending. simpl. apply thrown_snoc. by left.
Qed.

Lemma Live_destroy p m : Live p m → Live p (Messenger.destroy m).
Proof.
  intros [Hp Hn]. unfold Messenger.destroy. split; simpl.
  - by rewrite rejectPending_np.
  - by rewrite rejectPending_thrown.
Qed.

Lemma Inv_step m e : Inv m → Inv (step m e).
Proof.
  intros HI. destruct e; simpl.
  - by apply Inv_send.
  - apply (Inv_core m); [|done]. by rewrite core_respond.
  - done.
  - done.
  - done.
  - apply (Inv_core m); [|done]. by rewrite core_setTargetWindow.
  - by apply Inv_destroy.
  - apply windowMessage_ind; [|done]. intros. by apply Inv_handleMessage.
  - by apply Inv_timerFires.
  - apply (Inv_core m); [|done]. by rewrite core_handlerReturns.
Qed.

Lemma Live_step p m e : Live p m → Live p (step m e).
Proof.
  intros HI. destruct e; simpl.
  - by apply Live_send.
  - apply (Live_core p m); [|done]. by rewrite core_respond.
  - done.
  - done.
  - done.
  - apply (Live_core p m); [|done]. by rewrite core_setTargetWindow.
  - by apply Live_destroy.
  - apply windowMessage_ind; [|done]. intros. by apply Live_handleMessage.
  - by apply Live_timerFires.
  - apply (Live_core p m); [|done]. by rewrite core_handlerReturns.
Qed.

Lemma Inv_run es : ∀ m, Inv m → Inv (run m es).
Proof. induction es as [|e es IH]; intros m Hm; [done|]. simpl. apply IH. by apply Inv_step. Qed.

Lemma Live_run p es : ∀ m, Live p m → Live p (run m es).
Proof. induction es as [|e es IH]; intros m Hm; [done|]. simpl. apply IH. by apply Live_step. Qed.

Lemma Inv_new clock random cfg ih :
  Inv (Messenger.new (newRuntime clock random) cfg ih).
Proof.
  unfold Messenger.new, Messenger.init, Rt.addEventListener. simpl.
  destruct ih; simpl; (split; simpl;
    [split; [by intros ??; rewrite lookup_empty
            |by intros ????; rewrite lookup_empty
            |by intros ? ?%elem_of_nil
            |intros; lia]
    |by intros ??; rewrite lookup_empty]).
Qed.

Lemma Grows_refl m : Grows m m.
Proof. exists []. by rewrite app_nil_r. Qed.

Lemma Grows_trans m1 m2 m3 : Grows m1 m2 → Grows m2 m3 → Grows m1 m3.
Proof. intros [l1 H1] [l2 H2]. exists (l1 ++ l2). by rewrite H2, H1, app_assoc. Qed.

Lemma Grows_core m m' : core m = core m' → Grows m m'.
Proof. unfold core. intros [= _ _ _ _ H]. exists []. by rewrite app_nil_r. Qed.

Lemma Grows_handleMessage ev m : Grows m (Messenger.handleMessage ev m).
Proof.
  unfold Messenger.handleMessage.
  destruct (negb _); [apply Grows_core; by rewrite core_log|].
  destruct (negb _); [apply Grows_core; by rewrite core_log|].
  apply (Grows_trans _ (Messenger.log "Received message:" m));
    [apply Grows_core; by rewrite core_log|].
  destruct (_ && _).
  - unfold Messenger.handleResponse.
    destruct (Messenger.prop _ "responseId"); try apply Grows_refl.
    destruct (pendingMessages _ !! s); [|apply Grows_refl].
    by eexists.
  - apply Grows_core. by rewrite core_handleIncomingMessage.
Qed.

Lemma Grows_rejectPending entries : ∀ r,
  ∃ l, settleCalls (foldl Messenger.rejectPending r entries) = settleCalls r ++ l.
Proof.
  induction entries as [|e es IH]; intros r; [exists []; by rewrite app_nil_r|].
  simpl. destruct (IH (Messenger.rejectPending r e)) as [l Hl].
  rewrite Hl. unfold Messenger.rejectPending. simpl.
  eexists. by rewrite <- app_assoc.
Qed.

Lemma Grows_step m e : Grows m (step m e).
Proof.
  destruct e; simpl.
  - rewrite send_unfold.
    pose proof (core_sendPrepared type_ action_ data_ requiresResponse_ m) as Hc.
    destruct (sendPrepared _ _ _ _ m) as [payload m']. simpl in Hc.
    apply (Grows_trans _ m'); [by apply Grows_core|].
    destruct requiresResponse_.
    + unfold Messenger.sendWithResponse, Messenger.postMessage. simpl.
      destruct (targetWindow m'); simpl;
        [exists []; simpl; by rewrite app_nil_r|by eexists].
    + pose proof (core_postMessage payload m') as Hp.
      destruct (Messenger.postMessage payload m') as [m'' []]; simpl in *;
        by apply Grows_core.
  - apply Grows_core. by rewrite core_respond.
  - by apply Grows_core.
  - by apply Grows_core.
  - by apply Grows_core.
  - apply Grows_core. by rewrite core_setTargetWindow.
  - unfold Messenger.destroy, Grows. simpl.
    apply (Grows_rejectPending _
             (Rt.removeEventListener handleMessage_method (rt m))).
  - apply (windowMessage_ind (Grows m)); [|apply Grows_refl].
    intros m' Hm'. eapply Grows_trans; [done|apply Grows_handleMessage].
  - unfold Messenger.timerFires. destruct (timers _ !! t); [|apply Grows_refl].
    by eexists.
  - apply Grows_core. by rewrite core_handlerReturns.
Qed.

Lemma Grows_run es : ∀ m, Grows m (run m es).
Proof.
  induction es as [|e es IH]; intros m; [apply Grows_refl|]. simpl.
  eapply Grows_trans; [apply Grows_step|apply IH].
Qed.

Lemma callsOn_callsOf p r : callsOn p r = callsOf p (settleCalls r).
Proof. reflexivity. Qed.

(** What the invariant says about one promise. *)
Lemma Inv_once p m :
  Inv m → Live p m →
  (callsOn p (rt m) = [] ∧ armed p (timers (rt m))) ∨
  (∃ c, callsOn p (rt m) = [c] ∧ three (sc_by c) ∧ ¬ armed p (timers (rt m))).
Proof. intros [HR _] [Hp Hn]. by apply (inv_once _ _ _ _ HR). Qed.

Lemma settled_stays p m c es :
  Inv m → Live p m → callsOn p (rt m) = [c] → callsOn p (rt (run m es)) = [c].
Proof.
  intros HI HL Hc.
  destruct (Grows_run es m) as [l Hl].
  pose proof (Inv_once p _ (Inv_run es m HI) (Live_run p es m HL)) as Ho.
  rewrite !callsOn_callsOf in *. rewrite Hl, callsOf_app, Hc in Ho |- *.
  destruct Ho as [[Ho _]|(c' & Ho & _)]; [done|].
  simpl in Ho. injection Ho as <- Ho. by rewrite Ho.
Qed.

Lemma timeout_settles p m t c :
  timers (rt m) !! t = Some c → tc_promise c = p → callsOn p (rt m) = [] →
  callsOn p (rt (step m (TimerFires t)))
  = [{| sc_promise := p; sc_by := ByTimeout;
        sc_outcome := Rejected ("Message timeout after "
                                  +:+ pretty (cfg_timeout (config m)) +:+ "ms") |}].
Proof.
  intros Ht Hp Hc. simpl. unfold Messenger.timerFires. rewrite Ht. simpl.
  rewrite callsOn_callsOf in *. simpl. rewrite callsOf_app, Hc, Hp.
  by rewrite callsOf_one_eq.
Qed.

(** C1 (amended).  Take any messenger, in any state it can reach from its
    construction, and a call [send(type, action, data, true)] made while
    the messenger has a target window.  The call returns the promise made
    by [sendWithResponse], and at every later moment, whatever has
    happened since, one of two things holds.  Either no [resolve] or
    [reject] of that promise has been called yet and its timeout is still
    armed, so that its elapsing rejects the promise; or exactly one call
    has been made, by a reply ([handleResponse]), by the timeout or by
    [destroy], and no other call is ever made afterwards. *)
Theorem C1_settled_exactly_once clock random cfg ih pre ty ac d post :
  let m0 := run (Messenger.new (newRuntime clock random) cfg ih) pre in
  is_Some (targetWindow m0) →
  let p := nextPromise (rt m0) in
  let m := run m0 (CallSend ty ac d true :: post) in
  (Messenger.send ty ac d true m0).2 = Future p ∧
  ((callsOn p (rt m) = [] ∧
    ∃ t c, timers (rt m) !! t = Some c ∧ tc_promise c = p ∧
      ∃ o, callsOn p (rt (step m (TimerFires t)))
           = [{| sc_promise := p; sc_by := ByTimeout; sc_outcome := o |}])
   ∨
   (∃ c, callsOn p (rt m) = [c] ∧
      (sc_by c = ByReply ∨ sc_by c = ByTimeout ∨ sc_by c = ByDestroy) ∧
      ∀ later, callsOn p (rt (run m later)) = [c])).
Proof.
  intros m0 Hw p m.
  assert (HI0 : Inv m0) by apply Inv_run, Inv_new.
  split; [apply send_future|].
  assert (HI : Inv m) by (by apply Inv_run).
  assert (HL : Live p m).
  { subst m. simpl. apply Live_run. by apply Live_send_new. }
  destruct (Inv_once p m HI HL) as [[Hc (t & c & Ht & Hp)]|(c & Hc & H3 & _)].
  - left. split; [done|]. exists t, c. split; [done|]. split; [done|].
    eexists. by apply (timeout_settles p m t c).
  - right. exists c. split; [done|]. split; [done|].
    intros later. by apply settled_stays.
Qed.

Lemma C1_settled_exactly_once_witness :
  let m0 := run (Messenger.new exampleRuntime exampleConfig false) [] in
  let p := nextPromise (rt m0) in
  let m := run m0 [CallSend "data" "request" JUndefined true; TimerFires 0] in
  is_Some (targetWindow m0) ∧
  (Messenger.send "data" "request" JUndefined true m0).2 = Future p ∧
  ((callsOn p (rt m) = [] ∧
    ∃ t c, timers (rt m) !! t = Some c ∧ tc_promise c = p ∧
      ∃ o, callsOn p (rt (step m (TimerFires t)))
           = [{| sc_promise := p; sc_by := ByTimeout; sc_outcome := o |}])
   ∨
   (∃ c, callsOn p (rt m) = [c] ∧
      (sc_by c = ByReply ∨ sc_by c = ByTimeout ∨ sc_by c = ByDestroy) ∧
      ∀ later, callsOn p (rt (run m later)) = [c])).
Proof.
  intros m0 p m.
  assert (Hw : is_Some (targetWindow m0)) by (exists ParentWindow; reflexivity).
  split; [exact Hw|].
  exact (C1_settled_exactly_once exampleClock exampleRandom exampleConfig false []
           "data" "request" JUndefined [TimerFires 0] Hw).
Defined.

(** C1 as stated fails for a host messenger whose frame has not loaded:
    [postMessage] throws inside the promise executor, which rejects the
    promise with that exception; the timeout stays armed and calls
    [reject] once more when it elapses. *)
Lemma C1_counterexample :
  let m0 := Messenger.new exampleRuntime exampleHostConfig true in
  let m1 := run m0 [CallSend "data" "request" JUndefined true] in
  let m2 := run m1 [TimerFires 0] in
  targetWindow m0 = None ∧
  (Messenger.send "data" "request" JUndefined true m0).2 = Future 0 ∧
  callsOn 0 (rt m1)
  = [{| sc_promise := 0; sc_by := ByExecutorThrow;
        sc_outcome := Rejected "Target window not available" |}] ∧
  settledBy 0 (rt m2) = Some ByExecutorThrow ∧
  callsOn 0 (rt m2)
  = [{| sc_promise := 0; sc_by := ByExecutorThrow;
        sc_outcome := Rejected "Target window not available" |};
     {| sc_promise := 0; sc_by := ByTimeout;
        sc_outcome := Rejected "Message timeout after 5000ms" |}].
Proof. vm_compute. done. Qed.

(* ===================================================================== *)
(** ** Inbound dispatch (IframeMessenger) *)
(* ===================================================================== *)

Lemma prop_to_js_id p : Messenger.prop (payload_to_js p) "id" = JStr (id p).
Proof. unfold payload_to_js. destruct (requiresResponse p), (responseId p); reflexivity. Qed.

Lemma prop_to_js_type p : Messenger.prop (payload_to_js p) "type" = JStr (type p).
Proof. unfold payload_to_js. destruct (requiresResponse p), (responseId p); reflexivity. Qed.

Lemma prop_to_js_action p : Messenger.prop (payload_to_js p) "action" = JStr (action p).
Proof. unfold payload_to_js. destruct (requiresResponse p), (responseId p); reflexivity. Qed.

Lemma prop_to_js_data p : Messenger.prop (payload_to_js p) "data" = data p.
Proof. unfold payload_to_js. destruct (requiresResponse p), (responseId p); reflexivity. Qed.

Lemma prop_to_js_timestamp p : Messenger.prop (payload_to_js p) "timestamp" = JNum (timestamp p).
Proof. unfold payload_to_js. destruct (requiresResponse p), (responseId p); reflexivity. Qed.

Lemma prop_to_js_source p :
  Messenger.prop (payload_to_js p) "source" = JStr (Source_to_string (source p)).
Proof. unfold payload_to_js. destruct (requiresResponse p), (responseId p); reflexivity. Qed.

Lemma prop_to_js_requiresResponse p :
  Messenger.prop (payload_to_js p) "requiresResponse"
  = from_option JBool JUndefined (requiresResponse p).
Proof. unfold payload_to_js. destruct (requiresResponse p), (responseId p); reflexivity. Qed.

Lemma prop_to_js_responseId p :
  Messenger.prop (payload_to_js p) "responseId"
  = from_option JStr JUndefined (responseId p).
Proof. unfold payload_to_js. destruct (requiresResponse p), (responseId p); reflexivity. Qed.

Lemma isValidPayload_to_js p : Messenger.isValidPayload (payload_to_js p) = true.
Proof.
  unfold Messenger.isValidPayload.
  rewrite prop_to_js_id, prop_to_js_type, prop_to_js_action, prop_to_js_timestamp,
    prop_to_js_source.
  by destruct (source p).
Qed.

Lemma sameButConsole_refl m : sameButConsole m m.
Proof. exists (console (rt m)). by destruct m as [? ? ? ? ? []]. Qed.

Lemma sameButConsole_trans m1 m2 m3 :
  sameButConsole m1 m2 → sameButConsole m2 m3 → sameButConsole m1 m3.
Proof. intros [c1 ->] [c2 ->]. by exists c2. Qed.

Lemma sameButConsole_log l m : sameButConsole m (Messenger.log l m).
Proof.
  unfold Messenger.log. destruct (cfg_debug _); [by eexists|apply sameButConsole_refl].
Qed.

Lemma handleMessage_foreign event m :
  ev_origin event ≠ cfg_targetOrigin (config m) →
  Messenger.handleMessage event m = Messenger.log "Message from unauthorized origin:" m.
Proof.
  intros Hne. unfold Messenger.handleMessage.
  destruct (String.eqb_spec (ev_origin event) (cfg_targetOrigin (config m))); done.
Qed.

Lemma windowMessage_foreign event m :
  ev_origin event ≠ cfg_targetOrigin (config m) →
  sameButConsole m (Messenger.windowMessage event m) ∧
  (cfg_debug (config m) = false → Messenger.windowMessage event m = m).
Proof.
  intros Hne. unfold Messenger.windowMessage.
  generalize (listeners (rt m)). intros ls.
  assert (H : ∀ m', sameButConsole m m' →
            sameButConsole m (foldl (Messenger.callListener event) m' ls) ∧
            (cfg_debug (config m) = false → m' = m →
             foldl (Messenger.callListener event) m' ls = m)).
  { induction ls as [|l ls IH]; intros m' Hm'; [done|]. simpl.
    assert (Hstep : sameButConsole m (Messenger.callListener event m' l) ∧
                    (cfg_debug (config m) = false → m' = m →
                     Messenger.callListener event m' l = m)).
    { unfold Messenger.callListener. destruct (Messenger.listenerRuns l); [|done].
      rewrite handleMessage_foreign by (by destruct Hm' as [c ->]).
      split.
      - eapply sameButConsole_trans; [done|apply sameButConsole_log].
      - intros Hd ->. unfold Messenger.log. by rewrite Hd. }
    destruct Hstep as [H1 H2]. destruct (IH _ H1) as [H3 H4].
    split; [done|]. intros Hd ->. apply H4; [done|]. by apply H2. }
  destruct (H m (sameButConsole_refl m)) as [H1 H2]. split; [done|]. auto.
Qed.

(** The same for a context manager: the bodies of its handlers do not
    run, so it is unchanged but for its messenger's console. *)
Lemma Context_windowMessage_foreign event cm :
  ev_origin event ≠ cfg_targetOrigin (config (messenger cm)) →
  Context.windowMessage event cm
  = Context.with_messenger (Messenger.windowMessage event (messenger cm)) cm.
Proof.
  intros Hne. unfold Context.windowMessage, Messenger.windowMessage.
  generalize (listeners (rt (messenger cm))). intros ls.
  assert (H : ∀ m', sameButConsole (messenger cm) m' →
            foldl (Context.deliver event) (Context.with_messenger m' cm, []) ls
            = (Context.with_messenger
                 (foldl (Messenger.callListener event) m' ls) cm, [])).
  { induction ls as [|l ls IH]; intros m' Hm'; [done|].
    cbn [foldl]. rewrite <- IH.
    - f_equal. unfold Context.deliver.
      cbn [messenger Context.with_messenger context contextHistory].
      assert (Hc : handlerCalls (rt (Messenger.callListener event m' l))
                   = handlerCalls (rt m')).
      { unfold Messenger.callListener. destruct (Messenger.listenerRuns l); [|done].
        rewrite handleMessage_foreign by (by destruct Hm' as [c ->]).
        unfold Messenger.log. by destruct (cfg_debug _). }
      rewrite Hc, lookup_ge_None_2 by done. done.
    - unfold Messenger.callListener. destruct (Messenger.listenerRuns l); [|done].
      rewrite handleMessage_foreign by (by destruct Hm' as [c ->]).
      eapply sameButConsole_trans; [done|apply sameButConsole_log]. }
  specialize (H (messenger cm) (sameButConsole_refl _)).
  replace (Context.with_messenger (messenger cm) cm) with cm in H
    by (by destruct cm).
  by rewrite H.
Qed.

(** C2.  A message event whose origin is not the configured target origin
    changes nothing but the console (and not even that unless [debug] is
    set): no handler is invoked, no pending request is settled or
    removed, no timer is touched and nothing is posted.  A context
    manager built on the messenger is left as it is as well. *)
Theorem C2_foreign_origin_dropped m event :
  ev_origin event ≠ cfg_targetOrigin (config m) →
  let m' := step m (WindowMessage event) in
  handlerCalls (rt m') = handlerCalls (rt m) ∧
  awaiting (rt m') = awaiting (rt m) ∧
  settleCalls (rt m') = settleCalls (rt m) ∧
  pendingMessages m' = pendingMessages m ∧
  timers (rt m') = timers (rt m) ∧
  posted (rt m') = posted (rt m) ∧
  messageHandlers m' = messageHandlers m ∧
  (∃ c, m' = Messenger.with_rt (Rt.with_console c (rt m)) m) ∧
  (cfg_debug (config m) = false → m' = m) ∧
  (∀ c h,
     Context.windowMessage event
       {| context := c; messenger := m; contextHistory := h |}
     = {| context := c; messenger := m'; contextHistory := h |}).
Proof.
  intros Hne m'. subst m'. simpl.
  destruct (windowMessage_foreign event m Hne) as [[c Hc] Hd].
  rewrite Hc. simpl. repeat (split; [done|]). split; [by exists c|].
  split.
  - intros Hdbg. rewrite <- Hc. by apply Hd.
  - intros c0 h0. rewrite Context_windowMessage_foreign by done.
    cbn [messenger]. by rewrite Hc.
Qed.

Lemma C2_foreign_origin_dropped_witness :
  let m := (Messenger.send "data" "request" JUndefined true
              (Messenger.onAction "data" "request" (user_handler "answer")
                 exampleGuestMessenger)).1 in
  let event := {| ev_origin := "https://elsewhere.example";
                  ev_data := payload_to_js exampleRequest |} in
  let m' := step m (WindowMessage event) in
  ev_origin event ≠ cfg_targetOrigin (config m) ∧
  handlerCalls (rt m') = handlerCalls (rt m) ∧
  awaiting (rt m') = awaiting (rt m) ∧
  settleCalls (rt m') = settleCalls (rt m) ∧
  pendingMessages m' = pendingMessages m ∧
  timers (rt m') = timers (rt m) ∧
  posted (rt m') = posted (rt m) ∧
  messageHandlers m' = messageHandlers m ∧
  (∃ c, m' = Messenger.with_rt (Rt.with_console c (rt m)) m) ∧
  (cfg_debug (config m) = false → m' = m) ∧
  (∀ c h,
     Context.windowMessage event
       {| context := c; messenger := m; contextHistory := h |}
     = {| context := c; messenger := m'; contextHistory := h |}).
Proof.
  intros m event m'.
  assert (Hne : ev_origin event ≠ cfg_targetOrigin (config m))
    by (vm_compute; discriminate).
  split; [exact Hne|].
  exact (C2_foreign_origin_dropped m event Hne).
Defined.

Lemma respond_posted i d m w :
  targetWindow m = Some w →
  posted (rt (Messenger.respond i d m).1)
  = posted (rt m) ++ [{| po_window := w; po_payload := responsePayload i d m;
                         po_targetOrigin := cfg_targetOrigin (config m) |}].
Proof.
  intros Hw. unfold Messenger.respond, Messenger.postMessage, Messenger.log. simpl.
  destruct (cfg_debug (config m)); simpl; rewrite Hw; reflexivity.
Qed.

Lemma log_posted l m : posted (rt (Messenger.log l m)) = posted (rt m).
Proof. unfold Messenger.log. by destruct (cfg_debug _). Qed.

Lemma log_other l m :
  targetWindow (Messenger.log l m) = targetWindow m ∧
  messageHandlers (Messenger.log l m) = messageHandlers m ∧
  config (Messenger.log l m) = config m ∧
  isHost (Messenger.log l m) = isHost m ∧
  pendingMessages (Messenger.log l m) = pendingMessages m ∧
  handlerCalls (rt (Messenger.log l m)) = handlerCalls (rt m) ∧
  dateNow (rt (Messenger.log l m)) = dateNow (rt m) ∧
  nowCalls (rt (Messenger.log l m)) = nowCalls (rt m) ∧
  mathRandom (rt (Messenger.log l m)) = mathRandom (rt m) ∧
  randomCalls (rt (Messenger.log l m)) = randomCalls (rt m).
Proof. unfold Messenger.log. by destruct (cfg_debug _). Qed.

Lemma responsePayload_log i d l m :
  responsePayload i d (Messenger.log l m) = responsePayload i d m.
Proof. unfold responsePayload, Messenger.thisSource, Messenger.log. by destruct (cfg_debug _). Qed.

Lemma respond_handlerCalls i d m :
  handlerCalls (rt (Messenger.respond i d m).1) = handlerCalls (rt m).
Proof.
  unfold Messenger.respond, Messenger.postMessage, Messenger.log. simpl.
  destruct (cfg_debug (config m)); simpl; by destruct (targetWindow m).
Qed.

(** A request that needs a reply and has no handler is answered with the
    error object. *)
Lemma handleMessage_no_handler event m w :
  ev_origin event = cfg_targetOrigin (config m) →
  Messenger.isValidPayload (ev_data event) = true →
  strict_eq_string (Messenger.prop (ev_data event) "type") "response"
    && truthy (Messenger.prop (ev_data event) "responseId") = false →
  truthy (Messenger.prop (ev_data event) "requiresResponse") = true →
  messageHandlers m !! (Messenger.string_of (Messenger.prop (ev_data event) "type")
                          +:+ ":" +:+
                        Messenger.string_of (Messenger.prop (ev_data event) "action"))
    = None →
  messageHandlers m !! Messenger.string_of (Messenger.prop (ev_data event) "type")
    = None →
  targetWindow m = Some w →
  let m' := Messenger.handleMessage event m in
  posted (rt m')
  = posted (rt m) ++
      [{| po_window := w;
          po_payload :=
            responsePayload
              (Messenger.string_of (Messenger.prop (ev_data event) "id"))
              noHandlerError m;
          po_targetOrigin := cfg_targetOrigin (config m) |}] ∧
  handlerCalls (rt m') = handlerCalls (rt m).
Proof.
  intros Ho Hv Hreq Hrr Ha Ht Hw m'. subst m'.
  unfold Messenger.handleMessage.
  rewrite Ho, String.eqb_refl, Hv, Hreq. simpl.
  unfold Messenger.handleIncomingMessage.
  destruct (log_other "Received message:" m) as (T1 & T2 & T3 & _ & _ & T6 & _).
  rewrite T2, Ha, Ht, Hrr.
  set (m1 := Messenger.log "No handler found for message:"
               (Messenger.log "Received message:" m)).
  assert (Hw1 : targetWindow m1 = Some w).
  { subst m1. destruct (log_other "No handler found for message:"
                          (Messenger.log "Received message:" m)) as (-> & _). congruence. }
  split.
  - rewrite (respond_posted _ _ m1 w Hw1). subst m1.
    rewrite !log_posted, !responsePayload_log.
    destruct (log_other "No handler found for message:"
                (Messenger.log "Received message:" m)) as (_ & _ & -> & _).
    by rewrite T3.
  - rewrite respond_handlerCalls. subst m1.
    destruct (log_other "No handler found for message:"
                (Messenger.log "Received message:" m)) as (_ & _ & _ & _ & _ & -> & _).
    done.
Qed.

(** A reply that reaches the sender while the request is pending settles
    the request's promise and disarms its timer. *)
Lemma handleMessage_reply s reply pm rid :
  responseId reply = Some rid → rid ≠ "" → type reply = "response" →
  pendingMessages s !! rid = Some pm →
  let event := {| ev_origin := cfg_targetOrigin (config s);
                  ev_data := payload_to_js reply |} in
  let s' := Messenger.handleMessage event s in
  settleCalls (rt s')
  = settleCalls (rt s) ++
      [{| sc_promise := pm_promise pm; sc_by := ByReply;
          sc_outcome := Resolved (data reply) |}] ∧
  timers (rt s') = delete (pm_timeout pm) (timers (rt s)) ∧
  pendingMessages s' = delete rid (pendingMessages s).
Proof.
  intros Hrid Hne Hty Hp event s'. subst s' event.
  unfold Messenger.handleMessage. simpl.
  rewrite String.eqb_refl, isValidPayload_to_js. simpl.
  rewrite prop_to_js_type, prop_to_js_responseId, Hty, Hrid. simpl.
  destruct (String.eqb_spec rid ""); [done|]. simpl.
  unfold Messenger.handleResponse.
  rewrite prop_to_js_responseId, Hrid, prop_to_js_data. simpl.
  destruct (log_other "Received message:" s) as (_ & _ & _ & _ & -> & _).
  rewrite Hp. simpl. unfold Messenger.log. by destruct (cfg_debug _).
Qed.

Lemma append_dash_nonempty a b : a +:+ "-" +:+ b ≠ "".
Proof. by destruct a. Qed.

Lemma send_awaiting_reply t a d m w :
  targetWindow m = Some w →
  let m1 := (Messenger.send t a d true m).1 in
  let req := requestPayload t a d true m in
  posted (rt m1)
  = posted (rt m) ++ [{| po_window := w; po_payload := req;
                         po_targetOrigin := cfg_targetOrigin (config m) |}] ∧
  pendingMessages m1
  = <[id req := {| pm_promise := nextPromise (rt m);
                   pm_timeout := nextTimer (rt m) |}]> (pendingMessages m) ∧
  settleCalls (rt m1) = settleCalls (rt m) ∧
  config m1 = config m.
Proof.
  intros Hw. unfold Messenger.send, Messenger.sendWithResponse,
    Messenger.postMessage, Messenger.log. simpl.
  destruct (cfg_debug (config m)); simpl; rewrite Hw; simpl; done.
Qed.

(** C7 (amended).  A sender with a target window sends a request that
    needs a reply; the envelope reaches a messenger [m] that has a target
    window and no handler under the keys [type:action] and [type].  Then
    [m] invokes nothing and posts one reply envelope, whose [responseId]
    is the id of the request and whose payload is
    [{ error: 'No handler found' }].  When that reply reaches the sender
    while the request is still in its pending table, the sender's promise
    is resolved with that object, by the reply, and no other call is ever
    made on it: its timeout no longer settles it. *)
Theorem C7_no_handler_reply clock random cfg ih pre ty ac d mid m w t :
  let s0 := run (Messenger.new (newRuntime clock random) cfg ih) pre in
  let p := nextPromise (rt s0) in
  let req := requestPayload ty ac d true s0 in
  let s1 := (Messenger.send ty ac d true s0).1 in
  let m' := Messenger.handleMessage
              {| ev_origin := cfg_targetOrigin (config m);
                 ev_data := payload_to_js req |} m in
  let reply := responsePayload (id req) noHandlerError m in
  let s := run s1 mid in
  let s' := Messenger.handleMessage
              {| ev_origin := cfg_targetOrigin (config s);
                 ev_data := payload_to_js reply |} s in
  let settled := {| sc_promise := p; sc_by := ByReply;
                    sc_outcome := Resolved noHandlerError |} in
  is_Some (targetWindow s0) →
  messageHandlers m !! (ty +:+ ":" +:+ ac) = None →
  messageHandlers m !! ty = None →
  targetWindow m = Some w →
  pendingMessages s !! id req = Some {| pm_promise := p; pm_timeout := t |} →
  (Messenger.send ty ac d true s0).2 = Future p ∧
  (∃ ws, posted (rt s1)
         = posted (rt s0) ++ [{| po_window := ws; po_payload := req;
                                 po_targetOrigin := cfg_targetOrigin (config s0) |}]) ∧
  posted (rt m')
  = posted (rt m) ++ [{| po_window := w; po_payload := reply;
                         po_targetOrigin := cfg_targetOrigin (config m) |}] ∧
  handlerCalls (rt m') = handlerCalls (rt m) ∧
  data reply = JObj {[ "error" := JStr "No handler found" ]} ∧
  responseId reply = Some (id req) ∧
  callsOn p (rt s') = [settled] ∧
  ∀ later, callsOn p (rt (run s' later)) = [settled].
Proof.
  intros s0 p req s1 m' reply s s' settled [ws Hws] Ha Ht Hw Hpend.
  assert (HI0 : Inv s0) by apply Inv_run, Inv_new.
  destruct (send_awaiting_reply ty ac d s0 ws Hws) as (Hposted & _ & _ & _).
  split; [apply send_future|].
  split; [by exists ws|].
  assert (Hm' : posted (rt m') = posted (rt m) ++
            [{| po_window := w; po_payload := reply;
                po_targetOrigin := cfg_targetOrigin (config m) |}] ∧
          handlerCalls (rt m') = handlerCalls (rt m)).
  { pose proof (handleMessage_no_handler
                  {| ev_origin := cfg_targetOrigin (config m);
                     ev_data := payload_to_js req |} m w) as H.
    simpl in H.
    rewrite isValidPayload_to_js, prop_to_js_type, prop_to_js_action,
      prop_to_js_id, prop_to_js_responseId, prop_to_js_requiresResponse in H.
    simpl in H. rewrite andb_false_r in H. by apply H. }
  destruct Hm' as [Hm1 Hm2]. split; [done|]. split; [done|].
  split; [done|]. split; [done|].
  assert (HI : Inv s) by (subst s s1; apply Inv_run; by apply Inv_send).
  assert (HL : Live p s).
  { subst s s1. apply Live_run. apply Live_send_new; [done|by exists ws]. }
  assert (Hnil : callsOn p (rt s) = []).
  { destruct (Inv_once p s HI HL) as [[Hc _]|(c & _ & _ & Hna)]; [done|].
    exfalso. apply Hna. destruct HI as [_ HA]. apply HA in Hpend.
    by eexists _, _. }
  destruct (handleMessage_reply s reply _ (id req) eq_refl
              (append_dash_nonempty _ _) eq_refl Hpend) as (Hsc & _ & _).
  assert (Hs' : callsOn p (rt s') = [settled]).
  { rewrite callsOn_callsOf in *. subst s'. rewrite Hsc, callsOf_app, Hnil.
    simpl. by rewrite callsOf_one_eq. }
  split; [done|].
  intros later. apply settled_stays; [| |done].
  - by apply Inv_handleMessage.
  - by apply Live_handleMessage.
Qed.

Lemma C7_no_handler_reply_witness :
  let s0 := run (Messenger.new exampleRuntime exampleConfig false) [] in
  let m := exampleLoadedHostMessenger in
  let w := ContentWindow 0 in
  let p := nextPromise (rt s0) in
  let req := requestPayload "data" "request" JUndefined true s0 in
  let s1 := (Messenger.send "data" "request" JUndefined true s0).1 in
  let m' := Messenger.handleMessage
              {| ev_origin := cfg_targetOrigin (config m);
                 ev_data := payload_to_js req |} m in
  let reply := responsePayload (id req) noHandlerError m in
  let s := run s1 [] in
  let s' := Messenger.handleMessage
              {| ev_origin := cfg_targetOrigin (config s);
                 ev_data := payload_to_js reply |} s in
  let settled := {| sc_promise := p; sc_by := ByReply;
                    sc_outcome := Resolved noHandlerError |} in
  (is_Some (targetWindow s0) ∧
   messageHandlers m !! ("data" +:+ ":" +:+ "request") = None ∧
   messageHandlers m !! "data" = None ∧
   targetWindow m = Some w ∧
   pendingMessages s !! id req = Some {| pm_promise := p; pm_timeout := 0 |}) ∧
  (Messenger.send "data" "request" JUndefined true s0).2 = Future p ∧
  (∃ ws, posted (rt s1)
         = posted (rt s0) ++ [{| po_window := ws; po_payload := req;
                                 po_targetOrigin := cfg_targetOrigin (config s0) |}]) ∧
  posted (rt m')
  = posted (rt m) ++ [{| po_window := w; po_payload := reply;
                         po_targetOrigin := cfg_targetOrigin (config m) |}] ∧
  handlerCalls (rt m') = handlerCalls (rt m) ∧
  data reply = JObj {[ "error" := JStr "No handler found" ]} ∧
  responseId reply = Some (id req) ∧
  callsOn p (rt s') = [settled] ∧
  ∀ later, callsOn p (rt (run s' later)) = [settled].
Proof.
  intros s0 m w p req s1 m' reply s s' settled.
  assert (H1 : is_Some (targetWindow s0)) by (exists ParentWindow; reflexivity).
  assert (H2 : messageHandlers m !! ("data" +:+ ":" +:+ "request") = None)
    by (vm_compute; reflexivity).
  assert (H3 : messageHandlers m !! "data" = None) by (vm_compute; reflexivity).
  assert (H4 : targetWindow m = Some w) by (vm_compute; reflexivity).
  assert (H5 : pendingMessages s !! id req
               = Some {| pm_promise := p; pm_timeout := 0 |})
    by (vm_compute; reflexivity).
  split; [exact (conj H1 (conj H2 (conj H3 (conj H4 H5))))|].
  exact (C7_no_handler_reply exampleClock exampleRandom exampleConfig false []
           "data" "request" JUndefined [] m w 0 H1 H2 H3 H4 H5).
Defined.

(** C7 as stated fails for a host messenger whose frame has not loaded:
    [respond] throws in [postMessage], inside the [async]
    [handleIncomingMessage]; no reply is sent. *)
Lemma C7_counterexample :
  let m := Messenger.new exampleRuntime exampleHostConfig true in
  let event := {| ev_origin := "https://guest.example";
                  ev_data := payload_to_js exampleGuestRequest |} in
  let m' := step m (WindowMessage event) in
  Messenger.isValidPayload (ev_data event) = true ∧
  ev_origin event = cfg_targetOrigin (config m) ∧
  Messenger.prop (ev_data event) "requiresResponse" = JBool true ∧
  messageHandlers m !! "data:request" = None ∧
  messageHandlers m !! "data" = None ∧
  targetWindow m = None ∧
  handlerCalls (rt m') = [] ∧
  posted (rt m') = [].
Proof. vm_compute. done. Qed.

(** *** The subscription to message events *)

Lemma listeners_log l m : listeners (rt (Messenger.log l m)) = listeners (rt m).
Proof. unfold Messenger.log. by destruct (cfg_debug _). Qed.

Lemma listeners_postMessage payload m :
  listeners (rt (Messenger.postMessage payload m).1) = listeners (rt m).
Proof. unfold Messenger.postMessage. by destruct (targetWindow m). Qed.

Lemma listeners_respond i d m :
  listeners (rt (Messenger.respond i d m).1) = listeners (rt m).
Proof.
  unfold Messenger.respond. simpl. by rewrite listeners_postMessage, listeners_log.
Qed.

Lemma listeners_send t a d r m :
  listeners (rt (Messenger.send t a d r m).1) = listeners (rt m).
Proof.
  rewrite send_unfold. unfold sendPrepared. simpl.
  set (m' := Messenger.log _ _).
  assert (Hm' : listeners (rt m') = listeners (rt m)) by (subst m'; by rewrite listeners_log).
  clearbody m'. destruct r.
  - unfold Messenger.sendWithResponse, Messenger.postMessage. simpl.
    by destruct (targetWindow m').
  - pose proof (listeners_postMessage
                  {| id := pretty (dateNow (rt m) (nowCalls (rt m))) +:+ "-"
                             +:+ mathRandom (rt m) (randomCalls (rt m));
                     type := t; action := a; data := d;
                     timestamp := dateNow (rt m) (S (nowCalls (rt m)));
                     requiresResponse := Some false; responseId := None;
                     source := Messenger.thisSource
                                 (Messenger.with_rt (Rt.Date_now (rt (Messenger.generateId m).2)).2
                                    (Messenger.generateId m).2);
                     targetOrigin := cfg_targetOrigin (config m) |} m') as Hp.
    simpl in *.
    destruct (Messenger.postMessage _ m') as [m'' []]; simpl in *; congruence.
Qed.

Lemma listeners_handleMessage ev m :
  listeners (rt (Messenger.handleMessage ev m)) = listeners (rt m).
Proof.
  unfold Messenger.handleMessage.
  destruct (negb _); [apply listeners_log|].
  destruct (negb _); [apply listeners_log|].
  destruct (_ && _).
  - unfold Messenger.handleResponse.
    destruct (Messenger.prop _ "responseId"); try apply listeners_log.
    destruct (pendingMessages _ !! s); simpl; apply listeners_log.
  - unfold Messenger.handleIncomingMessage.
    destruct (messageHandlers _ !! _); [apply listeners_log|].
    destruct (messageHandlers _ !! _); [apply listeners_log|].
    destruct (truthy _); rewrite ?listeners_respond, !listeners_log; done.
Qed.

Lemma listeners_rejectPending entries : ∀ r,
  listeners (foldl Messenger.rejectPending r entries) = listeners r.
Proof. induction entries as [|e es IH]; intros r; [done|]. simpl. by rewrite IH. Qed.

Lemma listeners_step m e :
  listeners (rt m) = [bound 0 handleMessage_method] →
  listeners (rt (step m e)) = [bound 0 handleMessage_method].
Proof.
  intros Hl. destruct e; simpl.
  - by rewrite listeners_send.
  - by rewrite listeners_respond.
  - done.
  - done.
  - done.
  - unfold Messenger.setTargetWindow. destruct contentWindow; [|done].
    by destruct (isHost m).
  - unfold Messenger.destroy. simpl. rewrite listeners_rejectPending. simpl.
    by rewrite Hl.
  - apply (windowMessage_ind (λ m', listeners (rt m') = _)); [|done].
    intros m' Hm'. by rewrite listeners_handleMessage.
  - unfold Messenger.timerFires. by destruct (timers _ !! t).
  - unfold Messenger.handlerReturns. destruct (decide _); [|done].
    destruct (handlerCalls _ !! k); [|done]. destruct result; [|done].
    destruct (truthy _); [|done]. by rewrite listeners_respond.
Qed.

Lemma listeners_run es : ∀ m,
  listeners (rt m) = [bound 0 handleMessage_method] →
  listeners (rt (run m es)) = [bound 0 handleMessage_method].
Proof.
  induction es as [|e es IH]; intros m Hm; [done|]. simpl. apply IH.
  by apply listeners_step.
Qed.

Lemma listeners_new clock random cfg ih :
  listeners (rt (Messenger.new (newRuntime clock random) cfg ih))
  = [bound 0 handleMessage_method].
Proof. unfold Messenger.new, Messenger.init. simpl. by destruct ih. Qed.

(** C5 (the code does not do this).  [init] subscribes
    [this.handleMessage.bind(this)] and [destroy] unsubscribes
    [this.handleMessage], another function object, so the subscription
    stays: after [destroy], at any later moment, a message event still
    runs [handleMessage].  In the example a request received after
    [destroy] is answered (with the 'No handler found' error), and a
    handler registered after [destroy] is invoked. *)
Theorem C5_destroy_keeps_listening :
  (∀ clock random cfg ih pre post event,
     let m := run (Messenger.new (newRuntime clock random) cfg ih)
                (pre ++ CallDestroy :: post) in
     listeners (rt m) = [bound 0 handleMessage_method] ∧
     step m (WindowMessage event) = Messenger.handleMessage event m) ∧
  (let m := run exampleGuestMessenger
              [CallDestroy; WindowMessage (fromHost exampleRequest)] in
   po_payload <$> posted (rt m)
   = [{| id := "1700000000000-k3j9x2q0"; type := "response";
         action := "message_response";
         data := JObj {[ "error" := JStr "No handler found" ]};
         timestamp := 1700000000001; requiresResponse := None;
         responseId := Some "1700000000500-abc123xyz"; source := iframe;
         targetOrigin := "https://host.example" |}]) ∧
  (let m := run exampleGuestMessenger
              [CallDestroy; CallOnAction "data" "request" (user_handler "late");
               WindowMessage (fromHost exampleRequest)] in
   handlerCalls (rt m)
   = [{| hc_handler := user_handler "late";
         hc_payload := payload_to_js exampleRequest |}]).
Proof.
  split; [|split].
  - intros clock random cfg ih pre post event m.
    assert (Hl : listeners (rt m) = [bound 0 handleMessage_method])
      by apply listeners_run, listeners_new.
    split; [done|]. simpl. unfold Messenger.windowMessage. by rewrite Hl.
  - vm_compute. reflexivity.
  - vm_compute. reflexivity.
Qed.

(* ===================================================================== *)
(** ** Context, history and breadcrumbs (ContextManager) *)
(* ===================================================================== *)

Lemma updateContext_context u n cm :
  context (Context.updateContext u n cm).1
  = <["updatedAt" := JNum (reading cm)]> (spread (Context.heap cm) u ∪ context cm).
Proof.
  unfold Context.updateContext, Context.now. simpl.
  destruct n; [|done]. by destruct (Messenger.send _ _ _ _ _) as [m []].
Qed.

Lemma updateContext_history u n cm :
  contextHistory (Context.updateContext u n cm).1
  = contextHistory (Context.addToHistory cm).
Proof.
  unfold Context.updateContext, Context.now. simpl.
  destruct n; [|done]. by destruct (Messenger.send _ _ _ _ _) as [m []].
Qed.

Lemma addToHistory_lastN cm :
  length (contextHistory cm) ≤ maxHistorySize →
  contextHistory (Context.addToHistory cm)
  = lastN maxHistorySize (contextHistory cm ++ [context cm]).
Proof.
  intros Hle. unfold Context.addToHistory, lastN. simpl.
  rewrite length_app. simpl.
  destruct (Nat.ltb_spec maxHistorySize (length (contextHistory cm) + 1)).
  - replace (length (contextHistory cm) + 1 - maxHistorySize) with 1 by lia. done.
  - replace (length (contextHistory cm) + 1 - maxHistorySize) with 0 by lia. done.
Qed.

Lemma addToHistory_bound cm :
  length (contextHistory cm) ≤ maxHistorySize →
  length (contextHistory (Context.addToHistory cm)) ≤ maxHistorySize.
Proof.
  intros Hle. unfold Context.addToHistory. simpl.
  destruct (Nat.ltb_spec maxHistorySize (length (contextHistory cm ++ [context cm]))) as [H|H].
  - rewrite length_drop, length_app. simpl. lia.
  - done.
Qed.

Lemma syncContext_history r cm :
  contextHistory (Context.syncContext r cm).1 = contextHistory cm.
Proof.
  unfold Context.syncContext, Context.now. destruct (truthy r); [done|].
  by destruct (Messenger.send _ _ _ _ _) as [m []].
Qed.

Lemma syncContext_context r cm :
  truthy r = true →
  context (Context.syncContext r cm).1
  = <["updatedAt" := JNum (reading cm)]> (spread (Context.heap cm) r ∪ context cm).
Proof. intros Hr. unfold Context.syncContext, Context.now. by rewrite Hr. Qed.

Lemma syncContextSettled_history o cm :
  contextHistory (Context.syncContextSettled o cm) = contextHistory cm.
Proof. destruct o as [v|]; [|done]. simpl. by destruct (truthy v). Qed.

Lemma syncContextSettled_context v cm :
  truthy v = true →
  context (Context.syncContextSettled (Resolved v) cm)
  = <["updatedAt" := JNum (reading cm)]> (spread (Context.heap cm) v ∪ context cm).
Proof. intros Hr. simpl. by rewrite Hr. Qed.

Lemma lastN_app_lastN {A} k (l r : list A) :
  lastN k (lastN k l ++ r) = lastN k (l ++ r).
Proof.
  unfold lastN. rewrite !length_app, length_drop.
  destruct (decide (length l ≤ k)) as [Hle|Hgt].
  - replace (length l - k) with 0 by lia. simpl. by rewrite Nat.sub_0_r.
  - replace (length l - (length l - k) + length r - k) with (length r) by lia.
    replace (length l + length r - k) with ((length l - k) + length r) by lia.
    rewrite <- drop_drop. f_equal. rewrite drop_app_le by lia. done.
Qed.

Lemma lastN_length {A} k (l : list A) : length (lastN k l) ≤ k.
Proof. unfold lastN. rewrite length_drop. lia. Qed.

Lemma contextsBefore_length us : ∀ cm, length (contextsBefore us cm) = length us.
Proof. induction us as [|[u n] us IH]; intros cm; simpl; [done|]. by rewrite IH. Qed.

Lemma updateAll_history us : ∀ cm,
  length (contextHistory cm) ≤ maxHistorySize →
  contextHistory (updateAll us cm)
  = lastN maxHistorySize (contextHistory cm ++ contextsBefore us cm).
Proof.
  induction us as [|[u n] us IH]; intros cm Hle; simpl.
  - rewrite app_nil_r. unfold lastN.
    replace (length (contextHistory cm) - maxHistorySize) with 0 by lia. done.
  - rewrite IH.
    + rewrite updateContext_history, addToHistory_lastN by done.
      rewrite lastN_app_lastN. by rewrite <- app_assoc.
    + rewrite updateContext_history. by apply addToHistory_bound.
Qed.

Lemma Bounded_updateContext u n cm :
  Bounded cm → Bounded (Context.updateContext u n cm).1.
Proof. intros H. unfold Bounded. rewrite updateContext_history. by apply addToHistory_bound. Qed.

Lemma Bounded_history cm cm' :
  contextHistory cm' = contextHistory cm → Bounded cm → Bounded cm'.
Proof. unfold Bounded. by intros ->. Qed.

Lemma Bounded_updateNavigation v cm :
  Bounded cm → Bounded (Context.updateNavigation v cm).1.
Proof. apply Bounded_updateContext. Qed.

Lemma Bounded_navigate r p s cm :
  Bounded cm → Bounded (Context.navigate r p s cm).1.
Proof.
  intros H. unfold Context.navigate.
  destruct (get _ _); [|done].
  pose proof (Bounded_updateNavigation
                (JObj (<["previousRoute" := j]> (<["currentRoute" := r]>
                      (<["params" := p]> (<["state" := s]> ∅))))) cm H) as H'.
  destruct (Context.updateNavigation _ cm) as [cm' []]; [|done].
  by destruct (Messenger.send _ _ _ _ _) as [m []].
Qed.

Lemma Bounded_goBack cm : Bounded cm → Bounded (Context.goBack cm).1.
Proof.
  intros H. unfold Context.goBack. destruct (get _ _); [|done].
  pose proof (Bounded_navigate (if truthy j then j else JStr "/")
                JUndefined JUndefined cm H) as H'.
  destruct (Context.navigate _ _ _ cm) as [cm' []]; [|done].
  by destruct (Messenger.send _ _ _ _ _) as [m []].
Qed.

Lemma Bounded_addBreadcrumb l p ps cm :
  Bounded cm → Bounded (Context.addBreadcrumb l p ps cm).1.
Proof.
  intros H. unfold Context.addBreadcrumb. destruct (get _ _); [|done].
  destruct (truthy j).
  - destruct j; try done. destruct (Context.findIndex_path _ _); [|done].
    by apply Bounded_updateNavigation.
  - destruct (Context.findIndex_path _ _); [|done].
    by apply Bounded_updateNavigation.
Qed.

Lemma Bounded_restoreFromHistory i cm :
  Bounded cm → Bounded (Context.restoreFromHistory i cm).1.
Proof.
  intros H. unfold Context.restoreFromHistory. destruct (_ && _); [|done].
  destruct (contextHistory cm !! _) as [hc|]; [|done].
  pose proof (Bounded_updateContext (JObj hc) true cm H) as H'.
  by destruct (Context.updateContext _ _ cm) as [cm' []].
Qed.

Lemma Bounded_runHandler c cm :
  Bounded cm → Bounded (Context.runHandler c cm).1.
Proof.
  intros H. unfold Context.runHandler.
  pose proof (Bounded_updateContext (Messenger.prop (hc_payload c) "data") true cm H) as H1.
  pose proof (syncContext_history (Messenger.prop (hc_payload c) "data") cm) as H2.
  destruct (hc_handler c); try exact H.
  - by destruct (Context.updateContext _ _ cm).
  - destruct (Context.syncContext _ cm). by apply (Bounded_history cm).
Qed.

Lemma Bounded_windowMessage ev cm :
  Bounded cm → Bounded (Context.windowMessage ev cm).
Proof.
  intros H. unfold Context.windowMessage.
  generalize (listeners (rt (messenger cm))). intros ls.
  assert (Hd : ∀ acc, Bounded acc.1 → Bounded (foldl (Context.deliver ev) acc ls).1).
  { induction ls as [|l ls IH]; intros [cm' res] Hb; [done|]. simpl. apply IH.
    simpl in Hb. destruct (handlerCalls _ !! _) as [c|]; [|done].
    pose proof (Bounded_runHandler c
                  (Context.with_messenger
                     (Messenger.callListener ev (messenger cm') l) cm') Hb) as Hr.
    by destruct (Context.runHandler c _) as [cm'' []]. }
  specialize (Hd (cm, []) H).
  destruct (foldl (Context.deliver ev) (cm, []) ls) as [cm' res]. simpl in Hd.
  revert cm' Hd. induction res as [|kr res IH]; intros cm' Hd; [done|].
  simpl. by apply IH.
Qed.

Lemma Bounded_apply cm op : Bounded cm → Bounded (apply cm op).
Proof.
  intros H. destruct op; simpl.
  - by apply Bounded_updateContext.
  - eapply Bounded_history; [apply syncContext_history|done].
  - eapply Bounded_history; [apply syncContextSettled_history|done].
  - by apply Bounded_updateNavigation.
  - by apply Bounded_navigate.
  - by apply Bounded_goBack.
  - by apply Bounded_addBreadcrumb.
  - by apply Bounded_restoreFromHistory.
  - by apply Bounded_windowMessage.
  - done.
Qed.

Lemma Bounded_applyAll ops : ∀ cm, Bounded cm → Bounded (applyAll cm ops).
Proof.
  induction ops as [|op ops IH]; intros cm H; [done|]. simpl. apply IH.
  by apply Bounded_apply.
Qed.

Lemma Bounded_new m i : Bounded (Context.new m i).
Proof. unfold Bounded. simpl. unfold maxHistorySize. lia. Qed.

(** C8 (amended).  In every state a context manager can reach from its
    construction the history has at most 10 entries.  [updateContext]
    appends the current context to it before changing the context and
    then drops the oldest entry if there are more than 10, so after any
    sequence of updates the history is the last 10 of the earlier history
    followed by the contexts the updates found; after 11 updates of a new
    manager these are the contexts before updates 2 to 11, in order.
    [syncContext] changes the context without touching the history. *)
Theorem C8_history_bounded_fifo m initialContext ops :
  let cm := applyAll (Context.new m initialContext) ops in
  length (contextHistory cm) ≤ 10 ∧
  (∀ updates notify,
     contextHistory (Context.updateContext updates notify cm).1
     = lastN 10 (contextHistory cm ++ [context cm])) ∧
  (∀ us,
     contextHistory (updateAll us cm)
     = lastN 10 (contextHistory cm ++ contextsBefore us cm)) ∧
  (∀ us, length us = 11 →
     let fresh := Context.new m initialContext in
     contextHistory (updateAll us fresh) = drop 1 (contextsBefore us fresh) ∧
     length (contextHistory (updateAll us fresh)) = 10) ∧
  (∀ remoteContext,
     contextHistory (Context.syncContext remoteContext cm).1 = contextHistory cm) ∧
  (∀ o, contextHistory (Context.syncContextSettled o cm) = contextHistory cm).
Proof.
  intros cm.
  assert (Hb : Bounded cm) by apply Bounded_applyAll, Bounded_new.
  split; [done|]. split.
  { intros u n. rewrite updateContext_history. by apply addToHistory_lastN. }
  split.
  { intros us. by apply updateAll_history. }
  split.
  { intros us Hlen fresh.
    assert (H : contextHistory (updateAll us fresh) = drop 1 (contextsBefore us fresh)).
    { rewrite updateAll_history by apply Bounded_new.
      unfold lastN. simpl. rewrite contextsBefore_length, Hlen. done. }
    split; [done|]. rewrite H, length_drop, contextsBefore_length, Hlen. done. }
  split.
  { intros r. apply syncContext_history. }
  intros o. apply syncContextSettled_history.
Qed.

Lemma C8_history_bounded_fifo_witness :
  let us := replicate 11 (JObj {[ "route" := JStr "/list" ]}, true) in
  let fresh := Context.new exampleGuestMessenger JUndefined in
  length us = 11 ∧
  contextHistory (updateAll us fresh) = drop 1 (contextsBefore us fresh) ∧
  length (contextHistory (updateAll us fresh)) = 10.
Proof.
  intros us fresh. split; [reflexivity|].
  exact (proj1 (proj2 (proj2 (proj2
           (C8_history_bounded_fifo exampleGuestMessenger JUndefined []))))
           us eq_refl).
Defined.

(** C8 as stated fails for [syncContext]: it changes the context and
    appends nothing to the history. *)
Lemma C8_counterexample :
  let cm := exampleContextManager in
  let cm' := (Context.syncContext (JObj {[ "route" := JStr "/list" ]}) cm).1 in
  context cm !! "route" = Some (JStr "/") ∧
  context cm' !! "route" = Some (JStr "/list") ∧
  contextHistory cm = [] ∧
  contextHistory cm' = [].
Proof. vm_compute. done. Qed.

(** C4 as stated fails when a mutation happens in the millisecond of the
    previous one (here: of the construction): [updatedAt] keeps its
    value. *)
Lemma C4_counterexample :
  let cm := sameMillisecond in
  let cm' := (Context.updateContext (JObj {[ "route" := JStr "/list" ]}) true cm).1 in
  context cm !! "route" = Some (JStr "/") ∧
  context cm' !! "route" = Some (JStr "/list") ∧
  updatedAt cm = Some (JNum 1700000000000) ∧
  updatedAt cm' = Some (JNum 1700000000000) ∧
  ¬ (∃ old new, updatedAt cm = Some (JNum old) ∧ updatedAt cm' = Some (JNum new)
                ∧ (old < new)%Z).
Proof.
  intros cm cm'.
  assert (H1 : updatedAt cm = Some (JNum 1700000000000)) by (vm_compute; reflexivity).
  assert (H2 : updatedAt cm' = Some (JNum 1700000000000)) by (vm_compute; reflexivity).
  split; [vm_compute; reflexivity|]. split; [vm_compute; reflexivity|].
  split; [done|]. split; [done|].
  intros (old & new & Ho & Hn & Hlt). rewrite H1 in Ho. rewrite H2 in Hn.
  injection Ho as <-. injection Hn as <-. lia.
Qed.

(** C4 (amended).  Every [updateContext], and every [syncContext] that
    merges a remote context, sets [updatedAt] to the value [Date.now()]
    returns during the call; a [syncContext] that merges nothing leaves
    the context as it is.  So [updatedAt] is strictly greater than before
    whenever that clock reading is. *)
Theorem C4_updatedAt_is_clock_reading cm :
  (∀ updates notify,
     updatedAt (Context.updateContext updates notify cm).1 = Some (JNum (reading cm))) ∧
  (∀ remote, truthy remote = true →
     updatedAt (Context.syncContext remote cm).1 = Some (JNum (reading cm))) ∧
  (∀ remote, truthy remote = true →
     updatedAt (Context.syncContextSettled (Resolved remote) cm)
     = Some (JNum (reading cm))) ∧
  (∀ remote, truthy remote = false →
     context (Context.syncContext remote cm).1 = context cm ∧
     context (Context.syncContextSettled (Resolved remote) cm) = context cm) ∧
  (∀ e, context (Context.syncContextSettled (Rejected e) cm) = context cm) ∧
  (∀ old, updatedAt cm = Some (JNum old) → (old < reading cm)%Z →
     ∀ cm',
       (∃ updates notify, cm' = (Context.updateContext updates notify cm).1) ∨
       (∃ remote, truthy remote = true ∧
          (cm' = (Context.syncContext remote cm).1 ∨
           cm' = Context.syncContextSettled (Resolved remote) cm)) →
       ∃ new, updatedAt cm' = Some (JNum new) ∧ (old < new)%Z).
Proof.
  assert (H1 : ∀ updates notify,
     updatedAt (Context.updateContext updates notify cm).1 = Some (JNum (reading cm))).
  { intros. unfold updatedAt. rewrite updateContext_context. apply lookup_insert_eq. }
  assert (H2 : ∀ remote, truthy remote = true →
     updatedAt (Context.syncContext remote cm).1 = Some (JNum (reading cm))).
  { intros r Hr. unfold updatedAt. rewrite syncContext_context by done.
    apply lookup_insert_eq. }
  assert (H3 : ∀ remote, truthy remote = true →
     updatedAt (Context.syncContextSettled (Resolved remote) cm)
     = Some (JNum (reading cm))).
  { intros r Hr. unfold updatedAt. rewrite syncContextSettled_context by done.
    apply lookup_insert_eq. }
  split; [done|]. split; [done|]. split; [done|]. split.
  { intros r Hr. split.
    - unfold Context.syncContext. rewrite Hr.
      by destruct (Messenger.send _ _ _ _ _) as [m []].
    - simpl. by rewrite Hr. }
  split; [done|].
  intros old Ho Hlt cm' Hcm'. exists (reading cm). split; [|done].
  destruct Hcm' as [(u & n & ->)|(r & Hr & [-> | ->])]; auto.
Qed.

Lemma C4_updatedAt_is_clock_reading_witness :
  let cm := exampleContextManager in
  let remote := JObj {[ "route" := JStr "/list" ]} in
  (truthy remote = true ∧
   updatedAt cm = Some (JNum 1700000000002) ∧
   (1700000000002 < reading cm)%Z) ∧
  updatedAt (Context.syncContext remote cm).1 = Some (JNum (reading cm)) ∧
  ∃ new, updatedAt (Context.updateContext remote true cm).1 = Some (JNum new)
         ∧ (1700000000002 < new)%Z.
Proof.
  intros cm remote.
  assert (H1 : truthy remote = true) by reflexivity.
  assert (H2 : updatedAt cm = Some (JNum 1700000000002)) by (vm_compute; reflexivity).
  assert (H3 : (1700000000002 < reading cm)%Z) by (vm_compute; reflexivity).
  split; [exact (conj H1 (conj H2 H3))|]. split.
  - exact (proj1 (proj2 (C4_updatedAt_is_clock_reading cm)) remote H1).
  - exact (proj2 (proj2 (proj2 (proj2 (proj2 (C4_updatedAt_is_clock_reading cm)))))
             1700000000002%Z H2 H3 _
             (or_introl (ex_intro _ remote (ex_intro _ true eq_refl)))).
Defined.

(** C6 as stated fails for the key [updatedAt]: the value carried by the
    partial is replaced by the clock reading. *)
Lemma C6_counterexample :
  let cm := exampleContextManager in
  let cm' := (Context.updateContext (JObj {[ "updatedAt" := JNum 5 ]}) true cm).1 in
  spread (Context.heap cm) (JObj {[ "updatedAt" := JNum 5 ]}) !! "updatedAt"
  = Some (JNum 5) ∧
  context cm' !! "updatedAt" = Some (JNum 1700000000003) ∧
  context cm' !! "updatedAt" ≠ Some (JNum 5).
Proof.
  intros cm cm'.
  assert (H : context cm' !! "updatedAt" = Some (JNum 1700000000003))
    by (vm_compute; reflexivity).
  split; [vm_compute; reflexivity|]. split; [done|]. by rewrite H.
Qed.

(** C6 (amended).  After [updateContext(updates)] every top-level key of
    [updates] other than [updatedAt] holds the value [updates] has for it,
    as a whole; every other key except [updatedAt] is unchanged; and
    [updatedAt] is the clock reading.  In particular
    [updateContext({app:{theme:'dark'}})] followed by
    [updateContext({app:{lang:'en'}})] leaves [app] equal to
    [{lang:'en'}]. *)
Theorem C6_shallow_merge cm :
  (∀ updates notify k v,
     spread (Context.heap cm) updates !! k = Some v → k ≠ "updatedAt" →
     context (Context.updateContext updates notify cm).1 !! k = Some v) ∧
  (∀ updates notify k,
     spread (Context.heap cm) updates !! k = None → k ≠ "updatedAt" →
     context (Context.updateContext updates notify cm).1 !! k = context cm !! k) ∧
  (∀ updates notify,
     context (Context.updateContext updates notify cm).1 !! "updatedAt"
     = Some (JNum (reading cm))) ∧
  (∀ notify1 notify2,
     let cm1 := (Context.updateContext
                   (JObj {[ "app" := JObj {[ "theme" := JStr "dark" ]} ]})
                   notify1 cm).1 in
     let cm2 := (Context.updateContext
                   (JObj {[ "app" := JObj {[ "lang" := JStr "en" ]} ]})
                   notify2 cm1).1 in
     context cm1 !! "app" = Some (JObj {[ "theme" := JStr "dark" ]}) ∧
     context cm2 !! "app" = Some (JObj {[ "lang" := JStr "en" ]})).
Proof.
  assert (H1 : ∀ cm updates notify k v,
     spread (Context.heap cm) updates !! k = Some v → k ≠ "updatedAt" →
     context (Context.updateContext updates notify cm).1 !! k = Some v).
  { intros cm0 u n k v Hk Hne. rewrite updateContext_context.
    rewrite lookup_insert_ne by done. by apply lookup_union_Some_l. }
  split; [apply H1|]. split.
  { intros u n k Hk Hne. rewrite updateContext_context.
    rewrite lookup_insert_ne by done. by rewrite lookup_union_r. }
  split.
  { intros. rewrite updateContext_context. apply lookup_insert_eq. }
  intros n1 n2 cm1 cm2. split; apply H1; done.
Qed.

Lemma C6_shallow_merge_witness :
  let cm := exampleContextManager in
  let updates :=
    JObj {[ "navigation" := JObj {[ "currentRoute" := JStr "/list" ]} ]} in
  (spread (Context.heap cm) updates !! "navigation"
   = Some (JObj {[ "currentRoute" := JStr "/list" ]}) ∧
   "navigation" ≠ "updatedAt" ∧
   spread (Context.heap cm) updates !! "route" = None ∧
   "route" ≠ "updatedAt") ∧
  context (Context.updateContext updates true cm).1 !! "navigation"
  = Some (JObj {[ "currentRoute" := JStr "/list" ]}) ∧
  context (Context.updateContext updates true cm).1 !! "route"
  = context cm !! "route".
Proof.
  intros cm updates.
  assert (H1 : spread (Context.heap cm) updates !! "navigation"
               = Some (JObj {[ "currentRoute" := JStr "/list" ]}))
    by (vm_compute; reflexivity).
  assert (H2 : "navigation" ≠ "updatedAt") by discriminate.
  assert (H3 : spread (Context.heap cm) updates !! "route" = None)
    by (vm_compute; reflexivity).
  assert (H4 : "route" ≠ "updatedAt") by discriminate.
  split; [exact (conj H1 (conj H2 (conj H3 H4)))|]. split.
  - exact (proj1 (C6_shallow_merge cm) updates true "navigation" _ H1 H2).
  - exact (proj1 (proj2 (C6_shallow_merge cm)) updates true "route" H3 H4).
Defined.

Lemma findIndex_none path l :
  Forall (otherPath path) l → Context.findIndex_path path l = Returned None.
Proof.
  induction 1 as [|b l (v & Hv & Hne) _ IH]; [done|]. simpl.
  by rewrite Hv, Hne, IH.
Qed.

Lemma findIndex_first path l1 b l2 :
  Forall (otherPath path) l1 → hasPath path b →
  Context.findIndex_path path (l1 ++ b :: l2) = Returned (Some (length l1)).
Proof.
  intros Hl1 (v & Hv & He). induction Hl1 as [|b' l (v' & Hv' & Hne) _ IH]; simpl.
  - by rewrite Hv, He.
  - by rewrite Hv', Hne, IH.
Qed.

Lemma arrays_log l m : arrays (rt (Messenger.log l m)) = arrays (rt m).
Proof. unfold Messenger.log. by destruct (cfg_debug _). Qed.

Lemma arrays_send t a d r m : arrays (rt (Messenger.send t a d r m).1) = arrays (rt m).
Proof.
  rewrite send_unfold. unfold sendPrepared. simpl.
  set (m' := Messenger.log _ _).
  assert (Hm' : arrays (rt m') = arrays (rt m)) by (subst m'; by rewrite arrays_log).
  clearbody m'.
  unfold Messenger.sendWithResponse, Messenger.postMessage. simpl.
  destruct r, (targetWindow m'); done.
Qed.

Lemma updateContext_heap u n cm :
  Context.heap (Context.updateContext u n cm).1 = Context.heap cm.
Proof.
  unfold Context.updateContext, Context.now, Context.heap. simpl.
  destruct n; [|done].
  set (m' := Messenger.with_rt _ _).
  pose proof (arrays_send "state" "update" u false m') as H.
  by destruct (Messenger.send _ _ _ _ m') as [m'' []].
Qed.

Lemma updateNavigation_breadcrumbs r cm l :
  Context.heap cm !! r = Some l →
  breadcrumbs (Context.updateNavigation (JObj {[ "breadcrumbs" := JArr r ]}) cm).1
  = Some l.
Proof.
  intros Hr. unfold breadcrumbs, Context.updateNavigation, Context.navigation.
  rewrite updateContext_context, updateContext_heap. cbn [spread].
  rewrite lookup_insert_ne by done.
  rewrite (lookup_union_Some_l _ _ "navigation" _ (lookup_singleton_eq _ _)).
  cbn [default from_option Datatypes.id].
  rewrite (lookup_union_Some_l _ _ "breadcrumbs" _ (lookup_singleton_eq _ _)).
  done.
Qed.

Lemma heap_with_heap a n cm : Context.heap (Context.with_heap a n cm) = a.
Proof. done. Qed.

Lemma addBreadcrumb_existing label path params cm nav r l idx :
  Context.navigation cm = JObj nav →
  nav !! "breadcrumbs" = Some (JArr r) →
  Context.heap cm !! r = Some l →
  Context.findIndex_path path l = Returned idx →
  Context.addBreadcrumb label path params cm
  = Context.updateNavigation (JObj {[ "breadcrumbs" := JArr r ]})
      (Context.with_heap
         (<[r := match idx with
                 | Some i => take (i + 1) l
                 | None => l ++ [crumb label path params]
                 end]> (Context.heap cm))
         (nextArray (rt (messenger cm))) cm).
Proof.
  intros Hnav Hbc Hr Hidx. unfold Context.addBreadcrumb.
  rewrite Hnav. cbn [get]. rewrite Hbc. cbn [default from_option Datatypes.id truthy].
  rewrite Hr. cbn [default from_option Datatypes.id]. rewrite Hidx. reflexivity.
Qed.

Lemma addBreadcrumb_fresh label path params cm nav :
  Context.navigation cm = JObj nav →
  truthy (default JUndefined (nav !! "breadcrumbs")) = false →
  Context.addBreadcrumb label path params cm
  = let r := nextArray (rt (messenger cm)) in
    Context.updateNavigation (JObj {[ "breadcrumbs" := JArr r ]})
      (Context.with_heap
         (<[r := [crumb label path params]]> (<[r := []]> (Context.heap cm)))
         (S r) (Context.with_heap (<[r := []]> (Context.heap cm)) (S r) cm)).
Proof.
  intros Hnav Hbc. unfold Context.addBreadcrumb.
  rewrite Hnav. cbn [get]. rewrite Hbc.
  rewrite !heap_with_heap, lookup_insert_eq. reflexivity.
Qed.

Lemma addBreadcrumb_breadcrumbs label path params cm l l' :
  breadcrumbs cm = Some l → trailAfter label path params l = Some l' →
  breadcrumbs (Context.addBreadcrumb label path params cm).1 = Some l'.
Proof.
  unfold breadcrumbs at 1, trailAfter.
  destruct (Context.navigation cm) as [| | | | |nav|] eqn:Hnav; try done.
  intros Hb Hl'.
  destruct (default JUndefined (nav !! "breadcrumbs")) as [| |b|z|s|o|r] eqn:Hbc.
  7: { destruct (Context.findIndex_path path l) as [idx|] eqn:Hidx; [|done].
       assert (Hbc' : nav !! "breadcrumbs" = Some (JArr r))
         by (by destruct (nav !! "breadcrumbs") as [v|]; simplify_eq/=).
       rewrite (addBreadcrumb_existing _ _ _ _ nav r l idx) by done.
       apply updateNavigation_breadcrumbs.
       rewrite heap_with_heap, lookup_insert_eq. destruct idx; by injection Hl' as <-. }
  all: destruct (truthy _) eqn:Ht in Hb; [done|]; injection Hb as <-;
    cbn in Hl'; injection Hl' as <-;
    rewrite (addBreadcrumb_fresh _ _ _ _ nav Hnav) by (by rewrite Hbc);
    cbv zeta; apply updateNavigation_breadcrumbs;
    by rewrite heap_with_heap, lookup_insert_eq.
Qed.

Lemma hasPath_crumb label path params : hasPath path (crumb label path params).
Proof. exists (JStr path). split; [reflexivity|]. simpl. apply String.eqb_refl. Qed.

Lemma breadcrumbs_new m : breadcrumbs (Context.new m JUndefined) = Some [].
Proof. reflexivity. Qed.

(** C9.  Let the context hold a breadcrumb sequence [l] (its [navigation]
    is an object whose [breadcrumbs] is missing, read as the empty
    sequence, or an array).  If no element of [l] has the given path,
    [addBreadcrumb(label, path, params)] leaves [l] followed by
    [{label, path, params}]; if [b] is the first element with that path,
    it leaves [l] up to and including [b].  From a new context manager,
    adding Home at '/', List at '/list' and Home at '/' again leaves the
    single breadcrumb Home. *)
Theorem C9_addBreadcrumb :
  (∀ cm l label path params,
     breadcrumbs cm = Some l → Forall (otherPath path) l →
     breadcrumbs (Context.addBreadcrumb label path params cm).1
     = Some (l ++ [crumb label path params])) ∧
  (∀ cm l1 b l2 label path params,
     breadcrumbs cm = Some (l1 ++ b :: l2) →
     Forall (otherPath path) l1 → hasPath path b →
     breadcrumbs (Context.addBreadcrumb label path params cm).1
     = Some (l1 ++ [b])) ∧
  (∀ m,
     let cm0 := Context.new m JUndefined in
     let cm1 := (Context.addBreadcrumb "Home" "/" JUndefined cm0).1 in
     let cm2 := (Context.addBreadcrumb "List" "/list" JUndefined cm1).1 in
     let cm3 := (Context.addBreadcrumb "Home" "/" JUndefined cm2).1 in
     breadcrumbs cm2 = Some [crumb "Home" "/" JUndefined;
                             crumb "List" "/list" JUndefined] ∧
     breadcrumbs cm3 = Some [crumb "Home" "/" JUndefined]).
Proof.
  assert (H1 : ∀ cm l label path params,
     breadcrumbs cm = Some l → Forall (otherPath path) l →
     breadcrumbs (Context.addBreadcrumb label path params cm).1
     = Some (l ++ [crumb label path params])).
  { intros cm l label path params Hb Hl.
    apply (addBreadcrumb_breadcrumbs _ _ _ _ l); [done|].
    unfold trailAfter. by rewrite findIndex_none. }
  assert (H2 : ∀ cm l1 b l2 label path params,
     breadcrumbs cm = Some (l1 ++ b :: l2) →
     Forall (otherPath path) l1 → hasPath path b →
     breadcrumbs (Context.addBreadcrumb label path params cm).1
     = Some (l1 ++ [b])).
  { intros cm l1 b l2 label path params Hb Hl1 Hp.
    apply (addBreadcrumb_breadcrumbs _ _ _ _ (l1 ++ b :: l2)); [done|].
    unfold trailAfter. rewrite findIndex_first by done. f_equal.
    rewrite take_app_ge by lia.
    replace (length l1 + 1 - length l1) with 1 by lia. done. }
  split; [done|]. split; [done|].
  intros m cm0 cm1 cm2 cm3.
  assert (B1 : breadcrumbs cm1 = Some [crumb "Home" "/" JUndefined]).
  { apply (H1 cm0 []); [apply breadcrumbs_new|constructor]. }
  assert (B2 : breadcrumbs cm2 = Some [crumb "Home" "/" JUndefined;
                                       crumb "List" "/list" JUndefined]).
  { apply (H1 cm1 [crumb "Home" "/" JUndefined]); [done|]. constructor; [|constructor].
    exists (JStr "/"). split; reflexivity. }
  split; [done|].
  apply (H2 cm2 [] (crumb "Home" "/" JUndefined) [crumb "List" "/list" JUndefined]);
    [done|constructor|apply hasPath_crumb].
Qed.

Lemma C9_addBreadcrumb_witness :
  let cm := exampleContextManager in
  let cm1 := (Context.addBreadcrumb "Home" "/" JUndefined cm).1 in
  (breadcrumbs cm = Some [] ∧
   breadcrumbs cm1 = Some ([] ++ crumb "Home" "/" JUndefined :: [])) ∧
  breadcrumbs cm1 = Some ([] ++ [crumb "Home" "/" JUndefined]) ∧
  breadcrumbs (Context.addBreadcrumb "Start" "/" JUndefined cm1).1
  = Some ([] ++ [crumb "Home" "/" JUndefined]).
Proof.
  intros cm cm1.
  assert (H0 : breadcrumbs cm = Some []) by reflexivity.
  assert (H1 : breadcrumbs cm1 = Some ([] ++ [crumb "Home" "/" JUndefined]))
    by exact (proj1 C9_addBreadcrumb cm [] "Home" "/" JUndefined H0 (Forall_nil_2 _)).
  split; [exact (conj H0 H1)|]. split; [exact H1|].
  exact (proj1 (proj2 C9_addBreadcrumb) cm1 [] (crumb "Home" "/" JUndefined) []
           "Start" "/" JUndefined H1 (Forall_nil_2 _)
           (hasPath_crumb "Home" "/" JUndefined)).
Defined.

(** *** Peer-initiated updates *)

Lemma send_forget_posted t a d m w :
  targetWindow m = Some w →
  posted (rt (Messenger.send t a d false m).1)
  = posted (rt m) ++ [{| po_window := w; po_payload := requestPayload t a d false m;
                         po_targetOrigin := cfg_targetOrigin (config m) |}].
Proof.
  intros Hw. unfold Messenger.send, Messenger.postMessage, Messenger.log. simpl.
  destruct (cfg_debug (config m)); simpl; rewrite Hw; reflexivity.
Qed.

Lemma updateContext_messenger u cm :
  messenger (Context.updateContext u true cm).1
  = (Messenger.send "state" "update" u false (ticked (messenger cm))).1.
Proof.
  unfold Context.updateContext, Context.now, ticked.
  destruct (Rt.Date_now (rt (messenger (Context.addToHistory cm)))) as [t r] eqn:E.
  cbn [messenger Context.with_messenger Context.with_context Context.addToHistory
       Context.with_contextHistory] in *.
  replace r with (Rt.Date_now (rt (messenger cm))).2 by (by rewrite E).
  by destruct (Messenger.send _ _ _ _ _) as [m' []].
Qed.

Lemma updateContext_notify_posted u cm w :
  targetWindow (messenger cm) = Some w →
  posted (rt (messenger (Context.updateContext u true cm).1))
  = posted (rt (messenger cm)) ++
      [{| po_window := w;
          po_payload := requestPayload "state" "update" u false (ticked (messenger cm));
          po_targetOrigin := cfg_targetOrigin (config (messenger cm)) |}].
Proof.
  intros Hw. rewrite updateContext_messenger.
  by rewrite (send_forget_posted "state" "update" u (ticked (messenger cm)) w Hw).
Qed.

Lemma updateContext_silent u cm :
  posted (rt (messenger (Context.updateContext u false cm).1))
  = posted (rt (messenger cm)).
Proof. reflexivity. Qed.

Lemma runHandler_state_update payload cm :
  (Context.runHandler {| hc_handler := ctx_state_update; hc_payload := payload |} cm).1
  = (Context.updateContext (Messenger.prop payload "data") true cm).1.
Proof.
  unfold Context.runHandler. cbn [hc_handler hc_payload].
  by destruct (Context.updateContext _ _ cm).
Qed.

Lemma guest_handler_echo r cfg payload :
     let cm := app_contextManager (App.new r cfg) in
     let cm' := (Context.runHandler
                   {| hc_handler := ctx_state_update; hc_payload := payload |} cm).1 in
     posted (rt (messenger cm'))
     = posted (rt (messenger cm)) ++
         [{| po_window := ParentWindow;
             po_payload := requestPayload "state" "update"
                             (Messenger.prop payload "data") false
                             (ticked (messenger cm));
             po_targetOrigin := hostOrigin cfg |}].
Proof.
  intros cm cm'.
  assert (Hw : targetWindow (messenger cm) = Some ParentWindow) by reflexivity.
  assert (Ho : cfg_targetOrigin (config (messenger cm)) = hostOrigin cfg) by reflexivity.
  clearbody cm. subst cm'. rewrite runHandler_state_update.
  rewrite (updateContext_notify_posted _ cm ParentWindow Hw). by rewrite Ho.
Qed.

(** The same on a concrete guest, from the message event on. *)
Lemma guest_echo_example :
  (let guest := App.windowMessage (fromHost exampleUpdate) exampleGuest in
   let m := messenger (app_contextManager guest) in
   handlerCalls (rt m)
   = [{| hc_handler := ctx_state_update;
         hc_payload := payload_to_js exampleUpdate |}] ∧
   context (app_contextManager guest) !! "route" = Some (JStr "/list") ∧
   po_payload <$> posted (rt m)
   = [{| id := "1700000000004-k3j9x2q1"; type := "state"; action := "update";
         data := JObj {[ "route" := JStr "/list" ]};
         timestamp := 1700000000005; requiresResponse := Some false;
         responseId := None; source := iframe;
         targetOrigin := "https://host.example" |}]).
Proof. vm_compute. done. Qed.

(** The host's handler for [state/update], which replaces the context
    manager's in [createIframe], passes [notify = false] and posts
    nothing. *)
Lemma host_registers_silent_handler r development cfg h :
  ∃ fr,
    frames (Host.createIframe r development cfg h).1
      !! (Host.createIframe r development cfg h).2 = Some fr ∧
    messageHandlers (messenger (contextManager fr)) !! "state:update"
    = Some host_state_update.
Proof.
  eexists. split.
  - unfold Host.createIframe. cbn [fst snd frames Host.with_frames].
    rewrite lookup_app_r by done. rewrite Nat.sub_diag. reflexivity.
  - reflexivity.
Qed.

Lemma host_state_update_silent f k c h fr :
  frames h !! f = Some fr → hc_handler c = host_state_update →
  ∃ fr', frames (Host.runHandler f k c h).1 !! f = Some fr' ∧
         posted (rt (messenger (contextManager fr')))
         = posted (rt (messenger (contextManager fr))).
Proof.
  intros Hf Hc. unfold Host.runHandler. rewrite Hc, Hf.
  pose proof (updateContext_silent (Messenger.prop (hc_payload c) "data")
                (contextManager fr)) as Hs.
  destruct (Context.updateContext _ false (contextManager fr)) as [cm' res].
  eexists. split.
  - cbn [fst Host.setFrame frames Host.with_frames].
    apply list_lookup_insert_eq. by apply lookup_lt_Some in Hf.
  - exact Hs.
Qed.

(** C3 (the code does not do this).  On the guest side the handler for
    [state/update] is the one the context manager registers, which calls
    [updateContext(payload.data)] with [notify] left at its default
    [true]: handling a peer's update posts a [state/update] envelope
    carrying the same data back to the peer. *)
Theorem C3_guest_echoes_state_update :
  (∀ r cfg,
     messageHandlers (messenger (app_contextManager (App.new r cfg)))
       !! "state:update" = Some ctx_state_update) ∧
  (∀ r cfg payload,
     let cm := app_contextManager (App.new r cfg) in
     let cm' := (Context.runHandler
                   {| hc_handler := ctx_state_update; hc_payload := payload |} cm).1 in
     posted (rt (messenger cm'))
     = posted (rt (messenger cm)) ++
         [{| po_window := ParentWindow;
             po_payload := requestPayload "state" "update"
                             (Messenger.prop payload "data") false
                             (ticked (messenger cm));
             po_targetOrigin := hostOrigin cfg |}]) ∧
  (let guest := App.windowMessage (fromHost exampleUpdate) exampleGuest in
   let m := messenger (app_contextManager guest) in
   handlerCalls (rt m)
   = [{| hc_handler := ctx_state_update;
         hc_payload := payload_to_js exampleUpdate |}] ∧
   context (app_contextManager guest) !! "route" = Some (JStr "/list") ∧
   po_payload <$> posted (rt m)
   = [{| id := "1700000000004-k3j9x2q1"; type := "state"; action := "update";
         data := JObj {[ "route" := JStr "/list" ]};
         timestamp := 1700000000005; requiresResponse := Some false;
         responseId := None; source := iframe;
         targetOrigin := "https://host.example" |}]).
Proof.
  split; [reflexivity|]. split.
  - apply guest_handler_echo.
  - apply guest_echo_example.
Qed.

(* ===================================================================== *)
(** ** The modal coordinator (HostIframeManager) *)
(* ===================================================================== *)

Lemma effect_slot e f h : slot f (Host.effect e h) = slot f h.
Proof. done. Qed.

Lemma slot_setFrame f f' fr fr' h :
  frames h !! f' = Some fr' →
  slot f (Host.setFrame f' fr h) = if decide (f = f') then modalResolve fr else slot f h.
Proof.
  intros Hf'. unfold slot, Host.setFrame. simpl.
  destruct (decide (f = f')) as [->|Hne].
  - rewrite list_lookup_insert_eq; [done|]. by apply lookup_lt_Some in Hf'.
  - by rewrite list_lookup_insert_ne.
Qed.

(** What [handleModalOpen] does to the modal bookkeeping. *)
Lemma handleModalOpen_spec f d h fr :
  frames h !! f = Some fr →
  let h' := (Host.handleModalOpen f d h).1 in
  (Host.handleModalOpen f d h).2 = Some (nextModalPromise h) ∧
  nextModalPromise h' = S (nextModalPromise h) ∧
  modalResolved h' = modalResolved h ∧
  modalStack h' = modalStack h ++ [mi_id fr] ∧
  (∀ g, slot g h' = if decide (g = f) then Some (nextModalPromise h) else slot g h) ∧
  (∀ g, is_Some (frames h !! g) → is_Some (frames h' !! g)) ∧
  (mi_id <$> frames h' !! f) = Some (mi_id fr).
Proof.
  intros Hf. cbv zeta. unfold Host.handleModalOpen. rewrite Hf. cbv zeta.
  set (h1 := Host.setFrame f _ _).
  assert (Hs : ∀ g, slot g h1 = if decide (g = f) then Some (nextModalPromise h) else slot g h).
  { intros g. subst h1. by rewrite (slot_setFrame g f _ fr). }
  assert (Hfr : ∀ g, is_Some (frames h !! g) → is_Some (frames h1 !! g)).
  { intros g Hg. subst h1. simpl. apply lookup_lt_is_Some.
    rewrite length_insert. by apply lookup_lt_is_Some. }
  assert (Hid : (mi_id <$> frames h1 !! f) = Some (mi_id fr)).
  { subst h1. simpl. rewrite list_lookup_insert_eq; [done|]. by apply lookup_lt_Some in Hf. }
  destruct (onModalCallback h1) eqn:Hcb; cbn [fst snd]; done.
Qed.

Lemma handleModalClose_spec f d h fr :
  frames h !! f = Some fr →
  let h' := Host.handleModalClose f d h in
  nextModalPromise h' = nextModalPromise h ∧
  modalResolved h'
  = modalResolved h ++ match modalResolve fr with
                       | Some p => [(p, d)]
                       | None => []
                       end ∧
  modalStack h' = Host.spliceFirst (mi_id fr) (modalStack h) ∧
  (∀ g, slot g h' = if decide (g = f) then None else slot g h) ∧
  (∀ g, is_Some (frames h !! g) → is_Some (frames h' !! g)).
Proof.
  intros Hf. cbv zeta. unfold Host.handleModalClose. rewrite Hf. cbv zeta.
  set (h0 := Host.with_modalStack _ h).
  assert (Hf0 : frames h0 !! f = Some fr) by done.
  destruct (modalResolve fr) as [p|] eqn:Hp.
  - set (h1 := Host.setFrame f _ _).
    assert (Hs : ∀ g, slot g h1 = if decide (g = f) then None else slot g h).
    { intros g. subst h1. by rewrite (slot_setFrame g f _ fr). }
    assert (Hfr : ∀ g, is_Some (frames h !! g) → is_Some (frames h1 !! g)).
    { intros g Hg. subst h1. simpl. apply lookup_lt_is_Some.
      rewrite length_insert. by apply lookup_lt_is_Some. }
    destruct (onModalCallback h1) eqn:Hcb; done.
  - assert (Hs : ∀ g, slot g h0 = if decide (g = f) then None else slot g h).
    { intros g. destruct (decide (g = f)) as [->|]; [|done].
      unfold slot. subst h0. simpl. by rewrite Hf. }
    destruct (onModalCallback h0) eqn:Hcb; rewrite ?app_nil_r; done.
Qed.

Lemma slot_frame f h fr : frames h !! f = Some fr → slot f h = modalResolve fr.
Proof. intros H. unfold slot. by rewrite H. Qed.

Lemma slot_no_frame f h : frames h !! f = None → slot f h = None.
Proof. intros H. unfold slot. by rewrite H. Qed.

(** One modal event, seen through the slots and the resolved promises. *)
Lemma modalStep_spec h e :
  nextModalPromise h ≤ nextModalPromise (modalStep h e) ∧
  (∀ g, is_Some (frames h !! g) → is_Some (frames (modalStep h e) !! g)) ∧
  (∀ g, g ≠ modalFrame e → slot g (modalStep h e) = slot g h) ∧
  (slot (modalFrame e) (modalStep h e) = None ∨
   slot (modalFrame e) (modalStep h e) = Some (nextModalPromise h) ∧
   nextModalPromise h < nextModalPromise (modalStep h e)) ∧
  (resolvedPromises (modalStep h e) = resolvedPromises h ∨
   ∃ q, slot (modalFrame e) h = Some q ∧
        resolvedPromises (modalStep h e) = resolvedPromises h ++ [q]).
Proof.
  destruct e as [f d|f d]; simpl.
  - destruct (frames h !! f) as [fr|] eqn:Hf.
    + destruct (handleModalOpen_spec f d h fr Hf) as (_ & Hn & Hr & _ & Hs & Hfr & _).
      split; [lia|]. split; [done|]. split.
      { intros g Hg. rewrite Hs. by destruct (decide (g = f)). }
      split.
      { right. rewrite Hs. destruct (decide (f = f)); [|done]. split; [done|lia]. }
      left. unfold resolvedPromises. by rewrite Hr.
    + unfold Host.handleModalOpen. rewrite Hf. simpl.
      split; [done|]. split; [done|]. split; [done|]. split; [|by left].
      left. by apply slot_no_frame.
  - destruct (frames h !! f) as [fr|] eqn:Hf.
    + destruct (handleModalClose_spec f d h fr Hf) as (Hn & Hr & _ & Hs & Hfr).
      split; [lia|]. split; [done|]. split.
      { intros g Hg. rewrite Hs. by destruct (decide (g = f)). }
      split.
      { left. rewrite Hs. by destruct (decide (f = f)). }
      assert (Hres : resolvedPromises (Host.handleModalClose f d h)
                = resolvedPromises h ++ match modalResolve fr with
                                        | Some p => [p]
                                        | None => []
                                        end).
      { unfold resolvedPromises. rewrite Hr, fmap_app. by destruct (modalResolve fr). }
      rewrite Hres, (slot_frame f h fr Hf).
      destruct (modalResolve fr) as [q|].
      * right. by exists q.
      * left. by rewrite app_nil_r.
    + unfold Host.handleModalClose. rewrite Hf.
      split; [done|]. split; [done|]. split; [done|]. split; [|by left].
      left. by apply slot_no_frame.
Qed.

Lemma ModalWF_step h e : ModalWF h → ModalWF (modalStep h e).
Proof.
  intros [Hs Hr].
  destruct (modalStep_spec h e) as (Hn & _ & Ho & Hf & Hres). split.
  - intros g p Hg. destruct (decide (g = modalFrame e)) as [->|Hne].
    + destruct Hf as [Hf|[Hf Hlt]]; rewrite Hf in Hg; [done|]. injection Hg as <-. lia.
    + rewrite Ho in Hg by done. apply Hs in Hg. lia.
  - intros p Hp. destruct Hres as [Hres|(q & Hq & Hres)]; rewrite Hres in Hp.
    + apply Hr in Hp. lia.
    + apply elem_of_app in Hp as [Hp|Hp].
      * apply Hr in Hp. lia.
      * apply list_elem_of_singleton in Hp as ->. apply Hs in Hq. lia.
Qed.

Lemma Orphaned_step p h e : Orphaned p h → Orphaned p (modalStep h e).
Proof.
  intros (Hs & Hr & Hp).
  destruct (modalStep_spec h e) as (Hn & _ & Ho & Hf & Hres). split; [|split].
  - intros g Hg. destruct (decide (g = modalFrame e)) as [->|Hne].
    + destruct Hf as [Hf|[Hf Hlt]]; rewrite Hf in Hg; [done|]. injection Hg as <-. lia.
    + rewrite Ho in Hg by done. by apply (Hs g).
  - destruct Hres as [Hres|(q & Hq & Hres)]; rewrite Hres; [done|].
    intros Hin. apply elem_of_app in Hin as [Hin|Hin]; [done|].
    apply list_elem_of_singleton in Hin as ->. by apply (Hs (modalFrame e)).
  - lia.
Qed.

Lemma Orphaned_run p es : ∀ h, Orphaned p h → Orphaned p (modalRun h es).
Proof.
  induction es as [|e es IH]; intros h Hh; [done|]. simpl. apply IH.
  by apply Orphaned_step.
Qed.

Lemma HeldOnlyBy_step f p h e :
  modalFrame e ≠ f → HeldOnlyBy f p h → HeldOnlyBy f p (modalStep h e).
Proof.
  intros Hne (Hs & Hr & Hp).
  destruct (modalStep_spec h e) as (Hn & _ & Ho & Hf & Hres). split; [|split].
  - intros g Hg. destruct (decide (g = modalFrame e)) as [->|Hne'].
    + destruct Hf as [Hf|[Hf Hlt]]; rewrite Hf in Hg; [done|]. injection Hg as <-. lia.
    + rewrite Ho in Hg by done. by apply Hs.
  - destruct Hres as [Hres|(q & Hq & Hres)]; rewrite Hres; [done|].
    intros Hin. apply elem_of_app in Hin as [Hin|Hin]; [done|].
    apply list_elem_of_singleton in Hin as ->. apply Hs in Hq. done.
  - lia.
Qed.

(** Events of other frames leave frame [f] as it is. *)
Lemma others_run f es : ∀ h,
  Forall (λ e, modalFrame e ≠ f) es →
  slot f (modalRun h es) = slot f h ∧
  (is_Some (frames h !! f) → is_Some (frames (modalRun h es) !! f)) ∧
  nextModalPromise h ≤ nextModalPromise (modalRun h es) ∧
  (∀ p, HeldOnlyBy f p h → HeldOnlyBy f p (modalRun h es)).
Proof.
  induction es as [|e es IH]; intros h Hes; [done|].
  apply Forall_cons in Hes as [He Hes]. simpl.
  destruct (modalStep_spec h e) as (Hn & Hfr & Ho & _).
  destruct (IH (modalStep h e) Hes) as (I1 & I2 & I3 & I4).
  split; [rewrite I1; by apply Ho|]. split; [by auto|]. split; [lia|].
  intros p Hp. apply I4. by apply HeldOnlyBy_step.
Qed.

(** C10.  A frame object stores at most one resolver.  When the host
    handles a [ui/modal_open] of frame [f], then (after any modal events
    of other frames) a second one, then (again after any modal events of
    other frames) one [ui/modal_close] of [f] with [result]: the second
    open replaces the stored resolver of the first, the close calls the
    second promise's resolver with [result] and clears the slot, and the
    first promise is not resolved then nor by any later modal event. *)
Theorem C10_second_open_overwrites h f fr d1 d2 result mid1 mid2 :
  let p1 := nextModalPromise h in
  let h1 := modalRun (Host.handleModalOpen f d1 h).1 mid1 in
  let p2 := nextModalPromise h1 in
  let h2 := modalRun (Host.handleModalOpen f d2 h1).1 mid2 in
  let h3 := Host.handleModalClose f result h2 in
  ModalWF h → frames h !! f = Some fr →
  Forall (λ e, modalFrame e ≠ f) mid1 →
  Forall (λ e, modalFrame e ≠ f) mid2 →
  (Host.handleModalOpen f d1 h).2 = Some p1 ∧
  (Host.handleModalOpen f d2 h1).2 = Some p2 ∧
  p1 ≠ p2 ∧
  slot f h1 = Some p1 ∧
  slot f h2 = Some p2 ∧
  slot f h3 = None ∧
  modalResolved h3 = modalResolved h2 ++ [(p2, result)] ∧
  (∀ later, p1 ∉ resolvedPromises (modalRun h3 later)).
Proof.
  intros p1 h1 p2 h2 h3 [Hws Hwr] Hf Hm1 Hm2.
  destruct (handleModalOpen_spec f d1 h fr Hf) as (O1 & N1 & R1 & _ & S1 & F1 & _).
  set (h1a := (Host.handleModalOpen f d1 h).1) in *.
  assert (Held : HeldOnlyBy f p1 h1a).
  { split; [|split].
    - intros g Hg. rewrite S1 in Hg. destruct (decide (g = f)); [done|].
      apply Hws in Hg. unfold p1 in Hg. lia.
    - unfold resolvedPromises. rewrite R1. intros Hin. apply Hwr in Hin.
      unfold p1 in Hin. lia.
    - rewrite N1. unfold p1. lia. }
  destruct (others_run f mid1 h1a Hm1) as (Sl1 & Fr1 & Np1 & Hd1).
  fold h1 in Sl1, Fr1, Np1, Hd1.
  assert (Hs1 : slot f h1 = Some p1).
  { rewrite Sl1, S1. by destruct (decide (f = f)). }
  destruct (Fr1 (F1 f (mk_is_Some _ _ Hf))) as [fr1 Hf1].
  destruct (handleModalOpen_spec f d2 h1 fr1 Hf1) as (O2 & N2 & R2 & _ & S2 & F2 & _).
  set (h2a := (Host.handleModalOpen f d2 h1).1) in *.
  assert (Hne : p1 ≠ p2) by (unfold p2; rewrite N1 in Np1; unfold p1; lia).
  destruct (Hd1 p1 Held) as (Hd1s & Hd1r & Hd1p).
  assert (Orph : Orphaned p1 h2a).
  { split; [|split].
    - intros g Hg. rewrite S2 in Hg. destruct (decide (g = f)) as [->|Hgf].
      + injection Hg as Hg. by apply Hne.
      + by apply Hd1s in Hg.
    - unfold resolvedPromises. rewrite R2. done.
    - rewrite N2. lia. }
  destruct (others_run f mid2 h2a Hm2) as (Sl2 & Fr2 & _ & _).
  fold h2 in Sl2, Fr2.
  assert (Hs2 : slot f h2 = Some p2).
  { rewrite Sl2, S2. by destruct (decide (f = f)). }
  destruct (Fr2 (F2 f (mk_is_Some _ _ Hf1))) as [fr2 Hf2].
  destruct (handleModalClose_spec f result h2 fr2 Hf2) as (_ & R3 & _ & S3 & _).
  fold h3 in R3, S3.
  rewrite (slot_frame f h2 fr2 Hf2) in Hs2. rewrite Hs2 in R3.
  split; [done|]. split; [done|]. split; [done|]. split; [done|].
  split; [by rewrite (slot_frame f h2 fr2 Hf2)|]. split.
  { rewrite S3. by destruct (decide (f = f)). }
  split; [done|].
  intros later.
  assert (Orph2 : Orphaned p1 h2) by (by apply Orphaned_run).
  assert (Orph3 : Orphaned p1 h3) by apply (Orphaned_step p1 h2 (ModalClose f result) Orph2).
  by destruct (Orphaned_run p1 later h3 Orph3) as (_ & ? & _).
Qed.

Lemma ModalWF_new : ModalWF Host.new.
Proof.
  split.
  - intros f p Hs. unfold slot, Host.new in Hs. cbn [frames] in Hs.
    by rewrite lookup_nil in Hs.
  - intros p Hp. by apply elem_of_nil in Hp.
Qed.

Lemma ModalWF_createIframe r development cfg h :
  ModalWF h → ModalWF (Host.createIframe r development cfg h).1.
Proof.
  intros [Hs Hr]. split; [|exact Hr].
  intros f p Hf. unfold slot, Host.createIframe in Hf.
  cbn [fst frames Host.with_frames] in Hf.
  destruct (decide (f < length (frames h))) as [Hlt|Hge].
  - rewrite lookup_app_l in Hf by done. by apply (Hs f).
  - rewrite lookup_app_r in Hf by lia.
    by destruct (f - length (frames h)) as [|n].
Qed.

Lemma C10_second_open_overwrites_witness :
  let h := exampleHost in
  let d1 := JObj {[ "route" := JStr "/pick" ]} in
  let d2 := JObj {[ "route" := JStr "/confirm" ]} in
  let result := JStr "ok" in
  let p1 := nextModalPromise h in
  let h1 := modalRun (Host.handleModalOpen 0 d1 h).1 [] in
  let p2 := nextModalPromise h1 in
  let h2 := modalRun (Host.handleModalOpen 0 d2 h1).1 [] in
  let h3 := Host.handleModalClose 0 result h2 in
  (ModalWF h ∧ is_Some (frames h !! 0)) ∧
  (Host.handleModalOpen 0 d1 h).2 = Some p1 ∧
  (Host.handleModalOpen 0 d2 h1).2 = Some p2 ∧
  p1 ≠ p2 ∧
  slot 0 h1 = Some p1 ∧
  slot 0 h2 = Some p2 ∧
  slot 0 h3 = None ∧
  modalResolved h3 = modalResolved h2 ++ [(p2, result)] ∧
  (∀ later, p1 ∉ resolvedPromises (modalRun h3 later)).
Proof.
  intros h d1 d2 result p1 h1 p2 h2 h3.
  assert (H1 : ModalWF h) by apply ModalWF_createIframe, ModalWF_new.
  assert (H2 : is_Some (frames h !! 0)) by (eexists; reflexivity).
  split; [exact (conj H1 H2)|].
  destruct H2 as [fr H2].
  exact (C10_second_open_overwrites h 0 fr d1 d2 result [] [] H1 H2
           (Forall_nil_2 _) (Forall_nil_2 _)).
Defined.

(* ===================================================================== *)
(** ** Further properties of the messenger *)
(* ===================================================================== *)

(** *** The handler registry *)

Lemma append_colon_ne t a : t +:+ ":" +:+ a ≠ t.
Proof.
  induction t as [|c t IH]; [done|]. simpl. intros [= H]. by apply IH.
Qed.

Lemma append_colon_inj t a a' : t +:+ ":" +:+ a = t +:+ ":" +:+ a' → a = a'.
Proof.
  intros H. apply (inj (String.append t)) in H. by injection H.
Qed.

(** An envelope that is not a reply, from the accepted origin, is handed
    to [handleIncomingMessage]. *)
Lemma handleMessage_request req m :
  responseId req = None →
  Messenger.handleMessage (delivery req m) m
  = Messenger.handleIncomingMessage (payload_to_js req)
      (Messenger.log "Received message:" m).
Proof.
  intros Hr. unfold Messenger.handleMessage, delivery. simpl.
  rewrite String.eqb_refl, isValidPayload_to_js, prop_to_js_responseId, Hr.
  simpl. by rewrite andb_false_r.
Qed.

Lemma handleIncomingMessage_action req h m :
  messageHandlers m !! (type req +:+ ":" +:+ action req) = Some h →
  Messenger.handleIncomingMessage (payload_to_js req) m
  = Messenger.invoke h (payload_to_js req) m.
Proof.
  intros H. unfold Messenger.handleIncomingMessage.
  rewrite prop_to_js_type, prop_to_js_action. simpl. by rewrite H.
Qed.

Lemma handleIncomingMessage_type req h m :
  messageHandlers m !! (type req +:+ ":" +:+ action req) = None →
  messageHandlers m !! type req = Some h →
  Messenger.handleIncomingMessage (payload_to_js req) m
  = Messenger.invoke h (payload_to_js req) m.
Proof.
  intros H1 H2. unfold Messenger.handleIncomingMessage.
  rewrite prop_to_js_type, prop_to_js_action. simpl. by rewrite H1, H2.
Qed.

Lemma invoke_log_calls h p l m :
  handlerCalls (rt (Messenger.invoke h p (Messenger.log l m)))
  = handlerCalls (rt m) ++ [{| hc_handler := h; hc_payload := p |}] ∧
  posted (rt (Messenger.invoke h p (Messenger.log l m))) = posted (rt m).
Proof. unfold Messenger.invoke, Messenger.log. by destruct (cfg_debug _). Qed.

(** X1. Dispatch precedence: when a category handler and an exact
    (category, action) handler are both registered, a request for that
    category and action invokes the exact handler only; a request of the
    category for another action, for which no exact handler is registered,
    invokes the category handler.  Nothing is posted before the handler
    returns. *)
Theorem X1_exact_handler_first m ty ac hT hA req :
  let m' := Messenger.onAction ty ac hA (Messenger.on ty hT m) in
  let m'' := Messenger.handleMessage (delivery req m') m' in
  let invoked h :=
    handlerCalls (rt m'')
    = handlerCalls (rt m) ++ [{| hc_handler := h; hc_payload := payload_to_js req |}] ∧
    posted (rt m'') = posted (rt m) in
  type req = ty → responseId req = None →
  (action req = ac → invoked hA) ∧
  (action req ≠ ac → messageHandlers m !! (ty +:+ ":" +:+ action req) = None →
   invoked hT).
Proof.
  intros m' m'' invoked Hty Hr. subst m'' invoked. cbv beta.
  rewrite handleMessage_request by done.
  assert (HH : messageHandlers (Messenger.log "Received message:" m')
               = <[ty +:+ ":" +:+ ac := hA]> (<[ty := hT]> (messageHandlers m))).
  { unfold Messenger.log. by destruct (cfg_debug _). }
  split.
  - intros Hac.
    rewrite (handleIncomingMessage_action req hA)
      by (rewrite HH, Hty, Hac; apply lookup_insert_eq).
    apply (invoke_log_calls hA (payload_to_js req) "Received message:" m').
  - intros Hac Hnone.
    rewrite (handleIncomingMessage_type req hT).
    + apply (invoke_log_calls hT (payload_to_js req) "Received message:" m').
    + rewrite HH, Hty. rewrite lookup_insert_ne.
      * rewrite lookup_insert_ne; [done|]. intros E. by apply (append_colon_ne ty (action req)).
      * intros E. apply append_colon_inj in E. congruence.
    + rewrite HH, Hty. rewrite lookup_insert_ne; [apply lookup_insert_eq|].
      apply append_colon_ne.
Qed.

Lemma X1_exact_handler_first_witness :
  let req := exampleGuestRequest in
  let m' := Messenger.onAction "data" "send" (user_handler "store")
              (Messenger.on "data" (user_handler "any") exampleLoadedHostMessenger) in
  let m'' := Messenger.handleMessage (delivery req m') m' in
  (type req = "data" ∧ responseId req = None ∧ action req ≠ "send" ∧
   messageHandlers exampleLoadedHostMessenger !! ("data" +:+ ":" +:+ action req) = None) ∧
  handlerCalls (rt m'')
  = handlerCalls (rt exampleLoadedHostMessenger)
      ++ [{| hc_handler := user_handler "any"; hc_payload := payload_to_js req |}] ∧
  posted (rt m'') = posted (rt exampleLoadedHostMessenger).
Proof.
  assert (H1 : type exampleGuestRequest = "data") by reflexivity.
  assert (H2 : responseId exampleGuestRequest = None) by reflexivity.
  assert (H3 : action exampleGuestRequest ≠ "send") by (vm_compute; discriminate).
  assert (H4 : messageHandlers exampleLoadedHostMessenger
               !! ("data" +:+ ":" +:+ action exampleGuestRequest) = None)
    by (vm_compute; reflexivity).
  exact (conj (conj H1 (conj H2 (conj H3 H4)))
           (proj2 (X1_exact_handler_first exampleLoadedHostMessenger "data" "send"
                     (user_handler "any") (user_handler "store")
                     exampleGuestRequest H1 H2) H3 H4)).
Defined.

(** X2. [off]: the empty action counts as no action; removing the
    category handler leaves the exact handlers of that category in place,
    and a request that only the category handler served is from then on
    answered with the no-handler error; removing an exact handler lets the
    category handler serve its requests. *)
Theorem X2_off_removes_one_key m ty ac req hA hT w :
  let invoked h m' :=
    handlerCalls (rt (Messenger.handleMessage (delivery req m') m'))
    = handlerCalls (rt m) ++ [{| hc_handler := h; hc_payload := payload_to_js req |}] in
  type req = ty → action req = ac → responseId req = None →
  Messenger.off ty (Some "") m = Messenger.off ty None m ∧
  (messageHandlers m !! (ty +:+ ":" +:+ ac) = Some hA →
   invoked hA (Messenger.off ty None m)) ∧
  (messageHandlers m !! (ty +:+ ":" +:+ ac) = None →
   requiresResponse req = Some true → targetWindow m = Some w →
   let m' := Messenger.off ty None m in
   let m'' := Messenger.handleMessage (delivery req m') m' in
   handlerCalls (rt m'') = handlerCalls (rt m) ∧
   posted (rt m'')
   = posted (rt m) ++ [{| po_window := w;
                          po_payload := responsePayload (id req) noHandlerError m;
                          po_targetOrigin := cfg_targetOrigin (config m) |}]) ∧
  (ac ≠ "" → messageHandlers m !! ty = Some hT →
   invoked hT (Messenger.off ty (Some ac) m)).
Proof.
  intros invoked Hty Hac Hr. subst invoked. cbv beta.
  split; [reflexivity|]. split; [|split].
  - intros HA. rewrite handleMessage_request by done.
    rewrite (handleIncomingMessage_action req hA).
    + apply (invoke_log_calls hA (payload_to_js req) "Received message:"
               (Messenger.off ty None m)).
    + destruct (log_other "Received message:" (Messenger.off ty None m))
        as (_ & -> & _).
      simpl. rewrite Hty, Hac, lookup_delete_ne; [done|].
      intros E. symmetry in E. by apply append_colon_ne in E.
  - intros HA Hrr Hw m' m''.
    pose proof (handleMessage_no_handler (delivery req m') m' w) as H.
    simpl in H.
    rewrite isValidPayload_to_js, prop_to_js_type, prop_to_js_action,
      prop_to_js_id, prop_to_js_responseId, prop_to_js_requiresResponse,
      Hr, Hrr, Hty, Hac in H.
    simpl in H. rewrite andb_false_r in H.
    destruct H as [H1 H2]; try done.
    + rewrite lookup_delete_ne; [done|].
      intros E. symmetry in E. by apply append_colon_ne in E.
    + apply lookup_delete_eq.
  - intros Hne HT. rewrite handleMessage_request by done.
    assert (Hoff : messageHandlers (Messenger.off ty (Some ac) m)
                   = delete (ty +:+ ":" +:+ ac) (messageHandlers m)).
    { unfold Messenger.off. simpl.
      destruct (String.eqb_spec ac ""); [done|reflexivity]. }
    rewrite (handleIncomingMessage_type req hT).
    + apply (invoke_log_calls hT (payload_to_js req) "Received message:"
               (Messenger.off ty (Some ac) m)).
    + destruct (log_other "Received message:" (Messenger.off ty (Some ac) m))
        as (_ & -> & _).
      rewrite Hoff, Hty, Hac. apply lookup_delete_eq.
    + destruct (log_other "Received message:" (Messenger.off ty (Some ac) m))
        as (_ & -> & _).
      rewrite Hoff, Hty, lookup_delete_ne; [done|]. apply append_colon_ne.
Qed.

Lemma X2_off_removes_one_key_witness :
  let req := exampleGuestRequest in
  let m := Messenger.on "data" (user_handler "any") exampleLoadedHostMessenger in
  let m' := Messenger.off "data" None m in
  let m'' := Messenger.handleMessage (delivery req m') m' in
  (type req = "data" ∧ action req = "request" ∧ responseId req = None ∧
   messageHandlers m !! ("data" +:+ ":" +:+ "request") = None ∧
   requiresResponse req = Some true ∧
   targetWindow m = Some (ContentWindow 0)) ∧
  handlerCalls (rt m'') = handlerCalls (rt m) ∧
  posted (rt m'')
  = posted (rt m) ++ [{| po_window := ContentWindow 0;
                         po_payload := responsePayload (id req) noHandlerError m;
                         po_targetOrigin := cfg_targetOrigin (config m) |}].
Proof.
  set (m := Messenger.on "data" (user_handler "any") exampleLoadedHostMessenger).
  assert (H1 : type exampleGuestRequest = "data") by reflexivity.
  assert (H2 : action exampleGuestRequest = "request") by reflexivity.
  assert (H3 : responseId exampleGuestRequest = None) by reflexivity.
  assert (H4 : messageHandlers m !! ("data" +:+ ":" +:+ "request") = None)
    by (vm_compute; reflexivity).
  assert (H5 : requiresResponse exampleGuestRequest = Some true) by reflexivity.
  assert (H6 : targetWindow m = Some (ContentWindow 0)) by (vm_compute; reflexivity).
  exact (conj (conj H1 (conj H2 (conj H3 (conj H4 (conj H5 H6)))))
           (proj1 (proj2 (proj2 (X2_off_removes_one_key m "data" "request"
                     exampleGuestRequest (user_handler "none") (user_handler "any")
                     (ContentWindow 0) H1 H2 H3))) H4 H5 H6)).
Defined.

(** *** Envelopes that are dropped *)

(** A message event to which every listener reacts by writing to the
    console at most leaves the messenger as it is, console apart. *)
Lemma windowMessage_logs event m :
  (∀ m', sameButConsole m m' →
     ∃ l, Messenger.handleMessage event m' = Messenger.log l m') →
  sameButConsole m (Messenger.windowMessage event m) ∧
  (cfg_debug (config m) = false → Messenger.windowMessage event m = m).
Proof.
  intros Hlog. unfold Messenger.windowMessage.
  generalize (listeners (rt m)). intros ls.
  assert (H : ∀ m', sameButConsole m m' →
            sameButConsole m (foldl (Messenger.callListener event) m' ls) ∧
            (cfg_debug (config m) = false → m' = m →
             foldl (Messenger.callListener event) m' ls = m)).
  { induction ls as [|l ls IH]; intros m' Hm'; [done|]. simpl.
    assert (Hstep : sameButConsole m (Messenger.callListener event m' l) ∧
                    (cfg_debug (config m) = false → m' = m →
                     Messenger.callListener event m' l = m)).
    { unfold Messenger.callListener. destruct (Messenger.listenerRuns l); [|done].
      destruct (Hlog m' Hm') as [lb ->].
      split.
      - eapply sameButConsole_trans; [done|apply sameButConsole_log].
      - intros Hd ->. unfold Messenger.log. by rewrite Hd. }
    destruct Hstep as [H1 H2]. destruct (IH _ H1) as [H3 H4].
    split; [done|]. intros Hd ->. apply H4; [done|]. by apply H2. }
  destruct (H m (sameButConsole_refl m)) as [H1 H2]. split; [done|]. auto.
Qed.

(** X3. An envelope that fails [isValidPayload] is dropped, whatever its
    origin: no handler is invoked, nothing is settled, posted or removed
    from the pending table (so no reply is sent even if it asks for one);
    only the debug log is written. *)
Theorem X3_invalid_envelope_dropped m event :
  Messenger.isValidPayload (ev_data event) = false →
  let m' := step m (WindowMessage event) in
  (∃ c, m' = Messenger.with_rt (Rt.with_console c (rt m)) m) ∧
  (cfg_debug (config m) = false → m' = m) ∧
  handlerCalls (rt m') = handlerCalls (rt m) ∧
  posted (rt m') = posted (rt m) ∧
  settleCalls (rt m') = settleCalls (rt m) ∧
  timers (rt m') = timers (rt m) ∧
  pendingMessages m' = pendingMessages m.
Proof.
  intros Hv m'. subst m'. simpl.
  destruct (windowMessage_logs event m) as [[c Hc] Hd].
  { intros m0 _. unfold Messenger.handleMessage. rewrite Hv. simpl.
    destruct (negb _); eauto. }
  split; [by exists c|]. split; [done|]. by rewrite Hc.
Qed.

Lemma X3_invalid_envelope_dropped_witness :
  let m := Messenger.onAction "data" "request" (user_handler "answer")
             exampleGuestMessenger in
  let event := {| ev_origin := "https://host.example";
                  ev_data := JObj (<["id" := JNum 7]>
                                  (<["type" := JStr "data"]>
                                  (<["action" := JStr "request"]>
                                  (<["timestamp" := JNum 1700000000500]>
                                  (<["requiresResponse" := JBool true]>
                                  (<["source" := JStr "host"]> ∅)))))) |} in
  let m' := step m (WindowMessage event) in
  Messenger.isValidPayload (ev_data event) = false ∧
  m' = m ∧ handlerCalls (rt m') = handlerCalls (rt m) ∧
  posted (rt m') = posted (rt m).
Proof.
  intros m event m'.
  assert (H1 : Messenger.isValidPayload (ev_data event) = false)
    by (vm_compute; reflexivity).
  assert (H2 : cfg_debug (config m) = false) by reflexivity.
  pose proof (X3_invalid_envelope_dropped m event H1) as (_ & Hd & Hc & Hp & _).
  exact (conj H1 (conj (Hd H2) (conj Hc Hp))).
Defined.


(** *** Replies *)

Lemma handleMessage_reply_unknown reply rid m :
  type reply = "response" → responseId reply = Some rid → rid ≠ "" →
  pendingMessages m !! rid = None →
  Messenger.handleMessage (delivery reply m) m = Messenger.log "Received message:" m.
Proof.
  intros Ht Hr Hne Hp. unfold Messenger.handleMessage, delivery. simpl.
  rewrite String.eqb_refl, isValidPayload_to_js, prop_to_js_type,
    prop_to_js_responseId, Ht, Hr. simpl.
  assert (Hlog : pendingMessages (Messenger.log "Received message:" m) !! rid = None).
  { destruct (log_other "Received message:" m) as (_ & _ & _ & _ & -> & _). done. }
  destruct (String.eqb_spec rid ""); [done|]. simpl.
  unfold Messenger.handleResponse. rewrite prop_to_js_responseId, Hr. simpl.
  by rewrite Hlog.
Qed.

(** X5. A reply that arrives after its request was settled is ignored:
    once the timeout has fired for a pending request, or a first reply has
    been handled, the request is no longer pending, and a (further) reply
    with its id settles nothing and changes nothing but the console. *)
Theorem X5_late_reply_ignored clock random cfg ih pre i pm reply :
  let m := run (Messenger.new (newRuntime clock random) cfg ih) pre in
  let expired := step m (TimerFires (pm_timeout pm)) in
  let answered := Messenger.handleMessage (delivery reply m) m in
  pendingMessages m !! i = Some pm → i ≠ "" →
  type reply = "response" → responseId reply = Some i →
  (pendingMessages expired !! i = None ∧
   sameButConsole expired (Messenger.handleMessage (delivery reply expired) expired) ∧
   settleCalls (rt (Messenger.handleMessage (delivery reply expired) expired))
   = settleCalls (rt expired)) ∧
  (pendingMessages answered !! i = None ∧
   sameButConsole answered (Messenger.handleMessage (delivery reply answered) answered) ∧
   settleCalls (rt (Messenger.handleMessage (delivery reply answered) answered))
   = settleCalls (rt answered)).
Proof.
  intros m expired answered Hp Hne Ht Hr.
  assert (HI : Inv m) by apply Inv_run, Inv_new.
  assert (Hdrop : ∀ s, pendingMessages s !! i = None →
            sameButConsole s (Messenger.handleMessage (delivery reply s) s) ∧
            settleCalls (rt (Messenger.handleMessage (delivery reply s) s))
            = settleCalls (rt s)).
  { intros s Hs. rewrite (handleMessage_reply_unknown reply i s) by done.
    split; [apply sameButConsole_log|].
    unfold Messenger.log. by destruct (cfg_debug _). }
  assert (He : pendingMessages expired !! i = None).
  { subst expired. simpl. unfold Messenger.timerFires.
    destruct HI as [_ HA]. rewrite (HA _ _ Hp). simpl. apply lookup_delete_eq. }
  assert (Ha : pendingMessages answered !! i = None).
  { subst answered. unfold delivery.
    destruct (handleMessage_reply m reply pm i Hr Hne Ht Hp) as (_ & _ & ->).
    apply lookup_delete_eq. }
  split; (split; [done|by apply Hdrop]).
Qed.

Lemma X5_late_reply_ignored_witness :
  let m := run (Messenger.new exampleRuntime exampleConfig false)
             [CallSend "data" "request" JUndefined true] in
  let i := "1700000000000-k3j9x2q0" in
  let pm := {| pm_promise := 0; pm_timeout := 0 |} in
  let reply := {| id := "1700000000700-zzz"; type := "response";
                  action := "message_response"; data := JNum 1;
                  timestamp := 1700000000700; requiresResponse := None;
                  responseId := Some i; source := host;
                  targetOrigin := "https://guest.example" |} in
  let expired := step m (TimerFires (pm_timeout pm)) in
  (pendingMessages m !! i = Some pm ∧ i ≠ "" ∧
   type reply = "response" ∧ responseId reply = Some i) ∧
  pendingMessages expired !! i = None ∧
  settleCalls (rt (Messenger.handleMessage (delivery reply expired) expired))
  = settleCalls (rt expired).
Proof.
  intros m i pm reply expired.
  assert (H1 : pendingMessages m !! i = Some pm) by (vm_compute; reflexivity).
  assert (H2 : i ≠ "") by discriminate.
  assert (H3 : type reply = "response") by reflexivity.
  assert (H4 : responseId reply = Some i) by reflexivity.
  pose proof (X5_late_reply_ignored exampleClock exampleRandom exampleConfig false
                [CallSend "data" "request" JUndefined true] i pm reply
                H1 H2 H3 H4) as [(Ha & _ & Hb) _].
  exact (conj (conj H1 (conj H2 (conj H3 H4))) (conj Ha Hb)).
Defined.

(** X6. Replies are matched to requests by id, not by order of arrival:
    with two requests pending, the replies handled in either order resolve
    each request's promise with the data of its own reply, disarm its
    timer and remove its entry. *)
Theorem X6_replies_matched_by_id m i1 i2 pm1 pm2 d1 d2 r1 r2 :
  let m1 := Messenger.handleMessage (delivery r2 m) m in
  let m2 := Messenger.handleMessage (delivery r1 m1) m1 in
  pendingMessages m !! i1 = Some pm1 → pendingMessages m !! i2 = Some pm2 →
  i1 ≠ i2 → i1 ≠ "" → i2 ≠ "" →
  replyTo i1 d1 r1 → replyTo i2 d2 r2 →
  settleCalls (rt m2)
  = settleCalls (rt m) ++ [resolvedWith pm2 d2; resolvedWith pm1 d1] ∧
  pendingMessages m2 = delete i1 (delete i2 (pendingMessages m)) ∧
  timers (rt m2)
  = delete (pm_timeout pm1) (delete (pm_timeout pm2) (timers (rt m))).
Proof.
  intros m1 m2 H1 H2 Hne Hn1 Hn2 (Ht1 & Hr1 & Hd1) (Ht2 & Hr2 & Hd2).
  destruct (handleMessage_reply m r2 pm2 i2 Hr2 Hn2 Ht2 H2) as (Hs & Htm & Hp).
  fold (delivery r2 m) in Hs, Htm, Hp. fold m1 in Hs, Htm, Hp.
  assert (H1' : pendingMessages m1 !! i1 = Some pm1).
  { rewrite Hp, lookup_delete_ne; done. }
  destruct (handleMessage_reply m1 r1 pm1 i1 Hr1 Hn1 Ht1 H1') as (Hs' & Htm' & Hp').
  fold (delivery r1 m1) in Hs', Htm', Hp'. fold m2 in Hs', Htm', Hp'.
  rewrite Hs', Hs, Htm', Htm, Hp', Hp, <- app_assoc, Hd1, Hd2. done.
Qed.

Lemma X6_replies_matched_by_id_witness :
  let m := run (Messenger.new exampleRuntime exampleConfig false)
             [CallSend "data" "request" (JStr "a") true;
              CallSend "data" "request" (JStr "b") true] in
  let i1 := "1700000000000-k3j9x2q0" in
  let i2 := "1700000000002-k3j9x2q1" in
  let pm1 := {| pm_promise := 0; pm_timeout := 0 |} in
  let pm2 := {| pm_promise := 1; pm_timeout := 1 |} in
  let reply i d := {| id := "1700000000700-zzz"; type := "response";
                      action := "message_response"; data := d;
                      timestamp := 1700000000700; requiresResponse := None;
                      responseId := Some i; source := host;
                      targetOrigin := "https://guest.example" |} in
  let r1 := reply i1 (JStr "for a") in
  let r2 := reply i2 (JStr "for b") in
  let m1 := Messenger.handleMessage (delivery r2 m) m in
  let m2 := Messenger.handleMessage (delivery r1 m1) m1 in
  (pendingMessages m !! i1 = Some pm1 ∧ pendingMessages m !! i2 = Some pm2 ∧
   i1 ≠ i2 ∧ i1 ≠ "" ∧ i2 ≠ "" ∧
   replyTo i1 (JStr "for a") r1 ∧ replyTo i2 (JStr "for b") r2) ∧
  settleCalls (rt m2)
  = settleCalls (rt m) ++ [resolvedWith pm2 (JStr "for b");
                            resolvedWith pm1 (JStr "for a")].
Proof.
  intros m i1 i2 pm1 pm2 reply r1 r2 m1 m2.
  assert (H1 : pendingMessages m !! i1 = Some pm1) by (vm_compute; reflexivity).
  assert (H2 : pendingMessages m !! i2 = Some pm2) by (vm_compute; reflexivity).
  assert (H3 : i1 ≠ i2) by discriminate.
  assert (H4 : i1 ≠ "") by discriminate.
  assert (H5 : i2 ≠ "") by discriminate.
  assert (H6 : replyTo i1 (JStr "for a") r1) by (repeat split).
  assert (H7 : replyTo i2 (JStr "for b") r2) by (repeat split).
  exact (conj (conj H1 (conj H2 (conj H3 (conj H4 (conj H5 (conj H6 H7))))))
           (proj1 (X6_replies_matched_by_id m i1 i2 pm1 pm2 _ _ r1 r2
                     H1 H2 H3 H4 H5 H6 H7))).
Defined.

(** *** Sending *)

(** X7. A send without [requiresResponse] creates no pending request, no
    timer and no promise.  With a target window it posts exactly one
    envelope, to that window and for the configured origin, and its
    promise is fulfilled; without one it posts nothing and its promise is
    rejected with 'Target window not available'. *)
Theorem X7_send_fire_and_forget t a d m :
  let r := Messenger.send t a d false m in
  pendingMessages r.1 = pendingMessages m ∧
  timers (rt r.1) = timers (rt m) ∧
  nextPromise (rt r.1) = nextPromise (rt m) ∧
  settleCalls (rt r.1) = settleCalls (rt m) ∧
  handlerCalls (rt r.1) = handlerCalls (rt m) ∧
  match targetWindow m with
  | Some w =>
      r.2 = Sent ∧
      posted (rt r.1)
      = posted (rt m) ++ [{| po_window := w;
                             po_payload := requestPayload t a d false m;
                             po_targetOrigin := cfg_targetOrigin (config m) |}]
  | None =>
      r.2 = SendThrew "Target window not available" ∧
      posted (rt r.1) = posted (rt m)
  end.
Proof.
  unfold Messenger.send, Messenger.postMessage, Messenger.log. simpl.
  destruct (cfg_debug (config m)); simpl; destruct (targetWindow m); done.
Qed.

(** X8. A request ([requiresResponse = true]) sent while no target window
    is set posts nothing and its promise is rejected at once with 'Target
    window not available'; its entry in the pending table and its timer
    are nevertheless left behind. *)
Theorem X8_request_without_target_window t a d m :
  let r := Messenger.send t a d true m in
  let p := nextPromise (rt m) in
  let req := requestPayload t a d true m in
  targetWindow m = None →
  r.2 = Future p ∧
  posted (rt r.1) = posted (rt m) ∧
  settleCalls (rt r.1)
  = settleCalls (rt m) ++
      [{| sc_promise := p; sc_by := ByExecutorThrow;
          sc_outcome := Rejected "Target window not available" |}] ∧
  pendingMessages r.1
  = <[id req := {| pm_promise := p; pm_timeout := nextTimer (rt m) |}]>
      (pendingMessages m) ∧
  timers (rt r.1)
  = <[nextTimer (rt m) := {| tc_id := id req; tc_promise := p |}]> (timers (rt m)).
Proof.
  intros r p req Hw. subst r p req.
  unfold Messenger.send, Messenger.sendWithResponse, Messenger.postMessage,
    Messenger.log. simpl.
  destruct (cfg_debug (config m)); simpl; rewrite Hw; done.
Qed.

Lemma X8_request_without_target_window_witness :
  let m := Messenger.new exampleRuntime exampleHostConfig true in
  let r := Messenger.send "data" "request" JUndefined true m in
  targetWindow m = None ∧
  r.2 = Future 0 ∧
  posted (rt r.1) = [] ∧
  settleCalls (rt r.1)
  = [{| sc_promise := 0; sc_by := ByExecutorThrow;
        sc_outcome := Rejected "Target window not available" |}] ∧
  pendingMessages r.1 !! "1700000000000-k3j9x2q0"
  = Some {| pm_promise := 0; pm_timeout := 0 |}.
Proof.
  intros m r.
  assert (H : targetWindow m = None) by reflexivity.
  pose proof (X8_request_without_target_window "data" "request" JUndefined m H)
    as (H1 & H2 & H3 & H4 & _).
  assert (H5 : pendingMessages r.1 !! "1700000000000-k3j9x2q0"
               = Some {| pm_promise := 0; pm_timeout := 0 |})
    by (vm_compute; reflexivity).
  exact (conj H (conj H1 (conj H2 (conj H3 H5)))).
Defined.

(** *** [destroy] *)

Lemma rejectPending_calls entries : ∀ r,
  settleCalls (foldl Messenger.rejectPending r entries)
  = settleCalls r ++ (rejectedByDestroy <$> entries).
Proof.
  induction entries as [|e es IH]; intros r; simpl; [by rewrite app_nil_r|].
  rewrite IH. unfold Messenger.rejectPending. simpl.
  by rewrite <- app_assoc.
Qed.

(** X9. [destroy] rejects every request that is still pending with
    'Messenger destroyed': the promise of each entry of the pending table
    that had not been settled receives exactly that one call, no timer
    stays armed for it, and the pending table and the handler registry
    are emptied. *)
Theorem X9_destroy_rejects_pending clock random cfg ih pre i pm :
  let m := run (Messenger.new (newRuntime clock random) cfg ih) pre in
  let m' := Messenger.destroy m in
  pendingMessages m !! i = Some pm →
  callsOn (pm_promise pm) (rt m) = [] →
  callsOn (pm_promise pm) (rt m') = [rejectedByDestroy (i, pm)] ∧
  ¬ armed (pm_promise pm) (timers (rt m')) ∧
  pendingMessages m' = ∅ ∧
  messageHandlers m' = ∅.
Proof.
  intros m m' Hp Hnil.
  assert (HI : Inv m) by apply Inv_run, Inv_new.
  assert (HL : Live (pm_promise pm) m).
  { destruct HI as [HR HA]. pose proof (HA _ _ Hp) as Ht. split.
    - apply (inv_fresh _ _ _ _ HR) in Ht. simpl in Ht. lia.
    - intros (c & Hc & _). rewrite callsOn_callsOf in Hnil.
      rewrite Hnil in Hc. by apply elem_of_nil in Hc. }
  assert (Hin : rejectedByDestroy (i, pm) ∈ callsOn (pm_promise pm) (rt m')).
  { rewrite callsOn_callsOf. unfold callsOf. apply list_elem_of_filter.
    split; [done|]. subst m'. unfold Messenger.destroy. simpl.
    rewrite rejectPending_calls. apply elem_of_app. right.
    apply list_elem_of_fmap. exists (i, pm). split; [done|].
    by apply elem_of_map_to_list. }
  destruct (Inv_once (pm_promise pm) m' (Inv_destroy m HI)
              (Live_destroy _ m HL)) as [[Hc _]|(c & Hc & _ & Hna)].
  - rewrite Hc in Hin. by apply elem_of_nil in Hin.
  - rewrite Hc in Hin. apply list_elem_of_singleton in Hin. subst c.
    done.
Qed.

Lemma X9_destroy_rejects_pending_witness :
  let m := run (Messenger.new exampleRuntime exampleConfig false)
             [CallSend "data" "request" JUndefined true] in
  let i := "1700000000000-k3j9x2q0" in
  let pm := {| pm_promise := 0; pm_timeout := 0 |} in
  let m' := Messenger.destroy m in
  (pendingMessages m !! i = Some pm ∧ callsOn (pm_promise pm) (rt m) = []) ∧
  callsOn (pm_promise pm) (rt m') = [rejectedByDestroy (i, pm)] ∧
  pendingMessages m' = ∅.
Proof.
  intros m i pm m'.
  assert (H1 : pendingMessages m !! i = Some pm) by (vm_compute; reflexivity).
  assert (H2 : callsOn (pm_promise pm) (rt m) = []) by (vm_compute; reflexivity).
  pose proof (X9_destroy_rejects_pending exampleClock exampleRandom exampleConfig
                false [CallSend "data" "request" JUndefined true] i pm H1 H2)
    as (Ha & _ & Hb & _).
  exact (conj (conj H1 H2) (conj Ha Hb)).
Defined.

Lemma listeners_filter_idem (l : EventListener) (ls : list EventListener) :
  filter (λ l', l' ≠ l) (filter (λ l', l' ≠ l) ls) = filter (λ l', l' ≠ l) ls.
Proof.
  induction ls as [|x ls IH]; [done|].
  destruct (decide (x ≠ l)) as [Hx|Hx].
  - rewrite (filter_cons_True _ x ls) by done.
    rewrite (filter_cons_True _ x _) by done. by rewrite IH.
  - by rewrite (filter_cons_False _ x ls) by done.
Qed.

(** X10. [destroy] is idempotent: a second call finds no pending request
    and no handler, rejects nothing, and leaves the messenger exactly as
    the first call left it. *)
Theorem X10_destroy_idempotent m :
  Messenger.destroy (Messenger.destroy m) = Messenger.destroy m.
Proof.
  unfold Messenger.destroy. simpl. rewrite map_to_list_empty. simpl.
  unfold Rt.removeEventListener at 1.
  rewrite listeners_rejectPending. simpl. rewrite listeners_filter_idem.
  set (r := foldl _ _ _).
  assert (H : listeners r = filter (λ l', l' ≠ handleMessage_method) (listeners (rt m))).
  { subst r. by rewrite listeners_rejectPending. }
  rewrite <- H. by destruct r.
Qed.

(** *** The result of a handler *)

(** What [handleIncomingMessage] does once the handler it awaited for a
    request has returned: the invocation is the one [handleMessage]
    recorded, and the value is sent back if and only if the request asked
    for a response. *)
Lemma handlerReturns_reply m req h w res :
  let m1 := Messenger.handleMessage (delivery req m) m in
  let k := length (handlerCalls (rt m)) in
  responseId req = None →
  messageHandlers m !! (type req +:+ ":" +:+ action req) = Some h →
  targetWindow m = Some w →
  handlerCalls (rt m1)
  = handlerCalls (rt m) ++ [{| hc_handler := h; hc_payload := payload_to_js req |}] ∧
  posted (rt (Messenger.handlerReturns k res m1))
  = posted (rt m) ++
      match res, requiresResponse req with
      | Returned v, Some true =>
          [{| po_window := w; po_payload := responsePayload (id req) v m;
              po_targetOrigin := cfg_targetOrigin (config m) |}]
      | _, _ => []
      end.
Proof.
  intros m1 k Hr Hh Hw. subst m1 k.
  rewrite handleMessage_request by done.
  rewrite (handleIncomingMessage_action req h)
    by (by destruct (log_other "Received message:" m) as (_ & -> & _)).
  split; [apply (invoke_log_calls h (payload_to_js req) "Received message:" m)|].
  pose proof (log_other "Received message:" m)
    as (Hw0 & _ & Hcfg & _ & _ & Hcalls & _).
  pose proof (log_posted "Received message:" m) as Hposted.
  assert (Hpay : ∀ v, responsePayload (id req) v (Messenger.log "Received message:" m)
                      = responsePayload (id req) v m)
    by (intros v; apply responsePayload_log).
  rewrite Hw in Hw0.
  set (m0 := Messenger.log "Received message:" m) in *.
  clearbody m0. rewrite <- Hcalls, <- Hposted, <- Hcfg. clear Hcalls Hposted Hh.
  unfold Messenger.handlerReturns, Messenger.invoke. simpl.
  rewrite decide_True by set_solver.
  rewrite lookup_app_r by done. rewrite Nat.sub_diag. simpl.
  rewrite prop_to_js_requiresResponse, prop_to_js_id. simpl.
  destruct res as [v|e]; [|by rewrite app_nil_r].
  destruct (requiresResponse req) as [[]|]; simpl; try by rewrite app_nil_r.
  erewrite respond_posted by (simpl; exact Hw0). simpl.
  rewrite <- Hpay. do 2 f_equal.
Qed.

(** X11. The value a handler returns for a request is sent back in a
    response envelope (carrying the request's id as [responseId]) exactly
    when the request has [requiresResponse = true]; a handler that throws
    gets no response sent at all, so the requester is left to its
    timeout. *)
Theorem X11_handler_result_replied m req h w :
  let m1 := Messenger.handleMessage (delivery req m) m in
  let k := length (handlerCalls (rt m)) in
  responseId req = None →
  messageHandlers m !! (type req +:+ ":" +:+ action req) = Some h →
  targetWindow m = Some w →
  handlerCalls (rt m1)
  = handlerCalls (rt m) ++ [{| hc_handler := h; hc_payload := payload_to_js req |}] ∧
  posted (rt m1) = posted (rt m) ∧
  (∀ v, requiresResponse req = Some true →
     posted (rt (Messenger.handlerReturns k (Returned v) m1))
     = posted (rt m) ++
         [{| po_window := w; po_payload := responsePayload (id req) v m;
             po_targetOrigin := cfg_targetOrigin (config m) |}] ∧
     responseId (responsePayload (id req) v m) = Some (id req) ∧
     data (responsePayload (id req) v m) = v) ∧
  (∀ v, requiresResponse req ≠ Some true →
     posted (rt (Messenger.handlerReturns k (Returned v) m1)) = posted (rt m)) ∧
  (∀ e, posted (rt (Messenger.handlerReturns k (Threw e) m1)) = posted (rt m)).
Proof.
  intros m1 k Hr Hh Hw.
  split; [apply (handlerReturns_reply m req h w (Threw "") Hr Hh Hw)|].
  split.
  { subst m1. rewrite handleMessage_request by done.
    rewrite (handleIncomingMessage_action req h)
      by (by destruct (log_other "Received message:" m) as (_ & -> & _)).
    apply (invoke_log_calls h (payload_to_js req) "Received message:" m). }
  split; [|split].
  - intros v Hrr.
    destruct (handlerReturns_reply m req h w (Returned v) Hr Hh Hw) as [_ H].
    rewrite Hrr in H. done.
  - intros v Hrr.
    destruct (handlerReturns_reply m req h w (Returned v) Hr Hh Hw) as [_ H].
    fold m1 k in H. rewrite H.
    destruct (requiresResponse req) as [[]|]; [done| |]; by rewrite app_nil_r.
  - intros e.
    destruct (handlerReturns_reply m req h w (Threw e) Hr Hh Hw) as [_ H].
    fold m1 k in H. rewrite H. by rewrite app_nil_r.
Qed.

Lemma X11_handler_result_replied_witness :
  let m := Messenger.onAction "data" "request" (user_handler "answer")
             exampleLoadedHostMessenger in
  let req := exampleGuestRequest in
  let m1 := Messenger.handleMessage (delivery req m) m in
  (responseId req = None ∧
   messageHandlers m !! (type req +:+ ":" +:+ action req)
   = Some (user_handler "answer") ∧
   targetWindow m = Some (ContentWindow 0) ∧
   requiresResponse req = Some true) ∧
  posted (rt (Messenger.handlerReturns 0 (Returned (JStr "Ada")) m1))
  = [{| po_window := ContentWindow 0;
        po_payload := responsePayload (id req) (JStr "Ada") m;
        po_targetOrigin := "https://guest.example" |}] ∧
  posted (rt (Messenger.handlerReturns 0 (Threw "boom") m1)) = [].
Proof.
  intros m req m1.
  assert (H1 : responseId req = None) by reflexivity.
  assert (H2 : messageHandlers m !! (type req +:+ ":" +:+ action req)
               = Some (user_handler "answer")) by (vm_compute; reflexivity).
  assert (H3 : targetWindow m = Some (ContentWindow 0)) by (vm_compute; reflexivity).
  assert (H4 : requiresResponse req = Some true) by reflexivity.
  pose proof (X11_handler_result_replied m req (user_handler "answer")
                (ContentWindow 0) H1 H2 H3) as (_ & _ & Ha & _ & Hb).
  exact (conj (conj H1 (conj H2 (conj H3 H4)))
           (conj (proj1 (Ha (JStr "Ada") H4)) (Hb "boom"))).
Defined.

(** X12. The round trip of a request: a request sent with
    [requiresResponse = true] is posted, the peer invokes the handler
    registered for its category and action, the value the handler returns
    is posted back as a response, and when that response reaches the
    sender while the request is pending the request's promise is resolved
    with that value, once and for good. *)
Theorem X12_request_response_round_trip
    clock random cfg ih pre ty ac d mid m h v w t :
  let s0 := run (Messenger.new (newRuntime clock random) cfg ih) pre in
  let p := nextPromise (rt s0) in
  let req := requestPayload ty ac d true s0 in
  let s1 := (Messenger.send ty ac d true s0).1 in
  let m1 := Messenger.handleMessage (delivery req m) m in
  let m2 := Messenger.handlerReturns (length (handlerCalls (rt m))) (Returned v) m1 in
  let reply := responsePayload (id req) v m in
  let s := run s1 mid in
  let s' := Messenger.handleMessage (delivery reply s) s in
  let settled := {| sc_promise := p; sc_by := ByReply; sc_outcome := Resolved v |} in
  is_Some (targetWindow s0) →
  messageHandlers m !! (ty +:+ ":" +:+ ac) = Some h →
  targetWindow m = Some w →
  pendingMessages s !! id req = Some {| pm_promise := p; pm_timeout := t |} →
  (Messenger.send ty ac d true s0).2 = Future p ∧
  (∃ ws, posted (rt s1)
         = posted (rt s0) ++ [{| po_window := ws; po_payload := req;
                                 po_targetOrigin := cfg_targetOrigin (config s0) |}]) ∧
  handlerCalls (rt m1)
  = handlerCalls (rt m) ++ [{| hc_handler := h; hc_payload := payload_to_js req |}] ∧
  posted (rt m2)
  = posted (rt m) ++ [{| po_window := w; po_payload := reply;
                         po_targetOrigin := cfg_targetOrigin (config m) |}] ∧
  callsOn p (rt s') = [settled] ∧
  ∀ later, callsOn p (rt (run s' later)) = [settled].
Proof.
  intros s0 p req s1 m1 m2 reply s s' settled [ws Hws] Hh Hw Hpend.
  assert (HI0 : Inv s0) by apply Inv_run, Inv_new.
  destruct (send_awaiting_reply ty ac d s0 ws Hws) as (Hposted & _ & _ & _).
  split; [apply send_future|].
  split; [by exists ws|].
  destruct (handlerReturns_reply m req h w (Returned v) eq_refl Hh Hw) as [Hc Hp].
  split; [done|]. split; [done|].
  assert (HI : Inv s) by (subst s s1; apply Inv_run; by apply Inv_send).
  assert (HL : Live p s).
  { subst s s1. apply Live_run. apply Live_send_new; [done|by exists ws]. }
  assert (Hnil : callsOn p (rt s) = []).
  { destruct (Inv_once p s HI HL) as [[Hc' _]|(c & _ & _ & Hna)]; [done|].
    exfalso. apply Hna. destruct HI as [_ HA]. apply HA in Hpend.
    by eexists _, _. }
  destruct (handleMessage_reply s reply _ (id req) eq_refl
              (append_dash_nonempty _ _) eq_refl Hpend) as (Hsc & _ & _).
  assert (Hs' : callsOn p (rt s') = [settled]).
  { rewrite callsOn_callsOf in *. subst s'. unfold delivery.
    rewrite Hsc, callsOf_app, Hnil.
    simpl. by rewrite callsOf_one_eq. }
  split; [done|].
  intros later. apply settled_stays; [| |done].
  - by apply Inv_handleMessage.
  - by apply Live_handleMessage.
Qed.

Lemma X12_request_response_round_trip_witness :
  let s0 := run (Messenger.new exampleRuntime exampleConfig false) [] in
  let m := Messenger.onAction "data" "request" (user_handler "answer")
             exampleLoadedHostMessenger in
  let v := JObj {[ "name" := JStr "Ada" ]} in
  let p := nextPromise (rt s0) in
  let req := requestPayload "data" "request" JUndefined true s0 in
  let s1 := (Messenger.send "data" "request" JUndefined true s0).1 in
  let reply := responsePayload (id req) v m in
  let s := run s1 [] in
  let s' := Messenger.handleMessage (delivery reply s) s in
  (is_Some (targetWindow s0) ∧
   messageHandlers m !! ("data" +:+ ":" +:+ "request") = Some (user_handler "answer") ∧
   targetWindow m = Some (ContentWindow 0) ∧
   pendingMessages s !! id req = Some {| pm_promise := p; pm_timeout := 0 |}) ∧
  callsOn p (rt s')
  = [{| sc_promise := p; sc_by := ByReply; sc_outcome := Resolved v |}].
Proof.
  intros s0 m v p req s1 reply s s'.
  assert (H1 : is_Some (targetWindow s0)) by (by eexists).
  assert (H2 : messageHandlers m !! ("data" +:+ ":" +:+ "request")
               = Some (user_handler "answer")) by (vm_compute; reflexivity).
  assert (H3 : targetWindow m = Some (ContentWindow 0)) by (vm_compute; reflexivity).
  assert (H4 : pendingMessages s !! id req = Some {| pm_promise := p; pm_timeout := 0 |})
    by (vm_compute; reflexivity).
  pose proof (X12_request_response_round_trip exampleClock exampleRandom
                exampleConfig false [] "data" "request" JUndefined [] m
                (user_handler "answer") v (ContentWindow 0) 0 H1 H2 H3 H4)
    as (_ & _ & _ & _ & Ha & _).
  exact (conj (conj H1 (conj H2 (conj H3 H4))) Ha).
Defined.

(** *** Where envelopes go *)

Lemma Sends_same m m' :
  config m' = config m → isHost m' = isHost m →
  targetWindow m' = targetWindow m → posted (rt m') = posted (rt m) →
  Sends m m'.
Proof.
  intros H1 H2 H3 H4. repeat split; try done.
  exists []. by rewrite app_nil_r.
Qed.

Lemma Sends_refl m : Sends m m.
Proof. by apply Sends_same. Qed.

Lemma addressedBy_same m m' po :
  config m' = config m → isHost m' = isHost m →
  targetWindow m' = targetWindow m →
  addressedBy m' po → addressedBy m po.
Proof.
  unfold addressedBy, Messenger.thisSource. by intros -> -> ->.
Qed.

Lemma Sends_trans m1 m2 m3 : Sends m1 m2 → Sends m2 m3 → Sends m1 m3.
Proof.
  intros (C1 & I1 & T1 & l1 & P1 & F1) (C2 & I2 & T2 & l2 & P2 & F2).
  repeat split; try congruence.
  exists (l1 ++ l2). split; [by rewrite P2, P1, app_assoc|].
  apply Forall_app. split; [done|].
  eapply Forall_impl; [exact F2|]. intros po. by apply addressedBy_same.
Qed.

Lemma Sends_log l m : Sends m (Messenger.log l m).
Proof.
  destruct (log_other l m) as (H1 & _ & H2 & H3 & _).
  apply Sends_same; try done. apply log_posted.
Qed.

Ltac posted_one Hw :=
  repeat split; try done;
  eexists; split; [reflexivity|];
  apply Forall_singleton; unfold addressedBy, Messenger.thisSource; simpl;
  by rewrite Hw.

Lemma Sends_respond i d m : Sends m (Messenger.respond i d m).1.
Proof.
  unfold Messenger.respond, Messenger.postMessage, Messenger.log. simpl.
  destruct (cfg_debug (config m)); simpl;
    (destruct (targetWindow m) as [w|] eqn:Hw; simpl;
     [posted_one Hw|by apply Sends_same]).
Qed.

Lemma Sends_send t a d r m : Sends m (Messenger.send t a d r m).1.
Proof.
  unfold Messenger.send, Messenger.sendWithResponse, Messenger.postMessage,
    Messenger.log. simpl.
  destruct r, (cfg_debug (config m)); simpl;
    (destruct (targetWindow m) as [w|] eqn:Hw; simpl;
     [posted_one Hw|by apply Sends_same]).
Qed.

Lemma Sends_handleResponse p m : Sends m (Messenger.handleResponse p m).
Proof.
  unfold Messenger.handleResponse.
  destruct (Messenger.prop p "responseId"); try apply Sends_refl.
  destruct (pendingMessages m !! s); [|apply Sends_refl].
  by apply Sends_same.
Qed.

Lemma Sends_handleIncomingMessage p m :
  Sends m (Messenger.handleIncomingMessage p m).
Proof.
  unfold Messenger.handleIncomingMessage.
  destruct (messageHandlers m !! _); [by apply Sends_same|].
  destruct (messageHandlers m !! _); [by apply Sends_same|].
  destruct (truthy _); [|apply Sends_log].
  eapply Sends_trans; [apply Sends_log|apply Sends_respond].
Qed.

Lemma Sends_handlerReturns k r m : Sends m (Messenger.handlerReturns k r m).
Proof.
  unfold Messenger.handlerReturns.
  destruct (decide _); [|apply Sends_refl].
  destruct (handlerCalls (rt m) !! k); [|apply Sends_refl].
  set (m1 := Messenger.with_rt _ m).
  assert (H1 : Sends m m1) by (by apply Sends_same).
  destruct r; [|done]. destruct (truthy _); [|done].
  eapply Sends_trans; [exact H1|apply Sends_respond].
Qed.

Lemma Sends_handleMessage ev m : Sends m (Messenger.handleMessage ev m).
Proof.
  unfold Messenger.handleMessage.
  destruct (negb _); [apply Sends_log|].
  destruct (negb _); [apply Sends_log|].
  destruct (_ && _).
  - eapply Sends_trans; [apply Sends_log|apply Sends_handleResponse].
  - eapply Sends_trans; [apply Sends_log|apply Sends_handleIncomingMessage].
Qed.

Lemma posted_rejectPending entries : ∀ r,
  posted (foldl Messenger.rejectPending r entries) = posted r.
Proof. induction entries as [|e es IH]; intros r; [done|]. simpl. by rewrite IH. Qed.

Lemma Sends_step m e :
  (∀ w, e ≠ CallSetTargetWindow w) → Sends m (step m e).
Proof.
  intros Hne. destruct e; simpl.
  - apply Sends_send.
  - apply Sends_respond.
  - by apply Sends_same.
  - by apply Sends_same.
  - by apply Sends_same.
  - by destruct (Hne contentWindow).
  - unfold Messenger.destroy. apply Sends_same; try done. simpl.
    by rewrite posted_rejectPending.
  - apply (windowMessage_ind (Sends m)); [|apply Sends_refl].
    intros m' Hm'. eapply Sends_trans; [exact Hm'|apply Sends_handleMessage].
  - unfold Messenger.timerFires. destruct (timers (rt m) !! t); [|apply Sends_refl].
    by apply Sends_same.
  - apply Sends_handlerReturns.
Qed.

Lemma guest_run es : ∀ m,
  isHost m = false → targetWindow m = Some ParentWindow →
  Sends m (run m es).
Proof.
  induction es as [|e es IH]; intros m Hh Hw; [apply Sends_refl|]. simpl.
  assert (Hs : Sends m (step m e)).
  { destruct e; try (apply Sends_step; intros w'; discriminate).
    simpl. unfold Messenger.setTargetWindow. rewrite Hh.
    destruct contentWindow; apply Sends_refl. }
  eapply Sends_trans; [exact Hs|]. destruct Hs as (_ & Hh' & Hw' & _).
  apply IH; congruence.
Qed.

Lemma send_sent t a d m :
  is_Some (targetWindow m) → (Messenger.send t a d false m).2 = Sent.
Proof.
  intros [w Hw]. unfold Messenger.send, Messenger.postMessage, Messenger.log.
  simpl. destruct (cfg_debug (config m)); simpl; by rewrite Hw.
Qed.

(** X13. A guest messenger always has the parent window as its target:
    whatever happens to it ([setTargetWindow] included, which guests
    ignore), and whatever arrives, its target window stays the parent, a
    send without [requiresResponse] never fails, and every envelope it
    ever posted went to the parent window, for the host origin of its
    configuration, tagged ['iframe']. *)
Theorem X13_guest_always_sends_to_parent clock random cfg es :
  let m := run (Messenger.new (newRuntime clock random) cfg false) es in
  targetWindow m = Some ParentWindow ∧
  (∀ t a d, (Messenger.send t a d false m).2 = Sent) ∧
  Forall (λ po, po_window po = ParentWindow ∧
                po_targetOrigin po = mc_targetOrigin cfg ∧
                targetOrigin (po_payload po) = mc_targetOrigin cfg ∧
                source (po_payload po) = iframe)
         (posted (rt m)).
Proof.
  intros m.
  destruct (guest_run es (Messenger.new (newRuntime clock random) cfg false)
              eq_refl eq_refl) as (Hc & Hh & Hw & l & Hp & Hl).
  fold m in Hc, Hh, Hw, Hp. simpl in Hw.
  split; [done|]. split.
  - intros t a d. apply send_sent. rewrite Hw. by eexists.
  - rewrite Hp. simpl. eapply Forall_impl; [exact Hl|].
    intros po (H1 & H2 & H3 & H4). simpl in *. by injection H1 as ->.
Qed.

Lemma host_run es : ∀ m,
  ∃ l, posted (rt (run m es)) = posted (rt m) ++ l ∧
       Forall (λ po, po_targetOrigin po = cfg_targetOrigin (config m) ∧
                     targetOrigin (po_payload po) = cfg_targetOrigin (config m) ∧
                     source (po_payload po) = Messenger.thisSource m) l ∧
       config (run m es) = config m ∧ isHost (run m es) = isHost m ∧
       (is_Some (targetWindow m) → is_Some (targetWindow (run m es))).
Proof.
  induction es as [|e es IH]; intros m.
  { exists []. rewrite app_nil_r. split; [done|]. split; [apply Forall_nil_2|done]. }
  simpl.
  assert (Hs : ∃ l, posted (rt (step m e)) = posted (rt m) ++ l ∧
       Forall (λ po, po_targetOrigin po = cfg_targetOrigin (config m) ∧
                     targetOrigin (po_payload po) = cfg_targetOrigin (config m) ∧
                     source (po_payload po) = Messenger.thisSource m) l ∧
       config (step m e) = config m ∧ isHost (step m e) = isHost m ∧
       (is_Some (targetWindow m) → is_Some (targetWindow (step m e)))).
  { assert (Hgen : Sends m (step m e) → ∃ l, posted (rt (step m e)) = posted (rt m) ++ l ∧
       Forall (λ po, po_targetOrigin po = cfg_targetOrigin (config m) ∧
                     targetOrigin (po_payload po) = cfg_targetOrigin (config m) ∧
                     source (po_payload po) = Messenger.thisSource m) l ∧
       config (step m e) = config m ∧ isHost (step m e) = isHost m ∧
       (is_Some (targetWindow m) → is_Some (targetWindow (step m e)))).
    { intros (Hc & Hh & Hw & l & Hp & Hl). exists l. split; [done|].
      split; [|by rewrite Hw].
      eapply Forall_impl; [exact Hl|]. by intros po (_ & ? & ? & ?). }
    destruct e; try (apply Hgen, Sends_step; intros w'; discriminate).
    simpl. exists []. rewrite app_nil_r. unfold Messenger.setTargetWindow.
    split; [by destruct contentWindow, (isHost m)|].
    split; [apply Forall_nil_2|].
    split; [by destruct contentWindow, (isHost m)|].
    split; [by destruct contentWindow, (isHost m) eqn:E|].
    destruct contentWindow as [w|]; [|done].
    destruct (isHost m); [|done]. intros _. by eexists. }
  destruct Hs as (l1 & P1 & F1 & C1 & I1 & W1).
  destruct (IH (step m e)) as (l2 & P2 & F2 & C2 & I2 & W2).
  exists (l1 ++ l2). rewrite P2, P1, app_assoc. split; [done|].
  split; [|split; [congruence|split; [congruence|auto]]].
  apply Forall_app. split; [done|].
  unfold Messenger.thisSource in *. by rewrite C1, I1 in F2.
Qed.

(** X14. A messenger never addresses an envelope to another origin than
    the one it was configured with, on whichever side it is: in every
    state it can reach, each envelope it has posted was posted for
    [config.targetOrigin], carries that origin, and is tagged with the
    messenger's own side.  Its target window, once set, stays set. *)
Theorem X14_envelopes_only_for_target_origin clock random cfg ih es :
  let m := run (Messenger.new (newRuntime clock random) cfg ih) es in
  Forall (λ po, po_targetOrigin po = mc_targetOrigin cfg ∧
                targetOrigin (po_payload po) = mc_targetOrigin cfg ∧
                source (po_payload po) = if ih then host else iframe)
         (posted (rt m)) ∧
  cfg_targetOrigin (config m) = mc_targetOrigin cfg ∧
  ∀ later, is_Some (targetWindow m) → is_Some (targetWindow (run m later)).
Proof.
  intros m.
  destruct (host_run es (Messenger.new (newRuntime clock random) cfg ih))
    as (l & Hp & Hl & Hc & Hh & _).
  fold m in Hp, Hc, Hh. split; [|split].
  - rewrite Hp.
    assert (H0 : posted (rt (Messenger.new (newRuntime clock random) cfg ih)) = [])
      by (by destruct ih).
    rewrite H0. simpl. eapply Forall_impl; [exact Hl|].
    intros po (H1 & H2 & H3).
    assert (C0 : cfg_targetOrigin (config (Messenger.new (newRuntime clock random) cfg ih))
                 = mc_targetOrigin cfg) by (by destruct ih).
    assert (S0 : Messenger.thisSource (Messenger.new (newRuntime clock random) cfg ih)
                 = if ih then host else iframe) by (by destruct ih).
    by rewrite <- C0, <- S0.
  - rewrite Hc. by destruct ih.
  - intros later. destruct (host_run later m) as (_ & _ & _ & _ & _ & H). exact H.
Qed.

Lemma X14_envelopes_only_for_target_origin_witness :
  let m := run (Messenger.new exampleRuntime exampleHostConfig true)
             [CallSetTargetWindow (Some (ContentWindow 0));
              CallSend "ui" "focus" JUndefined false] in
  is_Some (targetWindow m) ∧
  is_Some (targetWindow (run m [CallSetTargetWindow None; CallDestroy])) ∧
  Forall (λ po, po_targetOrigin po = "https://guest.example" ∧
                targetOrigin (po_payload po) = "https://guest.example" ∧
                source (po_payload po) = host)
         (posted (rt m)).
Proof.
  intros m.
  assert (H : is_Some (targetWindow m)) by (by eexists).
  pose proof (X14_envelopes_only_for_target_origin exampleClock exampleRandom
                exampleHostConfig true
                [CallSetTargetWindow (Some (ContentWindow 0));
                 CallSend "ui" "focus" JUndefined false]) as (Ha & _ & Hb).
  exact (conj H (conj (Hb [CallSetTargetWindow None; CallDestroy] H) Ha)).
Defined.

(* ===================================================================== *)
(** ** Further properties of the context manager *)
(* ===================================================================== *)

Lemma send_tags t a d m :
  is_Some (targetWindow m) →
  (Messenger.send t a d false m).2 = Sent ∧
  tags (Messenger.send t a d false m).1 = tags m ++ [(t, a)] ∧
  targetWindow (Messenger.send t a d false m).1 = targetWindow m.
Proof.
  intros Hw. split; [by apply send_sent|]. destruct Hw as [w Hw]. split.
  - unfold tags. rewrite (send_forget_posted t a d m w Hw).
    by rewrite fmap_app.
  - by destruct (Sends_send t a d false m) as (_ & _ & -> & _).
Qed.

(** [updateContext] with [notify] left at [true], on a context manager
    whose messenger has a target window. *)
Lemma updateContext_sent u cm :
  is_Some (targetWindow (messenger cm)) →
  ∃ cm', Context.updateContext u true cm = (cm', Returned ()) ∧
    context cm'
    = <["updatedAt" := JNum (reading cm)]> (spread (Context.heap cm) u ∪ context cm) ∧
    contextHistory cm' = contextHistory (Context.addToHistory cm) ∧
    tags (messenger cm') = tags (messenger cm) ++ [("state", "update")] ∧
    targetWindow (messenger cm') = targetWindow (messenger cm) ∧
    Context.heap cm' = Context.heap cm.
Proof.
  intros Hw.
  pose proof (updateContext_context u true cm) as H1.
  pose proof (updateContext_history u true cm) as H2.
  pose proof (updateContext_messenger u cm) as H3.
  pose proof (updateContext_heap u true cm) as H4.
  destruct (send_tags "state" "update" u (ticked (messenger cm)) Hw) as (S1 & S2 & S3).
  assert (Hr : (Context.updateContext u true cm).2 = Returned ()).
  { unfold Context.updateContext, Context.now. simpl.
    by destruct (Messenger.send _ _ _ _ _) as [m' []]. }
  destruct (Context.updateContext u true cm) as [cm' r]. simpl in *.
  exists cm'. subst r. rewrite H3. by repeat split.
Qed.

Lemma updateContext_result u cm :
  (Context.updateContext u true cm).2
  = match (Messenger.send "state" "update" u false (ticked (messenger cm))).2 with
    | SendThrew e => Threw e
    | _ => Returned ()
    end.
Proof.
  unfold Context.updateContext, Context.now, ticked.
  destruct (Rt.Date_now (rt (messenger (Context.addToHistory cm)))) as [t r] eqn:E.
  cbn [messenger Context.with_messenger Context.with_context Context.addToHistory
       Context.with_contextHistory] in *.
  replace r with (Rt.Date_now (rt (messenger cm))).2 by (by rewrite E).
  by destruct (Messenger.send _ _ _ _ _) as [m' []].
Qed.

Lemma send_threw t a d m :
  targetWindow m = None →
  (Messenger.send t a d false m).2 = SendThrew "Target window not available" ∧
  posted (rt (Messenger.send t a d false m).1) = posted (rt m).
Proof.
  intros Hw. unfold Messenger.send, Messenger.postMessage, Messenger.log. simpl.
  destruct (cfg_debug (config m)); simpl; by rewrite Hw.
Qed.

(** X15. [updateContext] changes the context before it notifies the
    peer: called with [notify = true] on a messenger without a target
    window, it fails with 'Target window not available' and posts
    nothing, yet the merge has been applied and the snapshot taken.  With
    [notify = false] it never fails, and with a target window it never
    fails either. *)
Theorem X15_updateContext_fails_after_merging u cm :
  (Context.updateContext u false cm).2 = Returned () ∧
  (is_Some (targetWindow (messenger cm)) →
   (Context.updateContext u true cm).2 = Returned ()) ∧
  (targetWindow (messenger cm) = None →
   let r := Context.updateContext u true cm in
   r.2 = Threw "Target window not available" ∧
   posted (rt (messenger r.1)) = posted (rt (messenger cm)) ∧
   context r.1
   = <["updatedAt" := JNum (reading cm)]> (spread (Context.heap cm) u ∪ context cm) ∧
   contextHistory r.1 = contextHistory (Context.addToHistory cm)).
Proof.
  split; [done|]. split.
  - intros Hw. by destruct (updateContext_sent u cm Hw) as (cm' & -> & _).
  - intros Hw r. subst r.
    split; [|split; [|split]].
    + rewrite updateContext_result.
      by destruct (send_threw "state" "update" u (ticked (messenger cm)) Hw) as [-> _].
    + rewrite updateContext_messenger.
      by destruct (send_threw "state" "update" u (ticked (messenger cm)) Hw) as [_ ->].
    + apply updateContext_context.
    + apply updateContext_history.
Qed.

Lemma X15_updateContext_fails_after_merging_witness :
  let cm := Context.new (Messenger.new exampleRuntime exampleHostConfig true)
              JUndefined in
  let r := Context.updateContext (JObj {[ "route" := JStr "/list" ]}) true cm in
  targetWindow (messenger cm) = None ∧
  r.2 = Threw "Target window not available" ∧
  context r.1 !! "route" = Some (JStr "/list") ∧
  length (contextHistory r.1) = 1.
Proof.
  intros cm r.
  assert (H : targetWindow (messenger cm) = None) by reflexivity.
  pose proof (X15_updateContext_fails_after_merging
                (JObj {[ "route" := JStr "/list" ]}) cm) as (_ & _ & Ha).
  destruct (Ha H) as (H1 & _ & H2 & H3).
  assert (H4 : context r.1 !! "route" = Some (JStr "/list"))
    by (subst r; rewrite H2; vm_compute; reflexivity).
  assert (H5 : length (contextHistory r.1) = 1)
    by (subst r; rewrite H3; reflexivity).
  exact (conj H (conj H1 (conj H4 H5))).
Defined.

Lemma restoreFromHistory_some index cm hc :
  (0 ≤ index)%Z → contextHistory cm !! Z.to_nat index = Some hc →
  Context.restoreFromHistory index cm
  = match Context.updateContext (JObj hc) true cm with
    | (cm', Threw e) => (cm', Threw e)
    | (cm', Returned _) => (cm', Returned true)
    end.
Proof.
  intros H0 Hl. unfold Context.restoreFromHistory.
  pose proof (lookup_lt_Some _ _ _ Hl) as Hlt.
  rewrite Hl.
  replace (0 <=? index)%Z with true by (symmetry; apply Z.leb_le; lia).
  replace (index <? Z.of_nat (length (contextHistory cm)))%Z with true
    by (symmetry; apply Z.ltb_lt; lia).
  done.
Qed.

(** X16. [restoreFromHistory]: an index below zero or beyond the history
    answers [false] and changes nothing.  A valid index merges the
    snapshot into the current context: every key of the snapshot (other
    than [updatedAt]) gets the snapshot's value, [updatedAt] is the clock
    reading, the context as it was is appended to the history, and keys
    that the snapshot does not have stay as they are, they are not
    removed.  With a target window the call answers [true]. *)
Theorem X16_restoreFromHistory index cm :
  ((index < 0)%Z ∨ (Z.of_nat (length (contextHistory cm)) ≤ index)%Z →
   Context.restoreFromHistory index cm = (cm, Returned false)) ∧
  (∀ hc, (0 ≤ index)%Z → contextHistory cm !! Z.to_nat index = Some hc →
     let r := Context.restoreFromHistory index cm in
     (∀ k v, k ≠ "updatedAt" → hc !! k = Some v → context r.1 !! k = Some v) ∧
     (∀ k, k ≠ "updatedAt" → hc !! k = None → context r.1 !! k = context cm !! k) ∧
     context r.1 !! "updatedAt" = Some (JNum (reading cm)) ∧
     contextHistory r.1 = contextHistory (Context.addToHistory cm) ∧
     (is_Some (targetWindow (messenger cm)) → r.2 = Returned true)).
Proof.
  split.
  - intros H. unfold Context.restoreFromHistory.
    destruct (0 <=? index)%Z eqn:E1; [|done].
    destruct (index <? _)%Z eqn:E2; [|done].
    apply Z.leb_le in E1. apply Z.ltb_lt in E2. lia.
  - intros hc H0 Hl r. subst r. rewrite (restoreFromHistory_some index cm hc H0 Hl).
    pose proof (updateContext_context (JObj hc) true cm) as Hc.
    pose proof (updateContext_history (JObj hc) true cm) as Hh.
    assert (Hr : is_Some (targetWindow (messenger cm)) →
                 (Context.updateContext (JObj hc) true cm).2 = Returned ()).
    { intros Hw. by destruct (updateContext_sent (JObj hc) cm Hw) as (cm' & -> & _). }
    destruct (Context.updateContext (JObj hc) true cm) as [cm' res].
    simpl in Hc, Hh, Hr.
    assert (Hgoal :
      (∀ k v, k ≠ "updatedAt" → hc !! k = Some v → context cm' !! k = Some v) ∧
      (∀ k, k ≠ "updatedAt" → hc !! k = None → context cm' !! k = context cm !! k) ∧
      context cm' !! "updatedAt" = Some (JNum (reading cm)) ∧
      contextHistory cm' = contextHistory (Context.addToHistory cm)).
    { rewrite Hc. repeat split.
      - intros k v Hk Hv. rewrite lookup_insert_ne by done.
        by apply lookup_union_Some_l.
      - intros k Hk Hv. rewrite lookup_insert_ne by done.
        by apply lookup_union_r.
      - apply lookup_insert_eq.
      - done. }
    destruct Hgoal as (G1 & G2 & G3 & G4).
    destruct res as [[]|e]; simpl; repeat split; try done.
    intros Hw. by specialize (Hr Hw).
Qed.

Lemma X16_restoreFromHistory_witness :
  let cm := (Context.updateContext (JObj {[ "route" := JStr "/list" ]}) true
               exampleContextManager).1 in
  ((-1 < 0)%Z ∧ (0 ≤ 0)%Z ∧
   contextHistory cm !! Z.to_nat 0 = Some (context exampleContextManager) ∧
   "route" ≠ "updatedAt" ∧
   context exampleContextManager !! "route" = Some (JStr "/") ∧
   is_Some (targetWindow (messenger cm))) ∧
  Context.restoreFromHistory (-1) cm = (cm, Returned false) ∧
  context (Context.restoreFromHistory 0 cm).1 !! "route" = Some (JStr "/") ∧
  (Context.restoreFromHistory 0 cm).2 = Returned true.
Proof.
  intros cm.
  assert (H1 : (-1 < 0)%Z) by lia.
  assert (H2 : (0 ≤ 0)%Z) by lia.
  assert (H3 : contextHistory cm !! Z.to_nat 0 = Some (context exampleContextManager))
    by (vm_compute; reflexivity).
  assert (H4 : "route" ≠ "updatedAt") by discriminate.
  assert (H5 : context exampleContextManager !! "route" = Some (JStr "/"))
    by (vm_compute; reflexivity).
  assert (H6 : is_Some (targetWindow (messenger cm))) by (exists ParentWindow; vm_compute; reflexivity).
  pose proof (proj1 (X16_restoreFromHistory (-1) cm) (or_introl H1)) as Ha.
  pose proof (proj2 (X16_restoreFromHistory 0 cm) _ H2 H3) as (Hb & _ & _ & _ & Hc).
  exact (conj (conj H1 (conj H2 (conj H3 (conj H4 (conj H5 H6)))))
           (conj Ha (conj (Hb "route" _ H4 H5) (Hc H6)))).
Defined.

Lemma addToHistory_last cm :
  contextHistory (Context.addToHistory cm)
    !! (length (contextHistory (Context.addToHistory cm)) - 1)
  = Some (context cm).
Proof.
  unfold Context.addToHistory. simpl.
  set (h := contextHistory cm ++ [context cm]).
  assert (Hlast : h !! (length h - 1) = Some (context cm)).
  { subst h. rewrite length_app. simpl.
    rewrite lookup_app_r by lia.
    replace (_ - _) with 0 by lia. done. }
  assert (Hlen : length h = S (length (contextHistory cm))).
  { subst h. rewrite length_app. simpl. lia. }
  clearbody h.
  destruct (maxHistorySize <? length h)%nat eqn:E; [|done].
  apply Nat.ltb_lt in E. unfold maxHistorySize in E.
  rewrite lookup_drop, length_drop. rewrite <- Hlast. f_equal. lia.
Qed.

(** X17. Undoing an update: after [updateContext(updates)], restoring the
    most recent snapshot gives every key of the context as it was before
    the update (other than [updatedAt]) its previous value; a key that
    the update introduced is still there afterwards. *)
Theorem X17_restore_undoes_update u n cm :
  let cm1 := (Context.updateContext u n cm).1 in
  let cm2 := (Context.restoreFromHistory (lastIndex cm1) cm1).1 in
  (∀ k v, k ≠ "updatedAt" → context cm !! k = Some v → context cm2 !! k = Some v) ∧
  (∀ k, k ≠ "updatedAt" → context cm !! k = None →
     context cm2 !! k = context cm1 !! k).
Proof.
  intros cm1 cm2.
  assert (Hlast : contextHistory cm1 !! Z.to_nat (lastIndex cm1) = Some (context cm)).
  { unfold lastIndex. subst cm1. rewrite updateContext_history.
    replace (Z.to_nat _) with
      (length (contextHistory (Context.addToHistory cm)) - 1) by lia.
    apply addToHistory_last. }
  assert (H0 : (0 ≤ lastIndex cm1)%Z).
  { unfold lastIndex. apply lookup_lt_Some in Hlast.
    destruct (contextHistory cm1); simpl in *; lia. }
  subst cm2. rewrite (restoreFromHistory_some _ cm1 _ H0 Hlast).
  pose proof (updateContext_context (JObj (context cm)) true cm1) as Hc.
  destruct (Context.updateContext (JObj (context cm)) true cm1) as [cm' res].
  simpl in Hc.
  assert (Hgoal :
    (∀ k v, k ≠ "updatedAt" → context cm !! k = Some v → context cm' !! k = Some v) ∧
    (∀ k, k ≠ "updatedAt" → context cm !! k = None →
       context cm' !! k = context cm1 !! k)).
  { rewrite Hc. split.
    - intros k v Hk Hv. rewrite lookup_insert_ne by done.
      by apply lookup_union_Some_l.
    - intros k Hk Hv. rewrite lookup_insert_ne by done.
      by apply lookup_union_r. }
  by destruct res as [[]|e].
Qed.

Lemma X17_restore_undoes_update_witness :
  let cm := exampleContextManager in
  let cm1 := (Context.updateContext
                (JObj (<["route" := JStr "/list"]> {[ "draft" := JBool true ]}))
                true cm).1 in
  let cm2 := (Context.restoreFromHistory (lastIndex cm1) cm1).1 in
  ("route" ≠ "updatedAt" ∧ context cm !! "route" = Some (JStr "/") ∧
   "draft" ≠ "updatedAt" ∧ context cm !! "draft" = None) ∧
  context cm1 !! "route" = Some (JStr "/list") ∧
  context cm2 !! "route" = Some (JStr "/") ∧
  context cm2 !! "draft" = Some (JBool true).
Proof.
  intros cm cm1 cm2.
  assert (H1 : "route" ≠ "updatedAt") by discriminate.
  assert (H2 : context cm !! "route" = Some (JStr "/")) by (vm_compute; reflexivity).
  assert (H3 : "draft" ≠ "updatedAt") by discriminate.
  assert (H4 : context cm !! "draft" = None) by (vm_compute; reflexivity).
  assert (H5 : context cm1 !! "route" = Some (JStr "/list")) by (vm_compute; reflexivity).
  assert (H6 : context cm1 !! "draft" = Some (JBool true)) by (vm_compute; reflexivity).
  pose proof (X17_restore_undoes_update
                (JObj (<["route" := JStr "/list"]> {[ "draft" := JBool true ]}))
                true cm) as [Ha Hb].
  exact (conj (conj H1 (conj H2 (conj H3 H4)))
           (conj H5 (conj (Ha "route" _ H1 H2) (eq_trans (Hb "draft" H3 H4) H6)))).
Defined.

(** *** Navigation *)

Lemma updateNavigation_sent upd nav cm :
  Context.navigation cm = JObj nav →
  is_Some (targetWindow (messenger cm)) →
  ∃ cm', Context.updateNavigation (JObj upd) cm = (cm', Returned ()) ∧
    context cm'
    = <["updatedAt" := JNum (reading cm)]>
        (<["navigation" := JObj (upd ∪ nav)]> (context cm)) ∧
    contextHistory cm' = contextHistory (Context.addToHistory cm) ∧
    tags (messenger cm') = tags (messenger cm) ++ [("state", "update")] ∧
    targetWindow (messenger cm') = targetWindow (messenger cm) ∧
    Context.heap cm' = Context.heap cm.
Proof.
  intros Hnav Hw. unfold Context.updateNavigation. rewrite Hnav.
  destruct (updateContext_sent
              (JObj {[ "navigation" := JObj (spread (Context.heap cm) (JObj upd)
                                              ∪ spread (Context.heap cm) (JObj nav)) ]})
              cm Hw) as (cm' & H1 & H2 & H3 & H4 & H5 & H6).
  exists cm'. split; [exact H1|]. split; [|done].
  rewrite H2. cbn [spread]. by rewrite <- insert_union_singleton_l.
Qed.

(** X18. [updateNavigation] merges one level below the context: every
    key of the partial replaces that key of [navigation], the other keys
    of [navigation] stay, and apart from [navigation] and [updatedAt] the
    context is untouched.  Exactly one [state/update] envelope is
    posted. *)
Theorem X18_updateNavigation_merges_navigation upd nav cm :
  let r := Context.updateNavigation (JObj upd) cm in
  Context.navigation cm = JObj nav →
  is_Some (targetWindow (messenger cm)) →
  ∃ nav',
    r.2 = Returned () ∧
    context r.1 !! "navigation" = Some (JObj nav') ∧
    (∀ k v, upd !! k = Some v → nav' !! k = Some v) ∧
    (∀ k, upd !! k = None → nav' !! k = nav !! k) ∧
    (∀ k, k ≠ "navigation" → k ≠ "updatedAt" → context r.1 !! k = context cm !! k) ∧
    tags (messenger r.1) = tags (messenger cm) ++ [("state", "update")].
Proof.
  intros r Hnav Hw. subst r.
  destruct (updateNavigation_sent upd nav cm Hnav Hw)
    as (cm' & -> & Hc & _ & Ht & _).
  exists (upd ∪ nav). simpl. rewrite Hc. repeat split.
  - rewrite lookup_insert_ne by done. apply lookup_insert_eq.
  - intros k v Hk. by apply lookup_union_Some_l.
  - intros k Hk. by apply lookup_union_r.
  - intros k H1 H2. by rewrite !lookup_insert_ne.
  - done.
Qed.

Lemma X18_updateNavigation_merges_navigation_witness :
  let cm := exampleContextManager in
  let upd : gmap string JsVal := {[ "query" := JStr "q=1" ]} in
  let nav : gmap string JsVal := {[ "currentRoute" := JStr "/" ]} in
  let r := Context.updateNavigation (JObj upd) cm in
  (Context.navigation cm = JObj nav ∧ is_Some (targetWindow (messenger cm))) ∧
  ∃ nav',
    r.2 = Returned () ∧
    context r.1 !! "navigation" = Some (JObj nav') ∧
    (∀ k v, upd !! k = Some v → nav' !! k = Some v) ∧
    (∀ k, upd !! k = None → nav' !! k = nav !! k) ∧
    (∀ k, k ≠ "navigation" → k ≠ "updatedAt" → context r.1 !! k = context cm !! k) ∧
    tags (messenger r.1) = tags (messenger cm) ++ [("state", "update")].
Proof.
  intros cm upd nav r.
  assert (H1 : Context.navigation cm = JObj nav) by (vm_compute; reflexivity).
  assert (H2 : is_Some (targetWindow (messenger cm))) by (exists ParentWindow; vm_compute; reflexivity).
  exact (conj (conj H1 H2)
           (X18_updateNavigation_merges_navigation upd nav cm H1 H2)).
Defined.

Lemma navigate_sent route params state nav cm :
  Context.navigation cm = JObj nav →
  is_Some (targetWindow (messenger cm)) →
  ∃ cm', Context.navigate route params state cm = (cm', Returned ()) ∧
    context cm'
    = <["updatedAt" := JNum (reading cm)]>
        (<["navigation" := JObj (navigated route params state nav)]> (context cm)) ∧
    contextHistory cm' = contextHistory (Context.addToHistory cm) ∧
    tags (messenger cm')
    = tags (messenger cm) ++ [("state", "update"); ("navigation", "navigate_to")] ∧
    targetWindow (messenger cm') = targetWindow (messenger cm) ∧
    Context.heap cm' = Context.heap cm.
Proof.
  intros Hnav Hw. unfold Context.navigate. rewrite Hnav. simpl.
  destruct (updateNavigation_sent
              (<["previousRoute" := default JUndefined (nav !! "currentRoute")]>
               (<["currentRoute" := route]>
               (<["params" := params]>
               (<["state" := state]> ∅)))) nav cm Hnav Hw)
    as (cm1 & -> & Hc & Hh & Ht & Hw1 & Hheap).
  rewrite <- Hw1 in Hw.
  destruct (send_tags "navigation" "navigate_to"
              (JObj (<["route" := route]>
                    (<["params" := params]>
                    (<["state" := state]>
                    (<["previousRoute" := default JUndefined (nav !! "currentRoute")]> ∅)))))
              (messenger cm1) Hw) as (S1 & S2 & S3).
  pose proof (arrays_send "navigation" "navigate_to"
              (JObj (<["route" := route]>
                    (<["params" := params]>
                    (<["state" := state]>
                    (<["previousRoute" := default JUndefined (nav !! "currentRoute")]> ∅)))))
              false (messenger cm1)) as S4.
  destruct (Messenger.send _ _ _ _ _) as [m2 res]. simpl in *. subst res.
  eexists. split; [reflexivity|]. simpl.
  split; [|split; [done|split; [|split; [congruence|]]]].
  - rewrite Hc. unfold navigated.
    by rewrite <- !insert_union_l, (left_id_L ∅ (∪)).
  - by rewrite S2, Ht, <- app_assoc.
  - unfold Context.heap in *. simpl. congruence.
Qed.

Lemma navigate_throws route params state cm :
  Context.navigation cm = JUndefined ∨ Context.navigation cm = JNull →
  Context.navigate route params state cm = (cm, Threw Context.TypeError).
Proof. unfold Context.navigate. by intros [-> | ->]. Qed.

(** X19. [navigate(route, params, state)] on a context whose
    [navigation] is an object: [previousRoute] becomes the route that was
    current, [currentRoute], [params] and [state] are the arguments (so a
    call without [params] or [state] clears them), the other keys of
    [navigation] and all other keys of the context but [updatedAt] stay
    (the context's top-level [route] included), and two envelopes are
    posted, [state/update] first and [navigation/navigate_to] second.  On
    a context without [navigation] the call fails and changes nothing. *)
Theorem X19_navigate route params state cm :
  let r := Context.navigate route params state cm in
  (∀ nav, Context.navigation cm = JObj nav →
     is_Some (targetWindow (messenger cm)) →
     r.2 = Returned () ∧
     context r.1 !! "navigation" = Some (JObj (navigated route params state nav)) ∧
     (∀ k, k ≠ "navigation" → k ≠ "updatedAt" → context r.1 !! k = context cm !! k) ∧
     tags (messenger r.1)
     = tags (messenger cm) ++ [("state", "update"); ("navigation", "navigate_to")]) ∧
  (Context.navigation cm = JUndefined ∨ Context.navigation cm = JNull →
   r = (cm, Threw Context.TypeError)).
Proof.
  intros r. subst r. split; [|apply navigate_throws].
  intros nav Hnav Hw.
  destruct (navigate_sent route params state nav cm Hnav Hw)
    as (cm' & -> & Hc & _ & Ht & _).
  simpl. rewrite Hc. repeat split.
  - rewrite lookup_insert_ne by done. apply lookup_insert_eq.
  - intros k H1 H2. by rewrite !lookup_insert_ne.
  - done.
Qed.

Lemma X19_navigate_witness :
  let cm := exampleContextManager in
  let nav : gmap string JsVal := {[ "currentRoute" := JStr "/" ]} in
  let r := Context.navigate (JStr "/orders") JUndefined JUndefined cm in
  (Context.navigation cm = JObj nav ∧ is_Some (targetWindow (messenger cm))) ∧
  r.2 = Returned () ∧
  context r.1 !! "navigation"
  = Some (JObj (navigated (JStr "/orders") JUndefined JUndefined nav)) ∧
  navigated (JStr "/orders") JUndefined JUndefined nav !! "previousRoute"
  = Some (JStr "/") ∧
  context r.1 !! "route" = Some (JStr "/").
Proof.
  intros cm nav r.
  assert (H1 : Context.navigation cm = JObj nav) by (vm_compute; reflexivity).
  assert (H2 : is_Some (targetWindow (messenger cm))) by (exists ParentWindow; vm_compute; reflexivity).
  pose proof (proj1 (X19_navigate (JStr "/orders") JUndefined JUndefined cm)
                nav H1 H2) as (Ha & Hb & Hc & _).
  assert (H3 : navigated (JStr "/orders") JUndefined JUndefined nav !! "previousRoute"
               = Some (JStr "/")) by (vm_compute; reflexivity).
  assert (H4 : context cm !! "route" = Some (JStr "/")) by (vm_compute; reflexivity).
  assert (H5 : "route" ≠ "navigation") by discriminate.
  assert (H6 : "route" ≠ "updatedAt") by discriminate.
  exact (conj (conj H1 H2)
           (conj Ha (conj Hb (conj H3 (eq_trans (Hc "route" H5 H6) H4))))).
Defined.

Lemma goBack_sent nav cm :
  Context.navigation cm = JObj nav →
  is_Some (targetWindow (messenger cm)) →
  ∃ cm', Context.goBack cm = (cm', Returned ()) ∧
    Context.navigation cm'
    = JObj (navigated (backRoute nav) JUndefined JUndefined nav) ∧
    tags (messenger cm')
    = tags (messenger cm) ++ [("state", "update"); ("navigation", "navigate_to");
                              ("navigation", "go_back")] ∧
    targetWindow (messenger cm') = targetWindow (messenger cm).
Proof.
  intros Hnav Hw. unfold Context.goBack. rewrite Hnav. simpl.
  fold (backRoute nav).
  destruct (navigate_sent (backRoute nav) JUndefined JUndefined nav cm Hnav Hw)
    as (cm1 & -> & Hc & _ & Ht & Hw1 & _).
  rewrite <- Hw1 in Hw.
  destruct (send_tags "navigation" "go_back" (JObj {[ "route" := backRoute nav ]})
              (messenger cm1) Hw) as (S1 & S2 & S3).
  destruct (Messenger.send _ _ _ _ _) as [m2 res]. simpl in *. subst res.
  eexists. split; [reflexivity|]. split; [|split].
  - unfold Context.navigation. simpl. rewrite Hc.
    rewrite lookup_insert_ne by done. by rewrite lookup_insert_eq.
  - simpl. by rewrite S2, Ht, <- app_assoc.
  - simpl. congruence.
Qed.

(** X20. [goBack] is a navigation to [previousRoute] (to ['/'] when
    there is none): afterwards [currentRoute] is that route and
    [previousRoute] is the route that was current, and three envelopes
    have been posted, [state/update], [navigation/navigate_to] and
    [navigation/go_back].  It keeps no stack: a second [goBack] leads
    back to the route one started from. *)
Theorem X20_goBack_swaps_routes nav cm :
  let r := Context.goBack cm in
  let current := default JUndefined (nav !! "currentRoute") in
  Context.navigation cm = JObj nav →
  is_Some (targetWindow (messenger cm)) →
  r.2 = Returned () ∧
  Context.navigation r.1
  = JObj (<["previousRoute" := current]>
         (<["currentRoute" := backRoute nav]>
         (<["params" := JUndefined]>
         (<["state" := JUndefined]> nav)))) ∧
  tags (messenger r.1)
  = tags (messenger cm) ++ [("state", "update"); ("navigation", "navigate_to");
                            ("navigation", "go_back")] ∧
  (truthy current = true →
   ∃ nav2, Context.navigation (Context.goBack r.1).1 = JObj nav2 ∧
           nav2 !! "currentRoute" = Some current ∧
           nav2 !! "previousRoute" = Some (backRoute nav)).
Proof.
  intros r current Hnav Hw. subst r.
  destruct (goBack_sent nav cm Hnav Hw) as (cm1 & -> & Hn1 & Ht1 & Hw1).
  simpl. split; [done|]. split; [exact Hn1|]. split; [done|].
  intros Htr. rewrite <- Hw1 in Hw.
  destruct (goBack_sent _ cm1 Hn1 Hw) as (cm2 & -> & Hn2 & _).
  eexists. split; [exact Hn2|]. simpl.
  assert (Hb : backRoute (navigated (backRoute nav) JUndefined JUndefined nav) = current).
  { unfold backRoute at 1. unfold navigated.
    rewrite lookup_insert_eq. simpl. fold current. by rewrite Htr. }
  rewrite Hb. unfold navigated.
  split.
  - rewrite lookup_insert_ne by done. apply lookup_insert_eq.
  - rewrite lookup_insert_eq. f_equal.
    rewrite lookup_insert_ne by done. by rewrite lookup_insert_eq.
Qed.

Lemma X20_goBack_swaps_routes_witness :
  let cm := (Context.navigate (JStr "/orders") JUndefined JUndefined
               exampleContextManager).1 in
  let nav : gmap string JsVal :=
    navigated (JStr "/orders") JUndefined JUndefined {[ "currentRoute" := JStr "/" ]} in
  (Context.navigation cm = JObj nav ∧ is_Some (targetWindow (messenger cm)) ∧
   truthy (default JUndefined (nav !! "currentRoute")) = true) ∧
  (Context.goBack cm).2 = Returned () ∧
  Messenger.prop (Context.navigation (Context.goBack cm).1) "currentRoute" = JStr "/" ∧
  ∃ nav2, Context.navigation (Context.goBack (Context.goBack cm).1).1 = JObj nav2 ∧
          nav2 !! "currentRoute" = Some (JStr "/orders") ∧
          nav2 !! "previousRoute" = Some (JStr "/").
Proof.
  intros cm nav.
  assert (H1 : Context.navigation cm = JObj nav) by (vm_compute; reflexivity).
  assert (H2 : is_Some (targetWindow (messenger cm))) by (exists ParentWindow; vm_compute; reflexivity).
  assert (H3 : truthy (default JUndefined (nav !! "currentRoute")) = true)
    by (vm_compute; reflexivity).
  pose proof (X20_goBack_swaps_routes nav cm H1 H2) as (Ha & Hb & _ & Hc).
  assert (H4 : Messenger.prop (Context.navigation (Context.goBack cm).1) "currentRoute"
               = JStr "/") by (rewrite Hb; vm_compute; reflexivity).
  exact (conj (conj H1 (conj H2 H3)) (conj Ha (conj H4 (Hc H3)))).
Defined.

(** X21. [navigateWithContext(route)] stores the whole context as it was
    before the call under [navigation.state.preservedContext], with empty
    [params]; since that context contains the navigation state, the
    context preserved by one call holds the context preserved by the call
    before it. *)
Theorem X21_navigateWithContext_nests route1 route2 nav cm :
  let r1 := NavigationHelper.navigateWithContext route1 true cm in
  let r2 := NavigationHelper.navigateWithContext route2 true r1.1 in
  Context.navigation cm = JObj nav →
  is_Some (targetWindow (messenger cm)) →
  r1.2 = Returned () ∧
  context r1.1 !! "navigation"
  = Some (JObj (navigated route1 (JObj ∅)
                  (JObj {[ "preservedContext" := JObj (context cm) ]}) nav)) ∧
  preservedContext (context r1.1) = JObj (context cm) ∧
  r2.2 = Returned () ∧
  preservedContext (context r2.1) = JObj (context r1.1).
Proof.
  intros r1 r2 Hnav Hw. subst r1 r2. unfold NavigationHelper.navigateWithContext.
  unfold Context.getContext.
  destruct (navigate_sent route1 (JObj ∅)
              (JObj {[ "preservedContext" := JObj (context cm) ]}) nav cm Hnav Hw)
    as (cm1 & -> & Hc1 & _ & _ & Hw1 & _).
  simpl.
  assert (Hn1 : Context.navigation cm1
                = JObj (navigated route1 (JObj ∅)
                          (JObj {[ "preservedContext" := JObj (context cm) ]}) nav)).
  { unfold Context.navigation. rewrite Hc1.
    rewrite lookup_insert_ne by done. by rewrite lookup_insert_eq. }
  assert (Hp : ∀ t c rt ps v nv,
            preservedContext
              (<["updatedAt" := t]>
                 (<["navigation" :=
                      JObj (navigated rt ps (JObj {[ "preservedContext" := v ]}) nv)]> c))
            = v).
  { intros. unfold preservedContext. rewrite lookup_insert_ne by done.
    rewrite lookup_insert_eq. simpl. unfold Messenger.prop, navigated. simpl.
    do 3 rewrite lookup_insert_ne by done. rewrite lookup_insert_eq. simpl.
    by rewrite lookup_singleton_eq. }
  rewrite <- Hw1 in Hw.
  destruct (navigate_sent route2 (JObj ∅)
              (JObj {[ "preservedContext" := JObj (context cm1) ]}) _ cm1 Hn1 Hw)
    as (cm2 & -> & Hc2 & _).
  simpl. split; [done|]. split.
  { rewrite Hc1. rewrite lookup_insert_ne by done. apply lookup_insert_eq. }
  split; [rewrite Hc1 at 1; apply Hp|]. split; [done|].
  rewrite Hc2 at 1. apply Hp.
Qed.

Lemma X21_navigateWithContext_nests_witness :
  let cm := exampleContextManager in
  let nav : gmap string JsVal := {[ "currentRoute" := JStr "/" ]} in
  let r1 := NavigationHelper.navigateWithContext (JStr "/step1") true cm in
  let r2 := NavigationHelper.navigateWithContext (JStr "/step2") true r1.1 in
  (Context.navigation cm = JObj nav ∧ is_Some (targetWindow (messenger cm))) ∧
  preservedContext (context r1.1) = JObj (context cm) ∧
  preservedContext (context r2.1) = JObj (context r1.1).
Proof.
  intros cm nav r1 r2.
  assert (H1 : Context.navigation cm = JObj nav) by (vm_compute; reflexivity).
  assert (H2 : is_Some (targetWindow (messenger cm))) by (exists ParentWindow; vm_compute; reflexivity).
  pose proof (X21_navigateWithContext_nests (JStr "/step1") (JStr "/step2") nav cm
                H1 H2) as (_ & _ & Ha & _ & Hb).
  exact (conj (conj H1 H2) (conj Ha Hb)).
Defined.

(** *** Breadcrumbs *)

Lemma findIndex_cases path l :
  Forall (λ b, is_Some (get b "path")) l →
  (Context.findIndex_path path l = Returned None ∧ Forall (otherPath path) l) ∨
  (∃ l1 b l2, l = l1 ++ b :: l2 ∧ Forall (otherPath path) l1 ∧ hasPath path b ∧
     Context.findIndex_path path l = Returned (Some (length l1))).
Proof.
  induction 1 as [|b l [v Hv] Hl IH].
  { left. split; [done|apply Forall_nil_2]. }
  simpl. rewrite Hv.
  destruct (strict_eq_string v path) eqn:E.
  - right. exists [], b, l. split; [done|]. split; [apply Forall_nil_2|].
    split; [by exists v|done].
  - destruct IH as [[-> Ho]|(l1 & b' & l2 & -> & Ho & Hh & ->)].
    + left. split; [done|]. apply Forall_cons. split; [by exists v|done].
    + right. exists (b :: l1), b', l2. split; [done|].
      split; [apply Forall_cons; split; [by exists v|done]|].
      split; [done|]. done.
Qed.

Lemma crumbPaths_other path l :
  Forall (otherPath path) l → path ∉ crumbPaths l.
Proof.
  intros Ho Hin. apply list_elem_of_omap in Hin as (b & Hb & Hp).
  rewrite Forall_forall in Ho. destruct (Ho b Hb) as (v & Hv & Hne).
  unfold crumbPath in Hp. rewrite Hv in Hp. destruct v; try done.
  injection Hp as ->. simpl in Hne. by rewrite String.eqb_refl in Hne.
Qed.

Lemma crumbPath_has path b : hasPath path b → crumbPath b = Some path.
Proof.
  intros (v & Hv & He). unfold crumbPath. rewrite Hv.
  destruct v; try done. simpl in He. by apply String.eqb_eq in He as ->.
Qed.

Lemma crumbPaths_app l1 l2 : crumbPaths (l1 ++ l2) = crumbPaths l1 ++ crumbPaths l2.
Proof. apply omap_app. Qed.

Lemma crumbPaths_snoc path l b :
  hasPath path b → crumbPaths (l ++ [b]) = crumbPaths l ++ [path].
Proof.
  intros Hh. rewrite crumbPaths_app. f_equal. unfold crumbPaths. simpl.
  fold (crumbPath b). by rewrite (crumbPath_has path b Hh).
Qed.

(** X22. A trail without a repeated path stays so: after
    [addBreadcrumb(label, path)] on a trail in which no path occurs
    twice, the trail ends with an entry for [path] and still holds no
    path twice; the label of an entry that was already there is not
    changed. *)
Theorem X22_breadcrumb_paths_stay_distinct cm l label path params :
  breadcrumbs cm = Some l →
  Forall (λ b, is_Some (get b "path")) l →
  NoDup (crumbPaths l) →
  ∃ l', breadcrumbs (Context.addBreadcrumb label path params cm).1 = Some l' ∧
        NoDup (crumbPaths l') ∧
        last (crumbPaths l') = Some path ∧
        (∀ b, b ∈ l → hasPath path b → last l' = Some b).
Proof.
  intros Hb Hall Hnd.
  destruct (findIndex_cases path l Hall)
    as [[Hf Ho]|(l1 & b & l2 & -> & Ho & Hh & Hf)].
  - exists (l ++ [crumb label path params]).
    rewrite (crumbPaths_snoc path) by apply hasPath_crumb.
    split; [|split; [|split]].
    + apply (addBreadcrumb_breadcrumbs label path params cm l); [done|].
      unfold trailAfter. by rewrite Hf.
    + apply NoDup_app. split; [done|]. split; [|apply NoDup_singleton].
      intros s Hs Hin. apply list_elem_of_singleton in Hin. subst s.
      by apply (crumbPaths_other path l).
    + by rewrite last_snoc.
    + intros b Hin Hh. exfalso.
      apply (crumbPaths_other path l Ho).
      apply list_elem_of_omap. exists b. split; [done|]. by apply crumbPath_has.
  - exists (l1 ++ [b]).
    assert (Htake : take (length l1 + 1) (l1 ++ b :: l2) = l1 ++ [b]).
    { rewrite take_app_add. simpl. by rewrite take_0. }
    rewrite (crumbPaths_snoc path) by done.
    rewrite crumbPaths_app in Hnd.
    change (b :: l2) with ([b] ++ l2) in Hnd.
    rewrite crumbPaths_app, app_assoc, <- crumbPaths_app in Hnd.
    rewrite (crumbPaths_snoc path) in Hnd by done.
    apply NoDup_app in Hnd as (Hn1 & Hn2 & Hn3).
    split; [|split; [|split]].
    + apply (addBreadcrumb_breadcrumbs label path params cm (l1 ++ b :: l2));
        [done|].
      unfold trailAfter. by rewrite Hf, Htake.
    + done.
    + by rewrite last_snoc.
    + intros b' Hin Hh'. rewrite last_snoc. f_equal.
      apply elem_of_app in Hin as [Hin|Hin].
      * exfalso. apply (crumbPaths_other path l1 Ho).
        apply list_elem_of_omap. exists b'. split; [done|]. by apply crumbPath_has.
      * apply elem_of_cons in Hin as [->|Hin]; [done|]. exfalso.
        apply (Hn2 path).
        -- apply elem_of_app. right. left.
        -- apply list_elem_of_omap. exists b'. split; [done|]. by apply crumbPath_has.
Qed.

Lemma X22_breadcrumb_paths_stay_distinct_witness :
  let cm := (Context.addBreadcrumb "List" "/list" JUndefined
               (Context.addBreadcrumb "Home" "/" JUndefined
                  exampleContextManager).1).1 in
  let l := [crumb "Home" "/" JUndefined; crumb "List" "/list" JUndefined] in
  (breadcrumbs cm = Some l ∧
   Forall (λ b, is_Some (get b "path")) l ∧
   NoDup (crumbPaths l)) ∧
  ∃ l', breadcrumbs (Context.addBreadcrumb "Start" "/" JUndefined cm).1 = Some l' ∧
        NoDup (crumbPaths l') ∧
        last (crumbPaths l') = Some "/" ∧
        (∀ b, b ∈ l → hasPath "/" b → last l' = Some b).
Proof.
  intros cm l.
  assert (H1 : breadcrumbs cm = Some l) by (vm_compute; reflexivity).
  assert (H2 : Forall (λ b, is_Some (get b "path")) l).
  { repeat (apply Forall_cons; split; [by eexists|]). apply Forall_nil_2. }
  assert (H3 : NoDup (crumbPaths l)).
  { change (NoDup ["/"; "/list"]). apply NoDup_cons. split.
    - intros H. apply list_elem_of_singleton in H. discriminate.
    - apply NoDup_singleton. }
  exact (conj (conj H1 (conj H2 H3))
           (X22_breadcrumb_paths_stay_distinct cm l "Start" "/" JUndefined H1 H2 H3)).
Defined.

(** *** Synchronisation with the peer *)

(** A message event on a context manager whose messenger has the one
    listener its constructor registered, when the listener invokes a
    handler: the handler's body runs, then [handleIncomingMessage]
    resumes with its result. *)
Lemma Context_windowMessage_invokes event cm fn c :
  listeners (rt (messenger cm)) = [bound fn handleMessage_method] →
  handlerCalls (rt (Messenger.handleMessage event (messenger cm)))
    !! length (handlerCalls (rt (messenger cm))) = Some c →
  Context.windowMessage event cm
  = let k := length (handlerCalls (rt (messenger cm))) in
    let cm1 := Context.with_messenger
                 (Messenger.handleMessage event (messenger cm)) cm in
    match Context.runHandler c cm1 with
    | (cm2, Some result) =>
        Context.with_messenger
          (Messenger.handlerReturns k result (messenger cm2)) cm2
    | (cm2, None) => cm2
    end.
Proof.
  intros Hl Hc. unfold Context.windowMessage. rewrite Hl.
  cbn [foldl]. unfold Context.deliver at 1.
  unfold Messenger.callListener. cbn [Messenger.listenerRuns].
  cbn [messenger Context.with_messenger]. rewrite Hc.
  destruct (Context.runHandler c _) as [cm2 [result|]]; reflexivity.
Qed.

(** X23. The [state/request] handler of a context manager answers with
    the current context: a [state/request] envelope that asks for a
    response makes the context manager post a response whose data is its
    context, and leaves the context and the history as they are. *)
Theorem X23_state_request_answered cm req w fn :
  let cm' := Context.windowMessage (delivery req (messenger cm)) cm in
  listeners (rt (messenger cm)) = [bound fn handleMessage_method] →
  messageHandlers (messenger cm) !! "state:request" = Some ctx_state_request →
  targetWindow (messenger cm) = Some w →
  type req = "state" → action req = "request" →
  responseId req = None → requiresResponse req = Some true →
  context cm' = context cm ∧
  contextHistory cm' = contextHistory cm ∧
  posted (rt (messenger cm'))
  = posted (rt (messenger cm)) ++
      [{| po_window := w;
          po_payload := responsePayload (id req) (JObj (context cm)) (messenger cm);
          po_targetOrigin := cfg_targetOrigin (config (messenger cm)) |}].
Proof.
  intros cm' Hl Hh Hw Ht Ha Hr Hrr. subst cm'.
  assert (Hh' : messageHandlers (messenger cm) !! (type req +:+ ":" +:+ action req)
                = Some ctx_state_request) by (by rewrite Ht, Ha).
  destruct (handlerReturns_reply (messenger cm) req ctx_state_request w
              (Returned (JObj (context cm))) Hr Hh' Hw) as [Hc Hp].
  rewrite Hrr in Hp.
  rewrite (Context_windowMessage_invokes _ cm fn
             {| hc_handler := ctx_state_request; hc_payload := payload_to_js req |} Hl).
  - cbn zeta. unfold Context.runHandler. cbn [hc_handler].
    cbn [context contextHistory messenger Context.with_messenger]. done.
  - rewrite Hc. rewrite lookup_app_r by done. by rewrite Nat.sub_diag.
Qed.

Lemma X23_state_request_answered_witness :
  let cm := exampleContextManager in
  let req := {| id := "1700000000500-abc123xyz"; type := "state";
                action := "request"; data := JUndefined;
                timestamp := 1700000000500; requiresResponse := Some true;
                responseId := None; source := host;
                targetOrigin := "https://guest.example" |} in
  let cm' := Context.windowMessage (delivery req (messenger cm)) cm in
  (listeners (rt (messenger cm)) = [bound 0 handleMessage_method] ∧
   messageHandlers (messenger cm) !! "state:request" = Some ctx_state_request ∧
   targetWindow (messenger cm) = Some ParentWindow ∧
   type req = "state" ∧ action req = "request" ∧
   responseId req = None ∧ requiresResponse req = Some true) ∧
  context cm' = context cm ∧
  posted (rt (messenger cm'))
  = posted (rt (messenger cm)) ++
      [{| po_window := ParentWindow;
          po_payload := responsePayload (id req) (JObj (context cm)) (messenger cm);
          po_targetOrigin := cfg_targetOrigin (config (messenger cm)) |}].
Proof.
  intros cm req cm'.
  assert (H1 : listeners (rt (messenger cm)) = [bound 0 handleMessage_method])
    by (vm_compute; reflexivity).
  assert (H2 : messageHandlers (messenger cm) !! "state:request"
               = Some ctx_state_request) by (vm_compute; reflexivity).
  assert (H3 : targetWindow (messenger cm) = Some ParentWindow)
    by (vm_compute; reflexivity).
  assert (H4 : type req = "state") by reflexivity.
  assert (H5 : action req = "request") by reflexivity.
  assert (H6 : responseId req = None) by reflexivity.
  assert (H7 : requiresResponse req = Some true) by reflexivity.
  pose proof (X23_state_request_answered cm req ParentWindow 0
                H1 H2 H3 H4 H5 H6 H7) as (Ha & _ & Hb).
  exact (conj (conj H1 (conj H2 (conj H3 (conj H4 (conj H5 (conj H6 H7))))))
           (conj Ha Hb)).
Defined.

Lemma syncContext_pull cm :
  Context.syncContext JUndefined cm
  = (Context.with_messenger
       (Messenger.send "state" "request" JUndefined true (messenger cm)).1 cm,
     SyncAwaits (nextPromise (rt (messenger cm)))).
Proof.
  unfold Context.syncContext. simpl.
  pose proof (send_future "state" "request" JUndefined (messenger cm)) as H.
  destruct (Messenger.send _ _ _ _ _) as [m r]. simpl in H. by subst r.
Qed.

Lemma syncContextSettled_rejected e cm :
  context (Context.syncContextSettled (Rejected e) cm) = context cm ∧
  contextHistory (Context.syncContextSettled (Rejected e) cm) = contextHistory cm ∧
  posted (rt (messenger (Context.syncContextSettled (Rejected e) cm)))
  = posted (rt (messenger cm)).
Proof. done. Qed.

(** X24. [syncContext()] without an argument asks the peer: it posts one
    [state/request] envelope that requires a response and waits for it,
    leaving context and history as they are.  When the request is
    answered with an object, every key of that object other than
    [updatedAt] (the context's [id] included) takes the remote value and
    no snapshot is added to the history; when the request fails (timeout,
    [destroy], no target window) the context is left as it is and the
    failure is only logged. *)
Theorem X24_syncContext_pull cm :
  let r := Context.syncContext JUndefined cm in
  r.2 = SyncAwaits (nextPromise (rt (messenger cm))) ∧
  context r.1 = context cm ∧
  contextHistory r.1 = contextHistory cm ∧
  (∀ w, targetWindow (messenger cm) = Some w →
     posted (rt (messenger r.1))
     = posted (rt (messenger cm)) ++
         [{| po_window := w;
             po_payload := requestPayload "state" "request" JUndefined true
                             (messenger cm);
             po_targetOrigin := cfg_targetOrigin (config (messenger cm)) |}]) ∧
  (∀ remote,
     let cm' := Context.syncContextSettled (Resolved (JObj remote)) r.1 in
     (∀ k v, k ≠ "updatedAt" → remote !! k = Some v → context cm' !! k = Some v) ∧
     (∀ k, k ≠ "updatedAt" → remote !! k = None → context cm' !! k = context cm !! k) ∧
     contextHistory cm' = contextHistory cm) ∧
  (∀ e,
     let cm' := Context.syncContextSettled (Rejected e) r.1 in
     context cm' = context cm ∧ contextHistory cm' = contextHistory cm ∧
     posted (rt (messenger cm')) = posted (rt (messenger r.1))).
Proof.
  intros r. subst r. rewrite syncContext_pull. cbn [fst snd].
  split; [done|]. split; [done|]. split; [done|]. split; [|split].
  - intros w Hw. cbn [messenger Context.with_messenger].
    by destruct (send_awaiting_reply "state" "request" JUndefined (messenger cm) w Hw)
      as (-> & _).
  - intros remote.
    set (cm1 := Context.with_messenger _ cm).
    rewrite syncContextSettled_history.
    rewrite (syncContextSettled_context (JObj remote) cm1) by done.
    cbn [spread]. repeat split.
    + intros k v Hk Hv. rewrite lookup_insert_ne by done.
      by apply lookup_union_Some_l.
    + intros k Hk Hv. rewrite lookup_insert_ne by done.
      by apply lookup_union_r.
  - intros e.
    set (cm1 := Context.with_messenger _ cm).
    destruct (syncContextSettled_rejected e cm1) as (-> & -> & ->).
    split; [reflexivity|]. split; reflexivity.
Qed.

Lemma X24_syncContext_pull_witness :
  let cm := exampleContextManager in
  let r := Context.syncContext JUndefined cm in
  let remote : gmap string JsVal :=
    <["id" := JStr "g1"]> {[ "route" := JStr "/app" ]} in
  let cm' := Context.syncContextSettled (Resolved (JObj remote)) r.1 in
  (targetWindow (messenger cm) = Some ParentWindow ∧
   "id" ≠ "updatedAt" ∧ remote !! "id" = Some (JStr "g1")) ∧
  r.2 = SyncAwaits 0 ∧
  tags (messenger r.1) = [("state", "request")] ∧
  context cm' !! "id" = Some (JStr "g1").
Proof.
  intros cm r remote cm'.
  assert (H1 : targetWindow (messenger cm) = Some ParentWindow)
    by (vm_compute; reflexivity).
  assert (H2 : "id" ≠ "updatedAt") by discriminate.
  assert (H3 : remote !! "id" = Some (JStr "g1")) by (vm_compute; reflexivity).
  pose proof (X24_syncContext_pull cm) as (Ha & _ & _ & Hb & Hc & _).
  assert (H4 : tags (messenger r.1) = [("state", "request")])
    by (unfold tags; subst r; rewrite (Hb _ H1); vm_compute; reflexivity).
  exact (conj (conj H1 (conj H2 H3))
           (conj Ha (conj H4 (proj1 (Hc remote) "id" _ H2 H3)))).
Defined.

(* ===================================================================== *)
(** ** Further properties of the host *)
(* ===================================================================== *)

(** *** The registry of frames *)

(** X25. [removeIframe]: for an id that is not registered nothing
    happens.  For a registered id the frame's messenger is destroyed and
    the id is forgotten, so that [getIframe] finds nothing and
    [sendToIframe] fails with 'Iframe <id> not found'; the other ids, the
    other frames and the modal stack stay as they are. *)
Theorem X25_removeIframe id_ h :
  (iframes h !! id_ = None → Host.removeIframe id_ h = h) ∧
  (∀ f, iframes h !! id_ = Some f → is_Some (frames h !! f) →
     let h' := Host.removeIframe id_ h in
     Host.getIframe id_ h' = None ∧
     (∀ t a d r, Host.sendToIframe id_ t a d r h' = (h', SendThrew (notFound id_))) ∧
     messengerOf f h' = Messenger.destroy <$> messengerOf f h ∧
     (∀ i, i ≠ id_ → iframes h' !! i = iframes h !! i) ∧
     (∀ g, g ≠ f → frames h' !! g = frames h !! g) ∧
     modalStack h' = modalStack h).
Proof.
  split.
  - intros Hn. unfold Host.removeIframe. by rewrite Hn.
  - intros f Hi [fr Hf] h'. subst h'. unfold Host.removeIframe. rewrite Hi, Hf.
    split; [|split; [|split; [|split; [|split]]]].
    + unfold Host.getIframe. cbn [iframes Host.with_iframes].
      by rewrite lookup_delete_eq.
    + intros t a d r. unfold Host.sendToIframe. cbn [iframes Host.with_iframes].
      by rewrite lookup_delete_eq.
    + unfold messengerOf, Host.setFrame. cbn [frames Host.with_iframes Host.with_frames].
      rewrite list_lookup_insert_eq by (by apply lookup_lt_Some in Hf).
      by rewrite Hf.
    + intros i Hne. cbn [iframes Host.with_iframes]. by rewrite lookup_delete_ne.
    + intros g Hne. unfold Host.setFrame.
      cbn [frames Host.with_iframes Host.with_frames].
      by rewrite list_lookup_insert_ne.
    + done.
Qed.

Lemma X25_removeIframe_witness :
  let h := (Host.createIframeLoaded 0 (Some (ContentWindow 0)) exampleHost).1 in
  let h' := Host.removeIframe "g1" h in
  (iframes h !! "g1" = Some 0 ∧ iframes h !! "g2" = None ∧
   is_Some (frames h !! 0)) ∧
  Host.removeIframe "g2" h = h ∧
  Host.getIframe "g1" h' = None ∧
  Host.sendToIframe "g1" "ui" "focus" JUndefined false h'
  = (h', SendThrew (notFound "g1")).
Proof.
  intros h h'.
  assert (H1 : iframes h !! "g1" = Some 0) by (vm_compute; reflexivity).
  assert (H2 : iframes h !! "g2" = None) by (vm_compute; reflexivity).
  assert (H3 : is_Some (frames h !! 0))
    by (apply lookup_lt_is_Some; vm_compute; lia).
  pose proof (proj2 (X25_removeIframe "g1" h) 0 H1 H3) as (Ha & Hb & _).
  exact (conj (conj H1 (conj H2 H3))
           (conj (proj1 (X25_removeIframe "g2" h) H2)
              (conj Ha (Hb "ui" "focus" JUndefined false)))).
Defined.

(** X26. A frame is registered by its [load] event, not by
    [createIframe]: between the call and the event the new id is unknown
    to [getIframe] and [sendToIframe] (which fails with 'Iframe <id> not
    found'), although its messenger already listens.  After the event the
    id is registered, the frame is marked loaded, its messenger has the
    frame's window as target, the initial [state/request] has been posted
    to it, and [sendToIframe] delivers. *)
Theorem X26_frame_registered_on_load clock random development cfg w h :
  let c := Host.createIframe (newRuntime clock random) development cfg h in
  let h1 := c.1 in
  let l := Host.createIframeLoaded c.2 (Some w) h1 in
  let h2 := l.1 in
  iframes h !! ic_id cfg = None →
  Host.getIframe (ic_id cfg) h1 = None ∧
  (∀ t a d r,
     Host.sendToIframe (ic_id cfg) t a d r h1 = (h1, SendThrew (notFound (ic_id cfg)))) ∧
  (∃ m, messengerOf c.2 h1 = Some m ∧
        listeners (rt m) = [bound 0 handleMessage_method]) ∧
  (∃ fr, Host.getIframe (ic_id cfg) h2 = Some fr ∧
         mi_id fr = ic_id cfg ∧ isLoaded fr = true ∧
         targetWindow (messenger (contextManager fr)) = Some w ∧
         tags (messenger (contextManager fr)) = [("state", "request")] ∧
         Forall (λ po, po_window po = w ∧ po_targetOrigin po = ic_src_origin cfg)
                (posted (rt (messenger (contextManager fr))))) ∧
  (∃ p, l.2 = SyncAwaits p) ∧
  (∀ t a d, (Host.sendToIframe (ic_id cfg) t a d false h2).2 = Sent).
Proof.
  intros c h1 l h2 Hnew.
  assert (Hf : frames h1 !! c.2
               = Some {| mi_id := ic_id cfg;
                         contextManager :=
                           Context.with_messenger
                             (Host.setupIframeHandlers
                                (messenger
                                   (Context.new
                                      (Messenger.new (newRuntime clock random)
                                         {| mc_targetOrigin := ic_src_origin cfg;
                                            mc_timeout := None;
                                            mc_debug := Some development;
                                            mc_maxRetries := None |} true)
                                      (JObj (<["id" := JStr (ic_id cfg)]>
                                            (<["route" := JStr (ic_src_pathname cfg)]> ∅))))))
                             (Context.new
                                (Messenger.new (newRuntime clock random)
                                   {| mc_targetOrigin := ic_src_origin cfg;
                                      mc_timeout := None;
                                      mc_debug := Some development;
                                      mc_maxRetries := None |} true)
                                (JObj (<["id" := JStr (ic_id cfg)]>
                                      (<["route" := JStr (ic_src_pathname cfg)]> ∅))));
                         isLoaded := false; modalResolve := None |}).
  { subst h1 c. unfold Host.createIframe. cbn [fst snd frames Host.with_frames].
    rewrite lookup_app_r by done. by rewrite Nat.sub_diag. }
  assert (Hi : iframes h1 = iframes h) by done.
  split; [|split; [|split]].
  - unfold Host.getIframe. by rewrite Hi, Hnew.
  - intros t a d r. unfold Host.sendToIframe. by rewrite Hi, Hnew.
  - unfold messengerOf. rewrite Hf. eexists. split; [reflexivity|].
    destruct development; reflexivity.
  - set (fr0 := {| mi_id := ic_id cfg |}) in Hf.
    assert (Hl : l = Host.createIframeLoaded c.2 (Some w) h1) by done.
    unfold Host.createIframeLoaded in Hl. rewrite Hf in Hl.
    rewrite syncContext_pull in Hl.
    set (cm1 := Context.with_messenger (Messenger.setTargetWindow _ _) _) in Hl.
    assert (Hw1 : targetWindow (messenger cm1) = Some w) by reflexivity.
    destruct (send_awaiting_reply "state" "request" JUndefined (messenger cm1) w Hw1)
      as (Hp & _ & _ & Hc).
    destruct (Sends_send "state" "request" JUndefined true (messenger cm1))
      as (_ & _ & Hw2 & _).
    assert (Hp0 : posted (rt (messenger cm1)) = []) by (by destruct development).
    assert (Ho0 : cfg_targetOrigin (config (messenger cm1)) = ic_src_origin cfg)
      by (by destruct development).
    rewrite Hp0, Ho0 in Hp. rewrite Hw1 in Hw2.
    set (m2 := (Messenger.send "state" "request" JUndefined true (messenger cm1)).1) in *.
    clearbody m2.
    assert (Hh2 : h2 = Host.setFrame c.2
                    (Host.with_contextManager (Context.with_messenger m2 cm1)
                       (Host.with_isLoaded true fr0))
                    (Host.with_iframes (<[ic_id cfg := c.2]> (iframes h1)) h1))
      by (subst h2; by rewrite Hl).
    assert (Hget : Host.getIframe (ic_id cfg) h2
                   = Some (Host.with_contextManager (Context.with_messenger m2 cm1)
                             (Host.with_isLoaded true fr0))).
    { rewrite Hh2. unfold Host.getIframe, Host.setFrame.
      cbn [iframes frames Host.with_iframes Host.with_frames].
      rewrite lookup_insert_eq. cbn [mbind option_bind].
      apply list_lookup_insert_eq. by apply lookup_lt_Some in Hf. }
    split; [|split].
    + eexists. split; [exact Hget|].
      cbn [mi_id isLoaded contextManager Host.with_contextManager Host.with_isLoaded
           messenger Context.with_messenger].
      split; [done|]. split; [done|]. split; [done|].
      unfold tags. rewrite Hp. split; [done|].
      apply Forall_singleton. done.
    + rewrite Hl. by eexists.
    + intros t a d. unfold Host.sendToIframe. rewrite Hh2.
      unfold Host.setFrame.
      cbn [iframes frames Host.with_iframes Host.with_frames].
      rewrite lookup_insert_eq.
      rewrite list_lookup_insert_eq by (by apply lookup_lt_Some in Hf).
      cbn [contextManager Host.with_contextManager messenger Context.with_messenger].
      pose proof (send_sent t a d m2 (ex_intro _ w Hw2)) as Hs.
      destruct (Messenger.send t a d false m2) as [m3 res]. simpl in *. by subst res.
Qed.

Lemma X26_frame_registered_on_load_witness :
  let cfg := {| ic_id := "g1"; ic_src_origin := "https://guest.example";
                ic_src_pathname := "/app" |} in
  let c := Host.createIframe exampleRuntime false cfg Host.new in
  let h2 := (Host.createIframeLoaded c.2 (Some (ContentWindow 0)) c.1).1 in
  iframes Host.new !! ic_id cfg = None ∧
  Host.getIframe "g1" c.1 = None ∧
  Host.sendToIframe "g1" "ui" "focus" JUndefined false c.1
  = (c.1, SendThrew (notFound "g1")) ∧
  (Host.sendToIframe "g1" "ui" "focus" JUndefined false h2).2 = Sent.
Proof.
  intros cfg c h2.
  assert (H : iframes Host.new !! ic_id cfg = None) by reflexivity.
  pose proof (X26_frame_registered_on_load exampleClock exampleRandom false cfg
                (ContentWindow 0) Host.new H) as (Ha & Hb & _ & _ & _ & Hc).
  exact (conj H (conj Ha (conj (Hb "ui" "focus" JUndefined false)
                            (Hc "ui" "focus" JUndefined)))).
Defined.

(** *** Modals *)

Lemma spliceFirst_snoc x l : x ∉ l → Host.spliceFirst x (l ++ [x]) = l.
Proof.
  induction l as [|y l IH]; intros Hn; simpl.
  - by rewrite String.eqb_refl.
  - apply not_elem_of_cons in Hn as [Hne Hn].
    destruct (String.eqb_spec y x); [congruence|]. by rewrite IH.
Qed.

Lemma spliceFirst_absent x l : x ∉ l → Host.spliceFirst x l = l.
Proof.
  induction l as [|y l IH]; intros Hn; [done|]. simpl.
  apply not_elem_of_cons in Hn as [Hne Hn].
  destruct (String.eqb_spec y x); [congruence|]. by rewrite IH.
Qed.

(** X27. A modal request and its close: [handleModalOpen] returns a new
    promise and pushes the frame's id on the modal stack; the following
    [handleModalClose] of that frame resolves exactly that promise with
    the data of the close, clears the stored resolver, and takes the id
    off the stack again (the stack is as before when the frame had no
    other modal open).  A close for a frame without an open modal
    resolves nothing and leaves the stack as it is. *)
Theorem X27_modal_open_then_close f d res h fr :
  let o := Host.handleModalOpen f d h in
  let h2 := Host.handleModalClose f res o.1 in
  frames h !! f = Some fr →
  o.2 = Some (nextModalPromise h) ∧
  modalStack o.1 = modalStack h ++ [mi_id fr] ∧
  modalResolved h2 = modalResolved h ++ [(nextModalPromise h, res)] ∧
  slot f h2 = None ∧
  (mi_id fr ∉ modalStack h → modalStack h2 = modalStack h) ∧
  (modalResolve fr = None → mi_id fr ∉ modalStack h →
   let h' := Host.handleModalClose f res h in
   modalResolved h' = modalResolved h ∧ modalStack h' = modalStack h ∧
   slot f h' = None).
Proof.
  intros o h2 Hf.
  destruct (handleModalOpen_spec f d h fr Hf) as (Ho & _ & Hr & Hst & Hs & Hfr & Hid).
  fold o in Ho, Hr, Hst, Hs, Hfr, Hid.
  destruct (frames o.1 !! f) as [fr1|] eqn:Hf1; [|done].
  injection Hid as Hid.
  pose proof (Hs f) as Hsf. rewrite decide_True in Hsf by done.
  rewrite (slot_frame f o.1 fr1 Hf1) in Hsf.
  destruct (handleModalClose_spec f res o.1 fr1 Hf1) as (_ & Hr2 & Hst2 & Hs2 & _).
  fold h2 in Hr2, Hst2, Hs2. rewrite Hsf, Hr in Hr2. rewrite Hid, Hst in Hst2.
  split; [done|]. split; [done|]. split; [done|]. split.
  { rewrite Hs2. by rewrite decide_True. }
  split.
  { intros Hn. rewrite Hst2. by apply spliceFirst_snoc. }
  intros Hnone Hn h'.
  destruct (handleModalClose_spec f res h fr Hf) as (_ & Hr3 & Hst3 & Hs3 & _).
  fold h' in Hr3, Hst3, Hs3. rewrite Hnone, app_nil_r in Hr3.
  split; [done|]. split.
  - rewrite Hst3. by apply spliceFirst_absent.
  - rewrite Hs3. by rewrite decide_True.
Qed.

Lemma X27_modal_open_then_close_witness :
  let h := exampleHost in
  let fr := {| mi_id := "g1";
               contextManager :=
                 default exampleContextManager (contextManager <$> frames h !! 0);
               isLoaded := false; modalResolve := None |} in
  let o := Host.handleModalOpen 0 (JStr "/pick") h in
  let h2 := Host.handleModalClose 0 (JStr "chosen") o.1 in
  (frames h !! 0 = Some fr ∧ mi_id fr ∉ modalStack h) ∧
  o.2 = Some 0 ∧
  modalStack o.1 = ["g1"] ∧
  modalResolved h2 = [(0, JStr "chosen")] ∧
  modalStack h2 = [].
Proof.
  intros h fr o h2.
  assert (H1 : frames h !! 0 = Some fr) by reflexivity.
  assert (H2 : mi_id fr ∉ modalStack h) by apply not_elem_of_nil.
  pose proof (X27_modal_open_then_close 0 (JStr "/pick") (JStr "chosen") h fr H1)
    as (Ha & Hb & Hc & _ & Hd & _).
  exact (conj (conj H1 H2) (conj Ha (conj Hb (conj Hc (Hd H2))))).
Defined.

(** *** Broadcast *)

Lemma broadcastTo_spec t a d h f :
  iframes (Host.broadcastTo t a d h f) = iframes h ∧
  modalStack (Host.broadcastTo t a d h f) = modalStack h ∧
  frames (Host.broadcastTo t a d h f) !! f
  = Host.sendAndCatch t a d <$> frames h !! f ∧
  (∀ g, g ≠ f → frames (Host.broadcastTo t a d h f) !! g = frames h !! g).
Proof.
  unfold Host.broadcastTo. destruct (frames h !! f) as [fr|] eqn:Hf.
  - unfold Host.setFrame. cbn [iframes modalStack frames Host.with_frames].
    split; [done|]. split; [done|]. split.
    + rewrite list_lookup_insert_eq by (by apply lookup_lt_Some in Hf). done.
    + intros g Hne. by rewrite list_lookup_insert_ne.
  - by rewrite Hf.
Qed.

Lemma broadcast_fold t a d fs : ∀ h,
  NoDup fs →
  let h' := foldl (Host.broadcastTo t a d) h fs in
  iframes h' = iframes h ∧ modalStack h' = modalStack h ∧
  (∀ f, f ∈ fs → frames h' !! f = Host.sendAndCatch t a d <$> frames h !! f) ∧
  (∀ g, g ∉ fs → frames h' !! g = frames h !! g).
Proof.
  induction fs as [|f0 fs IH]; intros h Hnd; simpl.
  { split; [done|]. split; [done|]. split; [|done].
    intros f Hf. by apply elem_of_nil in Hf. }
  apply NoDup_cons in Hnd as [Hn0 Hnd].
  destruct (broadcastTo_spec t a d h f0) as (B1 & B2 & B3 & B4).
  destruct (IH (Host.broadcastTo t a d h f0) Hnd) as (I1 & I2 & I3 & I4).
  split; [congruence|]. split; [congruence|]. split.
  - intros f Hf. apply elem_of_cons in Hf as [->|Hf].
    + by rewrite I4, B3.
    + rewrite I3 by done. rewrite B4; [done|]. intros ->. done.
  - intros g Hg. apply not_elem_of_cons in Hg as [Hne Hg].
    rewrite I4 by done. by apply B4.
Qed.

Lemma Registry_NoDup h : Registry h → NoDup (map_to_list (iframes h)).*2.
Proof.
  intros HR. apply NoDup_fmap_2_strong; [|apply NoDup_map_to_list].
  intros [i f] [i' f'] Hin Hin' Heq. simpl in Heq. subst f'.
  apply elem_of_map_to_list in Hin, Hin'.
  destruct (HR i f Hin) as (fr & Hf & Hid).
  destruct (HR i' f Hin') as (fr' & Hf' & Hid').
  rewrite Hf in Hf'. injection Hf' as <-. congruence.
Qed.

Lemma sendAndCatch_spec t a d fr :
  let m := messenger (contextManager fr) in
  let m' := messenger (contextManager (Host.sendAndCatch t a d fr)) in
  mi_id (Host.sendAndCatch t a d fr) = mi_id fr ∧
  modalResolve (Host.sendAndCatch t a d fr) = modalResolve fr ∧
  context (contextManager (Host.sendAndCatch t a d fr)) = context (contextManager fr) ∧
  pendingMessages m' = pendingMessages m ∧
  settleCalls (rt m') = settleCalls (rt m) ∧
  match targetWindow m with
  | Some w =>
      posted (rt m')
      = posted (rt m) ++ [{| po_window := w;
                             po_payload := requestPayload t a d false m;
                             po_targetOrigin := cfg_targetOrigin (config m) |}] ∧
      console (rt m') = console (rt (Messenger.log "Sending message:" m))
  | None =>
      posted (rt m') = posted (rt m) ∧
      console (rt m')
      = console (rt (Messenger.log "Sending message:" m))
          ++ ["Failed to send message to iframe"]
  end.
Proof.
  cbv zeta. unfold Host.sendAndCatch, Messenger.send, Messenger.postMessage,
    Messenger.log. simpl.
  destruct (cfg_debug (config (messenger (contextManager fr)))); simpl;
    destruct (targetWindow (messenger (contextManager fr))); done.
Qed.

(** X28. [broadcastToIframes] never fails and reaches every registered
    frame exactly once: to each frame whose messenger has a target
    window it posts one envelope with the given category, action and
    data; for a frame without a target window nothing is posted and the
    failure is turned into a console warning.  No request is left
    pending, frames that are not registered (never loaded, or removed)
    get nothing, and the registry is unchanged. *)
Theorem X28_broadcast_reaches_registered_frames t a d h :
  let h' := Host.broadcastToIframes t a d h in
  Registry h →
  iframes h' = iframes h ∧
  (∀ i f fr, iframes h !! i = Some f → frames h !! f = Some fr →
     ∃ fr', frames h' !! f = Some fr' ∧ mi_id fr' = i ∧
       let m := messenger (contextManager fr) in
       let m' := messenger (contextManager fr') in
       pendingMessages m' = pendingMessages m ∧
       match targetWindow m with
       | Some w =>
           posted (rt m')
           = posted (rt m) ++ [{| po_window := w;
                                  po_payload := requestPayload t a d false m;
                                  po_targetOrigin := cfg_targetOrigin (config m) |}]
       | None =>
           posted (rt m') = posted (rt m) ∧
           last (console (rt m')) = Some "Failed to send message to iframe"
       end) ∧
  (∀ g, (∀ i, iframes h !! i ≠ Some g) → frames h' !! g = frames h !! g).
Proof.
  intros h' HR. subst h'. unfold Host.broadcastToIframes.
  destruct (broadcast_fold t a d _ h (Registry_NoDup h HR)) as (H1 & _ & H3 & H4).
  split; [done|]. split.
  - intros i f fr Hi Hf.
    assert (Hin : f ∈ (map_to_list (iframes h)).*2).
    { apply list_elem_of_fmap. exists (i, f). split; [done|].
      by apply elem_of_map_to_list. }
    rewrite (H3 f Hin), Hf. eexists. split; [reflexivity|].
    destruct (sendAndCatch_spec t a d fr) as (S1 & _ & _ & S4 & _ & S6).
    destruct (HR i f Hi) as (fr0 & Hf0 & Hid). rewrite Hf in Hf0.
    injection Hf0 as <-.
    split; [congruence|]. cbv zeta. split; [done|].
    destruct (targetWindow (messenger (contextManager fr))); [by destruct S6|].
    destruct S6 as [S6 S7]. split; [done|]. by rewrite S7, last_snoc.
  - intros g Hg. apply H4. intros Hin.
    apply list_elem_of_fmap in Hin as ([i f] & -> & Hin).
    apply elem_of_map_to_list in Hin. by apply (Hg i).
Qed.

Lemma X28_broadcast_reaches_registered_frames_witness :
  let h := (Host.createIframeLoaded 0 (Some (ContentWindow 0)) exampleHost).1 in
  let h' := Host.broadcastToIframes "data" "refresh" JNull h in
  Registry h ∧
  iframes h' = iframes h ∧
  (tags <$> messengerOf 0 h') = Some [("state", "request"); ("data", "refresh")].
Proof.
  intros h h'.
  assert (HR : Registry h).
  { intros i f Hi.
    assert (Hm : iframes h = {[ "g1" := 0 ]}) by (vm_compute; reflexivity).
    rewrite Hm in Hi. apply lookup_singleton_Some in Hi as [<- <-].
    assert (Hid : (mi_id <$> frames h !! 0) = Some "g1") by (vm_compute; reflexivity).
    destruct (frames h !! 0) as [fr|]; [|done].
    exists fr. split; [done|]. by injection Hid. }
  assert (Ht : (tags <$> messengerOf 0 h')
               = Some [("state", "request"); ("data", "refresh")])
    by (vm_compute; reflexivity).
  exact (conj HR (conj (proj1 (X28_broadcast_reaches_registered_frames
                                 "data" "refresh" JNull h HR)) Ht)).
Defined.

(** *** Navigation requests of a guest *)

(** X29. [handleNavigation] on the host.  Data that is [undefined] or
    [null] makes it throw and change nothing.  An external request
    touches no frame: it opens a window when [target] is ['_blank'] and
    otherwise replaces the page's location.  An internal request stores
    [route], [previousRoute], [params] and [state] in the navigation of
    the frame's context, keeps the other navigation keys, posts a
    [state/update] envelope back to the guest, and calls the navigation
    callback if one is set. *)
Theorem X29_host_handleNavigation f data_ h fr :
  let r := Host.handleNavigation f data_ h in
  let url := Messenger.prop data_ "url" in
  frames h !! f = Some fr →
  (data_ = JUndefined ∨ data_ = JNull → r = (h, Threw Context.TypeError)) ∧
  (∀ e, get data_ "external" = Some e → truthy e = true →
     r.2 = Returned () ∧ frames r.1 = frames h ∧
     effects r.1
     = effects h ++
         [if strict_eq_string (Messenger.prop data_ "target") "_blank"
          then WindowOpen url else LocationHref url]) ∧
  (∀ e nav, get data_ "external" = Some e → truthy e = false →
     Context.navigation (contextManager fr) = JObj nav →
     is_Some (targetWindow (messenger (contextManager fr))) →
     r.2 = Returned () ∧
     effects r.1
     = effects h ++
         (if onNavigationCallback h
          then [NavigationCallback f (Messenger.prop data_ "route") data_]
          else []) ∧
     ∃ fr', frames r.1 !! f = Some fr' ∧
       context (contextManager fr') !! "navigation"
       = Some (JObj (<["currentRoute" := Messenger.prop data_ "route"]>
                    (<["previousRoute" := Messenger.prop data_ "previousRoute"]>
                    (<["params" := Messenger.prop data_ "params"]>
                    (<["state" := Messenger.prop data_ "state"]> nav))))) ∧
       tags (messenger (contextManager fr'))
       = tags (messenger (contextManager fr)) ++ [("state", "update")]).
Proof.
  intros r url Hf. subst r url. unfold Host.handleNavigation. rewrite Hf.
  split; [|split].
  - by intros [-> | ->].
  - intros e He Ht. rewrite He, Ht.
    by destruct (strict_eq_string _ _).
  - intros e nav He Ht Hnav Hw. rewrite He, Ht.
    destruct (updateNavigation_sent
                (<["currentRoute" := Messenger.prop data_ "route"]>
                 (<["previousRoute" := Messenger.prop data_ "previousRoute"]>
                 (<["params" := Messenger.prop data_ "params"]>
                 (<["state" := Messenger.prop data_ "state"]> ∅))))
                nav (contextManager fr) Hnav Hw)
      as (cm' & -> & Hc & _ & Htags & _).
    assert (Hfr : frames (Host.setFrame f (Host.with_contextManager cm' fr) h) !! f
                  = Some (Host.with_contextManager cm' fr)).
    { unfold Host.setFrame. cbn [frames Host.with_frames].
      apply list_lookup_insert_eq. by apply lookup_lt_Some in Hf. }
    assert (Hnav' : context cm' !! "navigation"
              = Some (JObj (<["currentRoute" := Messenger.prop data_ "route"]>
                    (<["previousRoute" := Messenger.prop data_ "previousRoute"]>
                    (<["params" := Messenger.prop data_ "params"]>
                    (<["state" := Messenger.prop data_ "state"]> nav)))))).
    { rewrite Hc. rewrite lookup_insert_ne by done. rewrite lookup_insert_eq.
      by rewrite <- !insert_union_l, (left_id_L ∅ (∪)). }
    assert (Hcb : onNavigationCallback (Host.setFrame f (Host.with_contextManager cm' fr) h)
                  = onNavigationCallback h) by done.
    rewrite Hcb.
    destruct (onNavigationCallback h); cbn [fst snd].
    + split; [done|]. split; [done|].
      exists (Host.with_contextManager cm' fr). by split.
    + split; [done|]. split; [by rewrite app_nil_r|].
      exists (Host.with_contextManager cm' fr). by split.
Qed.

Lemma X29_host_handleNavigation_witness :
  let h := Host.onNavigation
             (Host.createIframeLoaded 0 (Some (ContentWindow 0)) exampleHost).1 in
  let data_ := JObj (<["url" := JStr "https://docs.example"]>
                    (<["target" := JStr "_blank"]>
                    {[ "external" := JBool true ]})) in
  let r := Host.handleNavigation 0 data_ h in
  (is_Some (frames h !! 0) ∧
   get data_ "external" = Some (JBool true) ∧ truthy (JBool true) = true) ∧
  r.2 = Returned () ∧ frames r.1 = frames h ∧
  effects r.1 = effects h ++ [WindowOpen (JStr "https://docs.example")].
Proof.
  intros h data_ r.
  assert (H1 : is_Some (frames h !! 0))
    by (apply lookup_lt_is_Some; vm_compute; lia).
  assert (H2 : get data_ "external" = Some (JBool true)) by (vm_compute; reflexivity).
  assert (H3 : truthy (JBool true) = true) by reflexivity.
  destruct H1 as [fr Hfr].
  pose proof (proj1 (proj2 (X29_host_handleNavigation 0 data_ h fr Hfr)) _ H2 H3)
    as (Ha & Hb & Hc).
  exact (conj (conj (ex_intro _ fr Hfr) (conj H2 H3)) (conj Ha (conj Hb Hc))).
Defined.

(** *** Timeouts *)

(** X30. The timeout of a request: when the timer of a pending request
    fires, the request's promise is rejected with 'Message timeout after
    <timeout>ms', where the timeout is the configured one (5000 when the
    configuration gives none); its entry leaves the pending table, the
    other entries stay, and nothing is posted: the request is not sent
    again. *)
Theorem X30_timeout_rejects_request clock random cfg ih pre i pm :
  let m := run (Messenger.new (newRuntime clock random) cfg ih) pre in
  let m' := step m (TimerFires (pm_timeout pm)) in
  pendingMessages m !! i = Some pm →
  callsOn (pm_promise pm) (rt m) = [] →
  callsOn (pm_promise pm) (rt m')
  = [{| sc_promise := pm_promise pm; sc_by := ByTimeout;
        sc_outcome := Rejected ("Message timeout after "
                                  +:+ pretty (default 5000%Z (mc_timeout cfg))
                                  +:+ "ms") |}] ∧
  pendingMessages m' = delete i (pendingMessages m) ∧
  timers (rt m') = delete (pm_timeout pm) (timers (rt m)) ∧
  posted (rt m') = posted (rt m).
Proof.
  intros m m' Hp Hnil.
  assert (HI : Inv m) by apply Inv_run, Inv_new.
  destruct HI as [_ HA]. pose proof (HA _ _ Hp) as Ht.
  assert (Hcfg : cfg_timeout (config m) = default 5000%Z (mc_timeout cfg)).
  { subst m.
    destruct (host_run pre (Messenger.new (newRuntime clock random) cfg ih))
      as (_ & _ & _ & -> & _).
    by destruct ih. }
  split.
  - rewrite <- Hcfg. by apply (timeout_settles _ m _ _ Ht).
  - subst m'. simpl. unfold Messenger.timerFires. rewrite Ht. done.
Qed.

Lemma X30_timeout_rejects_request_witness :
  let m := run (Messenger.new exampleRuntime exampleConfig false)
             [CallSend "data" "request" JUndefined true] in
  let i := "1700000000000-k3j9x2q0" in
  let pm := {| pm_promise := 0; pm_timeout := 0 |} in
  let m' := step m (TimerFires (pm_timeout pm)) in
  (pendingMessages m !! i = Some pm ∧ callsOn (pm_promise pm) (rt m) = []) ∧
  callsOn (pm_promise pm) (rt m')
  = [{| sc_promise := 0; sc_by := ByTimeout;
        sc_outcome := Rejected "Message timeout after 5000ms" |}] ∧
  pendingMessages m' = delete i (pendingMessages m) ∧
  posted (rt m') = posted (rt m).
Proof.
  intros m i pm m'.
  assert (H1 : pendingMessages m !! i = Some pm) by (vm_compute; reflexivity).
  assert (H2 : callsOn (pm_promise pm) (rt m) = []) by (vm_compute; reflexivity).
  pose proof (X30_timeout_rejects_request exampleClock exampleRandom exampleConfig
                false [CallSend "data" "request" JUndefined true] i pm H1 H2)
    as (Ha & Hb & _ & Hc).
  exact (conj (conj H1 H2) (conj Ha (conj Hb Hc))).
Defined.
